(** * Voice-assessment pipeline of the language-learning bot

    A shallow embedding of the grading-response parser, the streak
    calculator, the Firestore persistence layer with its retry loop, the
    transcription and grading clients, the lesson lookup and the
    assessment orchestrator
    (src/services/assessmentService.js, firebaseService.js,
    openaiService.js, lessonService.js), with the properties the
    specification states about them. *)

(** The development goes on with the read of a profile, the table of
    lessons, the report helpers, the tool of the MCP server and the
    callback handlers of the bot (services/reportService.js,
    config/languages.js, mcp/assessmentMcp.js, handlers/, index.js), and
    with further properties of the whole. *)

From Stdlib Require Import List Ascii String ZArith QArith Qround Lia Bool.
From Stdlib Require Import DecimalString.
From stdpp Require Import gmap strings.
Import ListNotations.

Local Open Scope nat_scope.

(** ** JavaScript strings

    A JavaScript string is a sequence of UTF-16 code units.  The model
    keeps the code units below 256 (the Latin-1 range), one [ascii] per
    code unit; every character of the patterns and labels of the source is
    in that range. *)

Abbreviation Text := (list ascii).

Definition txt (s : string) : Text := list_ascii_of_string s.

Definition LF : ascii := ascii_of_nat 10.

(** [\s] of a regular expression and the characters removed by
    [String.prototype.trim]: the WhiteSpace and LineTerminator code points
    (TAB, LF, VT, FF, CR, SP and NBSP in this range). *)
Definition is_space (c : ascii) : bool :=
  let n := nat_of_ascii c in
  ((9 <=? n) && (n <=? 13)) || (n =? 32) || (n =? 160).

(** [\d]: the ten decimal digits. *)
Definition is_digit (c : ascii) : bool :=
  let n := nat_of_ascii c in (48 <=? n) && (n <=? 57).

(** Line terminators, which [.] refuses without the [s] flag. *)
Definition is_line_terminator (c : ascii) : bool :=
  let n := nat_of_ascii c in (n =? 10) || (n =? 13).

(** Canonicalize of the [i] flag (no [u] flag): the upper-case image of
    the code unit.  A code unit above 127 is never mapped to one below
    128, so against the ASCII characters of the patterns only the letters
    a-z have a second spelling. *)
Definition canonicalize (c : ascii) : ascii :=
  let n := nat_of_ascii c in
  if (97 <=? n) && (n <=? 122) then ascii_of_nat (n - 32) else c.

Definition char_eqb (ignoreCase : bool) (p c : ascii) : bool :=
  if ignoreCase then Ascii.eqb (canonicalize p) (canonicalize c)
  else Ascii.eqb p c.

Arguments char_eqb : simpl never.

Fixpoint drop_while (p : ascii -> bool) (s : Text) : Text :=
  match s with
  | c :: s' => if p c then drop_while p s' else s
  | [] => []
  end.

(** [String.prototype.trim]. *)
Definition trim (s : Text) : Text :=
  rev (drop_while is_space (rev (drop_while is_space s))).

(** [String.prototype.split] with a one-character separator: the empty
    string splits into one empty piece. *)
Fixpoint split_on (sep : ascii) (s : Text) : list Text :=
  match s with
  | [] => [[]]
  | c :: s' =>
      if Ascii.eqb c sep then [] :: split_on sep s'
      else match split_on sep s' with
           | piece :: rest => (c :: piece) :: rest
           | [] => [[c]]
           end
  end.

(** ** Regular expressions

    The constructs the four patterns of [parseGradingResponse] are built
    from, with the backtracking order of the ECMAScript matcher:
    alternatives left to right, greedy quantifiers longest first, lazy
    quantifiers shortest first.  Quantifiers are applied to character
    classes only, as in the source. *)

Inductive cls : Type :=
| CSpace   (* \s *)
| CDigit   (* \d *)
| CDot.    (* .  *)

Inductive regex : Type :=
| RLit (l : Text)            (* literal characters *)
| RStar (c : cls)            (* c*  *)
| RPlus (c : cls)            (* c+  *)
| RPlusLazy (c : cls)        (* c+? *)
| RGroup (r : regex)         (* ( r ), capturing group 1 *)
| RLook (r : regex)          (* (?= r ) *)
| RAlt (r1 r2 : regex)       (* r1 | r2 *)
| RSeq (r1 r2 : regex)       (* r1 r2 *)
| REnd.                      (* $ without the m flag *)

Record flags : Type := { ignoreCase : bool; dotAll : bool }.

Definition in_cls (f : flags) (c : cls) (a : ascii) : bool :=
  match c with
  | CSpace => is_space a
  | CDigit => is_digit a
  | CDot => dotAll f || negb (is_line_terminator a)
  end.

(** Remainder of [s] after the literal [l], if [s] starts with it. *)
Fixpoint strip_lit (ic : bool) (l s : Text) : option Text :=
  match l, s with
  | [], _ => Some s
  | p :: l', c :: s' => if char_eqb ic p c then strip_lit ic l' s' else None
  | _ :: _, [] => None
  end.

Section Matcher.

Variable R : Type.

(** A continuation receives the rest of the input. *)
Fixpoint star (p : ascii -> bool) (s : Text) (k : Text -> option R)
  : option R :=
  match s with
  | c :: s' =>
      if p c then
        match star p s' k with
        | Some r => Some r
        | None => k s
        end
      else k s
  | [] => k s
  end.

Fixpoint plus_lazy (p : ascii -> bool) (s : Text) (k : Text -> option R)
  : option R :=
  match s with
  | c :: s' =>
      if p c then
        match k s' with
        | Some r => Some r
        | None => plus_lazy p s' k
        end
      else None
  | [] => None
  end.

Definition plus (p : ascii -> bool) (s : Text) (k : Text -> option R)
  : option R :=
  match s with
  | c :: s' => if p c then star p s' k else None
  | [] => None
  end.

End Matcher.

Arguments star {R} p s k.
Arguments plus {R} p s k.
Arguments plus_lazy {R} p s k.

(** [run f r s cap k]: match [r] at the start of [s] and hand the rest of
    the input to the continuation [k]; [cap] is the text captured by group
    1 so far.  A lookahead is atomic: it is matched on its own, and the
    matcher never returns into it. *)
Fixpoint run {R : Type} (f : flags) (r : regex) (s : Text)
  (cap : option Text) (k : Text -> option Text -> option R) : option R :=
  match r with
  | RLit l =>
      match strip_lit (ignoreCase f) l s with
      | Some s' => k s' cap
      | None => None
      end
  | RStar c => star (in_cls f c) s (fun s' => k s' cap)
  | RPlus c => plus (in_cls f c) s (fun s' => k s' cap)
  | RPlusLazy c => plus_lazy (in_cls f c) s (fun s' => k s' cap)
  | RGroup r1 =>
      run f r1 s cap
        (fun s' _ => k s' (Some (firstn (length s - length s') s)))
  | RLook r1 =>
      match run f r1 s cap (fun _ c => Some c) with
      | Some c => k s c
      | None => None
      end
  | RAlt r1 r2 =>
      match run f r1 s cap k with
      | Some x => Some x
      | None => run f r2 s cap k
      end
  | RSeq r1 r2 => run f r1 s cap (fun s' c' => run f r2 s' c' k)
  | REnd =>
      match s with
      | [] => k s cap
      | _ :: _ => None
      end
  end.

(** [String.prototype.match] with a pattern without the [g] flag: the
    leftmost position at which the pattern matches; the result carries
    the text of group 1 ([undefined] when the group took no part). *)
Fixpoint regex_exec (f : flags) (r : regex) (s : Text)
  : option (option Text) :=
  match run f r s None (fun _ cap => Some cap) with
  | Some cap => Some cap
  | None =>
      match s with
      | [] => None
      | _ :: s' => regex_exec f r s'
      end
  end.

(** ** The patterns of [parseGradingResponse] *)

Definition flags_i : flags := {| ignoreCase := true; dotAll := false |}.

Definition flags_is : flags := {| ignoreCase := true; dotAll := true |}.

(** [/SCORE:\s*(\d+)\/100/i] *)
Definition score_re : regex :=
  RSeq (RLit (txt "SCORE:"))
    (RSeq (RStar CSpace) (RSeq (RGroup (RPlus CDigit)) (RLit (txt "/100")))).

(** [/FEEDBACK:\s*(.+?)(?=\n|STRENGTHS:|WEAK_AREAS:|$)/is] *)
Definition feedback_re : regex :=
  RSeq (RLit (txt "FEEDBACK:"))
    (RSeq (RStar CSpace)
       (RSeq (RGroup (RPlusLazy CDot))
          (RLook (RAlt (RLit [LF])
                    (RAlt (RLit (txt "STRENGTHS:"))
                       (RAlt (RLit (txt "WEAK_AREAS:")) REnd)))))).

(** [/STRENGTHS:\s*(.+?)(?=\n|WEAK_AREAS:|$)/is] *)
Definition strengths_re : regex :=
  RSeq (RLit (txt "STRENGTHS:"))
    (RSeq (RStar CSpace)
       (RSeq (RGroup (RPlusLazy CDot))
          (RLook (RAlt (RLit [LF]) (RAlt (RLit (txt "WEAK_AREAS:")) REnd))))).

(** [/WEAK_AREAS:\s*(.+?)$/is] *)
Definition weakAreas_re : regex :=
  RSeq (RLit (txt "WEAK_AREAS:"))
    (RSeq (RStar CSpace) (RSeq (RGroup (RPlusLazy CDot)) REnd)).

(** ** Values and exceptions *)

(** What a caller can hand to [parseGradingResponse]: the content of a
    chat completion is a string or [null]; other callers may pass anything. *)
Inductive JsValue : Type :=
| JsString (s : Text)
| JsNull
| JsUndefined
| JsNumber (n : Z).

Inductive JsError : Type :=
| TypeError
| ServiceError
| NotFound
| UndefinedThrown.

(** Outcome of evaluating code that may throw. *)
Inductive Exc (A : Type) : Type :=
| Return (a : A)
| Throw (e : JsError).

Arguments Return {A} a.
Arguments Throw {A} e.

Definition exc_bind {A B} (x : Exc A) (k : A -> Exc B) : Exc B :=
  match x with
  | Return a => k a
  | Throw e => Throw e
  end.

Notation "'do' x <- c1 ; c2" := (exc_bind c1 (fun x => c2))
  (at level 10, x name, c1 at level 100, c2 at level 200).

(** [v.match(re)]: only a string has the method. *)
Definition js_match (v : JsValue) (f : flags) (r : regex)
  : Exc (option (option Text)) :=
  match v with
  | JsString s => Return (regex_exec f r s)
  | _ => Throw TypeError
  end.

(** [m[1].trim()]: reading a method of [undefined] throws. *)
Definition group_trim (g : option Text) : Exc Text :=
  match g with
  | Some s => Return (trim s)
  | None => Throw TypeError
  end.

(** A JavaScript number that is an integer or [NaN]. *)
Inductive JsInt : Type :=
| NaN
| Int (z : Z).

Fixpoint digits_value (acc : Z) (s : Text) : Z :=
  match s with
  | c :: s' =>
      if is_digit c
      then digits_value (10 * acc + Z.of_nat (nat_of_ascii c - 48))%Z s'
      else acc
  | [] => acc
  end.

(** [parseInt(s, 10)] on a text without sign or leading blanks (group 1 of
    [score_re] is a run of digits): the value of the leading digits, [NaN]
    when there is none.  A run too long for a double is rounded by
    JavaScript to a number that is still above 100, so that after the
    clamp below the exact value gives the same score. *)
Definition parseInt10 (g : option Text) : JsInt :=
  match g with
  | Some (c :: s) => if is_digit c then Int (digits_value 0 (c :: s)) else NaN
  | _ => NaN
  end.

(** [Math.max(a, x)] and [Math.min(a, x)] with an integer [a]. *)
Definition math_max (a : Z) (x : JsInt) : JsInt :=
  match x with
  | NaN => NaN
  | Int z => Int (Z.max a z)
  end.

Definition math_min (a : Z) (x : JsInt) : JsInt :=
  match x with
  | NaN => NaN
  | Int z => Int (Z.min a z)
  end.

(** ** parseGradingResponse *)

Record GradedResult : Type := {
  score : JsInt;
  feedback : Text;
  strengths : list Text;
  weakAreas : list Text
}.

Definition nonempty (s : Text) : bool := 0 <? length s.

(** [str.split(',').map(s => s.trim()).filter(s => s.length > 0)] *)
Definition csv_items (str : Text) : list Text :=
  List.filter nonempty (map trim (split_on "," str)).

(** The body of the [try] block. *)
Definition parseGradingResponse_try (llmResponse : JsValue)
  : Exc GradedResult :=
  do scoreMatch <- js_match llmResponse flags_i score_re;
  let score :=
    match scoreMatch with
    | Some m => parseInt10 m
    | None => Int 0
    end in
  do feedbackMatch <- js_match llmResponse flags_is feedback_re;
  do feedback <- match feedbackMatch with
                 | Some m => group_trim m
                 | None => Return (txt "No feedback available")
                 end;
  do strengthsMatch <- js_match llmResponse flags_is strengths_re;
  do strengthsStr <- match strengthsMatch with
                  | Some m => group_trim m
                  | None => Return []
                  end;
  let strengths := csv_items strengthsStr in
  do weakAreasMatch <- js_match llmResponse flags_is weakAreas_re;
  do weakAreasStr <- match weakAreasMatch with
                  | Some m => group_trim m
                  | None => Return []
                  end;
  let weakAreas := csv_items weakAreasStr in
  Return {| score := math_min 100 (math_max 0 score);
            feedback := feedback;
            strengths := strengths;
            weakAreas := weakAreas |}.

(** The result of the [catch] block. *)
Definition parse_failure : GradedResult :=
  {| score := Int 0;
     feedback := txt "Unable to process assessment. Please try again.";
     strengths := [];
     weakAreas := [txt "Assessment parsing error"] |}.

Definition parseGradingResponse (llmResponse : JsValue) : GradedResult :=
  match parseGradingResponse_try llmResponse with
  | Return r => r
  | Throw _ => parse_failure
  end.

(** ** Service results *)

Inductive Code : Type :=
| ERR_INVALID_INPUT
| ERR_LESSON_NOT_FOUND
| ERR_TRANSCRIPTION_FAILED
| ERR_GRADING_FAILED
| ERR_DATABASE_ERROR.

(** The [error] text of a failure: a literal of the source, or the
    message Joi builds from the keys whose rules failed. *)
Inductive ErrorText : Type :=
| Message (s : string)
| JoiMessage (keys : list string)
| LanguageNotSupported (languageCode : string)
    (* `Language '${languageCode}' is not supported` *)
| LessonNotAvailable (lessonDay : Z) (languageName : Text).
    (* `Lesson ${lessonDay} not available for ${language.name}` *)

(** The standardized response object [{success, data, error, code}]. *)
Inductive Result (A : Type) : Type :=
| Success (data : A)
| Failure (error : ErrorText) (code : Code).

Arguments Success {A} data.
Arguments Failure {A} error code.

(** ** The world outside the process *)

Inductive FsOp : Type :=
| SetUser (telegramId : string)
| AddAssessment
| QueryAssessments (userId : string) (limit : nat)
| UpdateUser (userId : string).

Inductive Event : Type :=
| Transcription (language : string)
| ChatCompletion (prompt : Text)
| Firestore (op : FsOp)
| Sleep (ms : option Z).

(** A number of JavaScript that is a fraction or [NaN]. *)
Inductive JsNum : Type :=
| NumNaN
| Num (q : Q).

Record UserDoc : Type := {
  telegramId : string;
  name : string;
  targetLanguage : string;
  nativeLanguage : string;
  createdAt : Z;
  streak : Z;
  totalLessons : Z;
  avgScore : JsNum;
  lessonDay : Z;
  lessonTime : string;
  notificationEnabled : bool
}.

Record AssessmentDoc : Type := {
  doc_id : string;
  doc_userId : string;
  doc_lessonDay : Z;
  doc_targetLanguage : string;
  doc_score : Z;
  doc_transcript : Text;
  doc_expectedAnswer : Text;
  doc_feedback : Text;
  doc_strengths : list Text;
  doc_weakAreas : list Text;
  doc_timestamp : Z
}.

(** What the collaborators answer: the n-th request of each kind has a
    fixed outcome. *)
Record Env : Type := {
  firestore_up : nat -> bool;
  whisper_reply : nat -> option Text;
  chat_reply : nat -> option JsValue;
  auto_id : nat -> string;
  clock : nat -> Z
}.

Record World : Type := {
  db_assessments : list AssessmentDoc;
  db_users : gmap string UserDoc;
  fs_requests : nat;
  stt_calls : nat;
  chat_calls : nat;
  clock_reads : nat;
  trace : list Event
}.

(** An [async] function: it may throw, and it changes the world. *)
Definition Async (A : Type) : Type := World -> Exc A * World.

Definition log_event (e : Event) (w : World) : World :=
  {| db_assessments := db_assessments w; db_users := db_users w;
     fs_requests := fs_requests w; stt_calls := stt_calls w;
     chat_calls := chat_calls w; clock_reads := clock_reads w;
     trace := trace w ++ [e] |}.

(** [await new Promise(resolve => setTimeout(resolve, delay))] *)
Definition sleep (ms : option Z) (w : World) : World := log_event (Sleep ms) w.

Section Services.

Variable env : Env.

(** [new Date()], in milliseconds since the epoch. *)
Definition new_Date (w : World) : Z * World :=
  (clock env (clock_reads w),
   {| db_assessments := db_assessments w; db_users := db_users w;
      fs_requests := fs_requests w; stt_calls := stt_calls w;
      chat_calls := chat_calls w; clock_reads := S (clock_reads w);
      trace := trace w |}).

(** ** firebaseService.js *)

(** [delays[attempt] || delays[delays.length - 1]]: a missing entry and
    the entry 0 are falsy; the last entry of an empty array is
    [undefined]. *)
Definition retry_delay (delays : list Z) (attempt : nat) : option Z :=
  match nth_error delays attempt with
  | Some d => if (d =? 0)%Z then nth_error delays (length delays - 1) else Some d
  | None => nth_error delays (length delays - 1)
  end.

(** The [for] loop of [retryWithBackoff], [remaining] iterations before
    [attempt] exceeds [maxRetries]; [lastError] is what the [throw] after
    the loop throws. *)
Fixpoint retry_loop {A} (fn : Async A) (maxRetries : nat) (delays : list Z)
  (remaining attempt : nat) (lastError : JsError) : Async A :=
  match remaining with
  | O => fun w => (Throw lastError, w)
  | S remaining' =>
      fun w =>
        match fn w with
        | (Return a, w1) => (Return a, w1)
        | (Throw error, w1) =>
            let w2 := if attempt <? maxRetries
                      then sleep (retry_delay delays attempt) w1
                      else w1 in
            retry_loop fn maxRetries delays remaining' (S attempt) error w2
        end
  end.

(** [attempt] runs from 0 to [maxRetries]; [let lastError] starts
    undefined. *)
Definition retryWithBackoff {A} (fn : Async A) (maxRetries : nat)
  (delays : list Z) : Async A :=
  retry_loop fn maxRetries delays (S maxRetries) 0 UndefinedThrown.

(** The defaults [maxRetries = 3] and [delays = [100, 200, 400]], which
    every caller uses. *)
Definition default_maxRetries : nat := 3.

Definition default_delays : list Z := [100; 200; 400]%Z.

(** One request to Firestore: it is served, or the client throws. *)
Definition firestore_request {A} (op : FsOp) (serve : World -> Exc A * World)
  : Async A :=
  fun w =>
    let w1 :=
      log_event (Firestore op)
        {| db_assessments := db_assessments w; db_users := db_users w;
           fs_requests := S (fs_requests w); stt_calls := stt_calls w;
           chat_calls := chat_calls w; clock_reads := clock_reads w;
           trace := trace w |} in
    if firestore_up env (fs_requests w) then serve w1
    else (Throw ServiceError, w1).

Definition with_users (u : gmap string UserDoc) (w : World) : World :=
  {| db_assessments := db_assessments w; db_users := u;
     fs_requests := fs_requests w; stt_calls := stt_calls w;
     chat_calls := chat_calls w; clock_reads := clock_reads w;
     trace := trace w |}.

Definition with_assessments (a : list AssessmentDoc) (w : World) : World :=
  {| db_assessments := a; db_users := db_users w;
     fs_requests := fs_requests w; stt_calls := stt_calls w;
     chat_calls := chat_calls w; clock_reads := clock_reads w;
     trace := trace w |}.

Definition supported_language (l : string) : bool :=
  String.eqb l "en" || String.eqb l "es" || String.eqb l "fr" || String.eqb l "de".

(** [Joi.string()] refuses the empty string. *)
Definition nonempty_string (s : string) : bool := negb (String.eqb s "").

(** [Joi.number()] refuses a number beyond [Number.MAX_SAFE_INTEGER] in
    absolute value. *)
Definition MAX_SAFE_INTEGER : Z := 9007199254740991.

Definition safe_integer (z : Z) : bool := (Z.abs z <=? MAX_SAFE_INTEGER)%Z.

(** The keys among [checks] whose rule failed. *)
Definition failed_keys (checks : list (string * bool)) : list string :=
  map fst (List.filter (fun c => negb (snd c)) checks).

(** *** userSchema *)

Record SettingsData : Type := {
  sd_lessonTime : option string;
  sd_notificationEnabled : option bool
}.

Record UserData : Type := {
  ud_telegramId : string;
  ud_name : string;
  ud_targetLanguage : string;
  ud_nativeLanguage : option string;
  ud_createdAt : option Z;
  ud_streak : option Z;
  ud_totalLessons : option Z;
  ud_avgScore : option JsNum;
  ud_lessonDay : option Z;
  ud_settings : option SettingsData
}.

Definition in_range (lo hi : nat) (c : ascii) : bool :=
  (lo <=? nat_of_ascii c) && (nat_of_ascii c <=? hi).

(** [/^([01]\d|2[0-3]):([0-5]\d)$/] *)
Definition valid_lessonTime (s : string) : bool :=
  match list_ascii_of_string s with
  | [h1; h2; colon; m1; m2] =>
      ((in_range 48 49 h1 && is_digit h2) || (Ascii.eqb h1 "2" && in_range 48 51 h2))
      && Ascii.eqb colon ":" && in_range 48 53 m1 && is_digit m2
  | _ => false
  end.

Definition valid_avgScore (x : JsNum) : bool :=
  match x with
  | NumNaN => false
  | Num q => Qle_bool 0 q && Qle_bool q 100
  end.

Definition opt_check {A} (rule : A -> bool) (x : option A) : bool :=
  match x with
  | Some a => rule a
  | None => true
  end.

Definition user_checks (u : UserData) : list (string * bool) :=
  [ ("telegramId", nonempty_string (ud_telegramId u));
    ("name", nonempty_string (ud_name u));
    ("targetLanguage", supported_language (ud_targetLanguage u));
    ("nativeLanguage", opt_check nonempty_string (ud_nativeLanguage u));
    ("streak",
      opt_check (fun z => (0 <=? z)%Z && safe_integer z) (ud_streak u));
    ("totalLessons",
      opt_check (fun z => (0 <=? z)%Z && safe_integer z) (ud_totalLessons u));
    ("avgScore", opt_check valid_avgScore (ud_avgScore u));
    ("lessonDay",
      opt_check (fun z => (1 <=? z)%Z && safe_integer z) (ud_lessonDay u));
    ("settings.lessonTime",
      opt_check (fun st => opt_check valid_lessonTime (sd_lessonTime st))
        (ud_settings u)) ].

(** [validate(userData, userSchema)]: the keys in error, or the value
    with the defaults filled in; a missing [createdAt] reads the clock. *)
Definition validate_user (u : UserData) (w : World)
  : (list string + UserDoc) * World :=
  let (created, w1) :=
    match ud_createdAt u with
    | Some t => (t, w)
    | None => new_Date w
    end in
  match failed_keys (user_checks u) with
  | [] =>
      (inr {| telegramId := ud_telegramId u;
              name := ud_name u;
              targetLanguage := ud_targetLanguage u;
              nativeLanguage := default "he" (ud_nativeLanguage u);
              createdAt := created;
              streak := default 0%Z (ud_streak u);
              totalLessons := default 0%Z (ud_totalLessons u);
              avgScore := default (Num 0) (ud_avgScore u);
              lessonDay := default 1%Z (ud_lessonDay u);
              lessonTime :=
                default "09:00" (ud_settings u ≫= sd_lessonTime);
              notificationEnabled :=
                default true (ud_settings u ≫= sd_notificationEnabled) |},
       w1)
  | keys => (inl keys, w1)
  end.

(** [db.collection('users').doc(id).set(validatedData, { merge: true })]:
    the validated value holds every field of the document. *)
Definition set_user (doc : UserDoc) : Async unit :=
  firestore_request (SetUser (telegramId doc))
    (fun w => (Return tt, with_users (<[telegramId doc := doc]> (db_users w)) w)).

Definition upsertUser (userData : UserData) (w : World) : Result unit * World :=
  let (validation, w0) := validate_user userData w in
  match validation with
  | inl keys => (Failure (JoiMessage keys) ERR_INVALID_INPUT, w0)
  | inr validatedData =>
      match retryWithBackoff (set_user validatedData)
              default_maxRetries default_delays w0 with
      | (Return _, w1) => (Success tt, w1)
      | (Throw _, w1) =>
          (Failure (Message "Failed to save user data") ERR_DATABASE_ERROR, w1)
      end
  end.

(** *** assessmentSchema *)

Record AssessmentData : Type := {
  a_userId : string;
  a_lessonDay : Z;
  a_targetLanguage : string;
  a_score : JsInt;
  a_transcript : Text;
  a_expectedAnswer : Text;
  a_feedback : Text;
  a_strengths : list Text;
  a_weakAreas : list Text;
  a_timestamp : option Z
}.

Definition valid_score (x : JsInt) : bool :=
  match x with
  | NaN => false
  | Int z => (0 <=? z)%Z && (z <=? 100)%Z
  end.

Definition score_value (x : JsInt) : Z :=
  match x with
  | NaN => 0
  | Int z => z
  end.

Definition assessment_checks (a : AssessmentData) : list (string * bool) :=
  [ ("userId", nonempty_string (a_userId a));
    ("lessonDay", (1 <=? a_lessonDay a)%Z && safe_integer (a_lessonDay a));
    ("targetLanguage", supported_language (a_targetLanguage a));
    ("score", valid_score (a_score a));
    ("transcript", nonempty (a_transcript a));
    ("expectedAnswer", nonempty (a_expectedAnswer a));
    ("feedback", nonempty (a_feedback a));
    ("strengths", forallb nonempty (a_strengths a));
    ("weakAreas", forallb nonempty (a_weakAreas a)) ].

(** [validate(assessmentData, assessmentSchema)]; the document is given
    its id when it is added. *)
Definition validate_assessment (a : AssessmentData) (w : World)
  : (list string + (string -> AssessmentDoc)) * World :=
  let (stamp, w1) :=
    match a_timestamp a with
    | Some t => (t, w)
    | None => new_Date w
    end in
  match failed_keys (assessment_checks a) with
  | [] =>
      (inr (fun id =>
              {| doc_id := id;
                 doc_userId := a_userId a;
                 doc_lessonDay := a_lessonDay a;
                 doc_targetLanguage := a_targetLanguage a;
                 doc_score := score_value (a_score a);
                 doc_transcript := a_transcript a;
                 doc_expectedAnswer := a_expectedAnswer a;
                 doc_feedback := a_feedback a;
                 doc_strengths := a_strengths a;
                 doc_weakAreas := a_weakAreas a;
                 doc_timestamp := stamp |}),
       w1)
  | keys => (inl keys, w1)
  end.

(** [db.collection('assessments').add(validatedData)] resolves to the
    reference of the new document. *)
Definition add_assessment (validatedData : string -> AssessmentDoc)
  : Async string :=
  firestore_request AddAssessment
    (fun w =>
       let id := auto_id env (length (db_assessments w)) in
       (Return id,
        with_assessments (db_assessments w ++ [validatedData id]) w)).

Definition storeAssessment (assessmentData : AssessmentData) (w : World)
  : Result string * World :=
  let (validation, w0) := validate_assessment assessmentData w in
  match validation with
  | inl keys => (Failure (JoiMessage keys) ERR_INVALID_INPUT, w0)
  | inr validatedData =>
      match retryWithBackoff (add_assessment validatedData)
              default_maxRetries default_delays w0 with
      | (Return id, w1) => (Success id, w1)
      | (Throw _, w1) =>
          (Failure (Message "Failed to save assessment") ERR_DATABASE_ERROR, w1)
      end
  end.

(** *** getUserAssessments *)

Fixpoint insert_by_timestamp (d : AssessmentDoc) (l : list AssessmentDoc)
  : list AssessmentDoc :=
  match l with
  | [] => [d]
  | x :: l' =>
      if (doc_timestamp x <? doc_timestamp d)%Z then d :: l
      else x :: insert_by_timestamp d l'
  end.

(** [.orderBy('timestamp', 'desc')] *)
Definition order_by_timestamp_desc (l : list AssessmentDoc) : list AssessmentDoc :=
  fold_right insert_by_timestamp [] l.

(** [.where('userId', '==', userId).orderBy('timestamp', 'desc').limit(limit)] *)
Definition run_query (userId : string) (limit : nat) (docs : list AssessmentDoc)
  : list AssessmentDoc :=
  firstn limit
    (order_by_timestamp_desc
       (List.filter (fun d => String.eqb (doc_userId d) userId) docs)).

Definition query_assessments (userId : string) (limit : nat)
  : Async (list AssessmentDoc) :=
  firestore_request (QueryAssessments userId limit)
    (fun w => (Return (run_query userId limit (db_assessments w)), w)).

Definition default_limit : nat := 50.

Definition getUserAssessments (userId : string) (limit : nat) (w : World)
  : Result (list AssessmentDoc) * World :=
  match retryWithBackoff (query_assessments userId limit)
          default_maxRetries default_delays w with
  | (Return assessments, w1) => (Success assessments, w1)
  | (Throw _, w1) =>
      (Failure (Message "Failed to retrieve assessments") ERR_DATABASE_ERROR, w1)
  end.

(** *** updateUserStats *)

Record UserUpdates : Type := {
  up_avgScore : option JsNum;
  up_streak : option Z;
  up_lessonDay : option Z;
  up_totalLessons : option Z;
  up_targetLanguage : option string
}.

Definition apply_updates (updates : UserUpdates) (u : UserDoc) : UserDoc :=
  {| telegramId := telegramId u;
     name := name u;
     targetLanguage := default (targetLanguage u) (up_targetLanguage updates);
     nativeLanguage := nativeLanguage u;
     createdAt := createdAt u;
     streak := default (streak u) (up_streak updates);
     totalLessons := default (totalLessons u) (up_totalLessons updates);
     avgScore := default (avgScore u) (up_avgScore updates);
     lessonDay := default (lessonDay u) (up_lessonDay updates);
     lessonTime := lessonTime u;
     notificationEnabled := notificationEnabled u |}.

(** [db.collection('users').doc(userId).update(updates)] is rejected when
    the document does not exist. *)
Definition update_user (userId : string) (updates : UserUpdates) : Async unit :=
  firestore_request (UpdateUser userId)
    (fun w =>
       match db_users w !! userId with
       | Some u =>
           (Return tt,
            with_users (<[userId := apply_updates updates u]> (db_users w)) w)
       | None => (Throw NotFound, w)
       end).

Definition updateUserStats (userId : string) (updates : UserUpdates) (w : World)
  : Result unit * World :=
  match retryWithBackoff (update_user userId updates)
          default_maxRetries default_delays w with
  | (Return _, w1) => (Success tt, w1)
  | (Throw _, w1) =>
      (Failure (Message "Failed to update user statistics") ERR_DATABASE_ERROR, w1)
  end.

(** ** assessmentService.js: calculateStreak *)

Definition MS_PER_DAY : Z := (1000 * 60 * 60 * 24)%Z.

(** [date.toISOString().split('T')[0]]: the UTC calendar date of an
    instant.  The text [YYYY-MM-DD] is kept as the number of the day since
    1970-01-01.  This is the source for the instants of the years 0000 to
    9999 only: there the texts and these numbers correspond one to one and
    in the same order.  Outside these years [toISOString] writes the year
    with a sign and six digits, which [sort()] orders otherwise, and beyond
    8.64e15 ms it throws; a statement that depends on the order of the
    dates carries the range as a hypothesis. *)
Definition date_string (ms : Z) : Z := (ms / MS_PER_DAY)%Z.

(** [new Date(dateStr)]: midnight UTC of that day. *)
Definition date_of_string (day : Z) : Z := (day * MS_PER_DAY)%Z.

(** [uniqueDates.add(dateStr)]: a [Set] keeps the first insertion. *)
Definition set_add (x : Z) (s : list Z) : list Z :=
  if existsb (Z.eqb x) s then s else s ++ [x].

Fixpoint insert_sorted (x : Z) (l : list Z) : list Z :=
  match l with
  | [] => [x]
  | y :: l' => if (x <=? y)%Z then x :: l else y :: insert_sorted x l'
  end.

(** [Array.prototype.sort()] on date texts: the order of the code units,
    which for the years 0000 to 9999 is the order of the days. *)
Definition array_sort (l : list Z) : list Z := fold_right insert_sorted [] l.

(** The [for] loop over [sortedDates], from index [i] on. *)
Fixpoint streak_loop (sortedDates : list Z) (streak : Z) : Z :=
  match sortedDates with
  | currentDate :: ((nextDate :: _) as more) =>
      let diffTime := (date_of_string currentDate - date_of_string nextDate)%Z in
      let diffDays := (diffTime / MS_PER_DAY)%Z in
      if (diffDays =? 1)%Z then streak_loop more (streak + 1)%Z else streak
  | _ => streak
  end.

Definition unique_dates (timestamps : list Z) (newAssessmentDate : Z) : list Z :=
  set_add (date_string newAssessmentDate)
    (fold_left (fun s t => set_add (date_string t) s) timestamps []).

Definition streak_of (timestamps : list Z) (newAssessmentDate : Z) : Z :=
  let sortedDates := rev (array_sort (unique_dates timestamps newAssessmentDate)) in
  streak_loop sortedDates 1%Z.

Definition calculateStreak (userId : string) (newAssessmentDate : Z) (w : World)
  : Z * World :=
  match getUserAssessments userId 100 w with
  | (Success assessments, w1) =>
      if length assessments =? 0 then (1%Z, w1)
      else (streak_of (map doc_timestamp assessments) newAssessmentDate, w1)
  | (Failure _ _, w1) => (1%Z, w1)
  end.

(** ** openaiService.js *)

Definition retryOnce {A} (fn : Async A) (delay : Z) : Async A :=
  fun w =>
    match fn w with
    | (Return a, w1) => (Return a, w1)
    | (Throw _, w1) => fn (sleep (Some delay) w1)
    end.

(** One request to the speech-to-text API. *)
Definition whisper_request (language : string) : Async Text :=
  fun w =>
    let w1 :=
      log_event (Transcription language)
        {| db_assessments := db_assessments w; db_users := db_users w;
           fs_requests := fs_requests w; stt_calls := S (stt_calls w);
           chat_calls := chat_calls w; clock_reads := clock_reads w;
           trace := trace w |} in
    match whisper_reply env (stt_calls w) with
    | Some text => (Return text, w1)
    | None => (Throw ServiceError, w1)
    end.

(** [languageMap[language] || 'en'], for a [language] that names no member
    of [Object.prototype]: [assessVoice] calls with one of the four codes
    of its schema.  For a name such as [constructor] the source would hand
    the inherited member on, where the model writes ['en']. *)
Definition whisperLanguage (language : string) : string :=
  if supported_language language then language else "en".

Definition transcribeAudio (audioBuffer : list Byte.byte) (language : string)
  (w : World) : Result Text * World :=
  if length audioBuffer =? 0
  then (Failure (Message "Audio buffer is empty") ERR_INVALID_INPUT, w)
  else
    match retryOnce (whisper_request (whisperLanguage language)) 1000 w with
    | (Return text, w1) => (Success text, w1)
    | (Throw _, w1) =>
        (Failure (Message "Audio transcription failed") ERR_TRANSCRIPTION_FAILED,
         w1)
    end.

Record LessonWord : Type := {
  word : Text;
  translation : Text;
  example : Text
}.

(** [languageNames[code] || code], for a [code] that names no member of
    [Object.prototype]; for a name such as [constructor] the source writes
    the text of the inherited member into the prompt, where the model
    writes the code. *)
Definition languageName (code : string) : Text :=
  if String.eqb code "en" then txt "English"
  else if String.eqb code "es" then txt "Spanish"
  else if String.eqb code "fr" then txt "French"
  else if String.eqb code "de" then txt "German"
  else if String.eqb code "he" then txt "Hebrew"
  else txt code.

(** [Array.prototype.join] *)
Fixpoint join (sep : Text) (l : list Text) : Text :=
  match l with
  | [] => []
  | [x] => x
  | x :: l' => x ++ sep ++ join sep l'
  end.

Definition lines (l : list Text) : Text := join [LF] l.

Definition grading_prompt (transcript : Text)
  (targetLanguage nativeLanguage : string) (lessonWords : list LessonWord)
  (expectedAnswer : Text) : Text :=
  let wordsString := join (txt ", ") (map word lessonWords) in
  lines
    [ txt "You are an expert teacher for " ++ languageName nativeLanguage
        ++ txt " speakers learning " ++ languageName targetLanguage ++ txt ".";
      txt "Grade this beginner-level response:";
      [];
      txt "TRANSCRIPT: " ++ transcript;
      txt "LESSON WORDS: " ++ wordsString;
      txt "EXPECTED: " ++ expectedAnswer;
      [];
      txt "Score 0-100 using rubric:";
      txt "- Pronunciation: 25 points";
      txt "- Grammar: 25 points";
      txt "- Vocabulary: 20 points";
      txt "- Fluency: 20 points";
      txt "- Comprehension: 10 points";
      [];
      txt "RESPOND ONLY with:";
      txt "SCORE: X/100";
      txt "FEEDBACK: [1-2 sentences of actionable advice]";
      txt "STRENGTHS: [comma-separated list]";
      txt "WEAK_AREAS: [comma-separated list]" ].

(** One request to the chat-completion API; the answer is the content of
    the first choice. *)
Definition chat_request (prompt : Text) : Async JsValue :=
  fun w =>
    let w1 :=
      log_event (ChatCompletion prompt)
        {| db_assessments := db_assessments w; db_users := db_users w;
           fs_requests := fs_requests w; stt_calls := stt_calls w;
           chat_calls := S (chat_calls w); clock_reads := clock_reads w;
           trace := trace w |} in
    match chat_reply env (chat_calls w) with
    | Some content => (Return content, w1)
    | None => (Throw ServiceError, w1)
    end.

Definition gradeTranscript (transcript : Text)
  (targetLanguage nativeLanguage : string) (lessonWords : list LessonWord)
  (expectedAnswer : Text) (w : World) : Result JsValue * World :=
  let prompt :=
    grading_prompt transcript targetLanguage nativeLanguage lessonWords
      expectedAnswer in
  match retryOnce (chat_request prompt) 1000 w with
  | (Return llmResponse, w1) => (Success llmResponse, w1)
  | (Throw _, w1) => (Failure (Message "Grading failed") ERR_GRADING_FAILED, w1)
  end.

(** ** assessmentService.js: assessVoice *)

Record AssessmentParams : Type := {
  p_userId : string;
  p_lessonDay : Z;
  p_targetLanguage : string;
  p_audioBuffer : list Byte.byte;
  p_lessonWords : list LessonWord;
  p_expectedAnswer : Text;
  p_nativeLanguage : option string
}.

Definition valid_word (w : LessonWord) : bool :=
  nonempty (word w) && nonempty (translation w) && nonempty (example w).

Definition params_checks (p : AssessmentParams) : list (string * bool) :=
  [ ("userId", nonempty_string (p_userId p));
    ("lessonDay", (1 <=? p_lessonDay p)%Z && safe_integer (p_lessonDay p));
    ("targetLanguage", supported_language (p_targetLanguage p));
    ("lessonWords",
      forallb valid_word (p_lessonWords p) && (1 <=? length (p_lessonWords p)));
    ("expectedAnswer", nonempty (p_expectedAnswer p));
    ("nativeLanguage", opt_check nonempty_string (p_nativeLanguage p)) ].

(** [validate(params, assessmentParamsSchema)]: [Joi.binary()] accepts a
    buffer of any length. *)
Definition validate_params (p : AssessmentParams)
  : list string + AssessmentParams :=
  match failed_keys (params_checks p) with
  | [] =>
      inr {| p_userId := p_userId p;
             p_lessonDay := p_lessonDay p;
             p_targetLanguage := p_targetLanguage p;
             p_audioBuffer := p_audioBuffer p;
             p_lessonWords := p_lessonWords p;
             p_expectedAnswer := p_expectedAnswer p;
             p_nativeLanguage := Some (default "he" (p_nativeLanguage p)) |}
  | keys => inl keys
  end.

Record AssessmentOutcome : Type := {
  assessmentId : string;
  o_score : JsInt;
  o_transcript : Text;
  o_feedback : Text;
  o_strengths : list Text;
  o_weakAreas : list Text
}.

(** [allAssessments.reduce((sum, a) => sum + a.score, 0) / allAssessments.length];
    0 / 0 is [NaN].  The scores are integers: the double JavaScript computes
    is the one nearest to this fraction. *)
Definition average_score (allAssessments : list AssessmentDoc) : JsNum :=
  let sum := fold_left (fun sum a => (sum + doc_score a)%Z) allAssessments 0%Z in
  if length allAssessments =? 0 then NumNaN
  else Num (inject_Z sum / inject_Z (Z.of_nat (length allAssessments))).

(** [Math.round(x * 10) / 10]; [Math.round] is the floor of [x + 1/2].
    For the mean of integer scores ten times the mean is a half-integer or
    further than 1/(2 n) from one, so that the rounding of the double falls
    on the same tenth as the rounding of the fraction. *)
Definition round_tenth (x : JsNum) : JsNum :=
  match x with
  | NumNaN => NumNaN
  | Num q => Num (inject_Z (Qfloor (q * 10 + (1 # 2))) / 10)
  end.

(** Step 5 of [assessVoice]: the statistics of the user. *)
Definition update_statistics (userId : string) (w : World) : World :=
  match getUserAssessments userId default_limit w with
  | (Success allAssessments, w1) =>
      let avgScore := average_score allAssessments in
      let (now, w2) := new_Date w1 in
      let (streak, w3) := calculateStreak userId now w2 in
      snd (updateUserStats userId
             {| up_avgScore := Some (round_tenth avgScore);
                up_streak := Some streak;
                up_lessonDay := None;
                up_totalLessons := None;
                up_targetLanguage := None |} w3)
  | (Failure _ _, w1) => w1
  end.

(** Step 4: the record handed to [storeAssessment]. *)
Definition assessment_data (validatedParams : AssessmentParams)
  (transcript : Text) (graded : GradedResult) (timestamp : Z) : AssessmentData :=
  {| a_userId := p_userId validatedParams;
     a_lessonDay := p_lessonDay validatedParams;
     a_targetLanguage := p_targetLanguage validatedParams;
     a_score := score graded;
     a_transcript := transcript;
     a_expectedAnswer := p_expectedAnswer validatedParams;
     a_feedback := feedback graded;
     a_strengths := strengths graded;
     a_weakAreas := weakAreas graded;
     a_timestamp := Some timestamp |}.

(** The [data] of the successful response. *)
Definition outcome (assessmentId : string) (transcript : Text)
  (graded : GradedResult) : AssessmentOutcome :=
  {| assessmentId := assessmentId;
     o_score := score graded;
     o_transcript := transcript;
     o_feedback := feedback graded;
     o_strengths := strengths graded;
     o_weakAreas := weakAreas graded |}.

(** The services called catch what they throw and the parser cannot
    throw, so that the [catch] block of [assessVoice] is never entered. *)
Definition assessVoice (params : AssessmentParams) (w : World)
  : Result AssessmentOutcome * World :=
  match validate_params params with
  | inl keys => (Failure (JoiMessage keys) ERR_INVALID_INPUT, w)
  | inr validatedParams =>
      match transcribeAudio (p_audioBuffer validatedParams)
              (p_targetLanguage validatedParams) w with
      | (Failure error code, w1) => (Failure error code, w1)
      | (Success transcript, w1) =>
          match gradeTranscript transcript
                  (p_targetLanguage validatedParams)
                  (default "he" (p_nativeLanguage validatedParams))
                  (p_lessonWords validatedParams)
                  (p_expectedAnswer validatedParams) w1 with
          | (Failure error code, w2) => (Failure error code, w2)
          | (Success llmResponse, w2) =>
              let graded := parseGradingResponse llmResponse in
              let (timestamp, w3) := new_Date w2 in
              let assessmentData :=
                assessment_data validatedParams transcript graded timestamp in
              match storeAssessment assessmentData w3 with
              | (Failure error code, w4) => (Failure error code, w4)
              | (Success assessmentId, w4) =>
                  let w5 := update_statistics (p_userId validatedParams) w4 in
                  (Success (outcome assessmentId transcript graded), w5)
              end
          end
      end
  end.

End Services.

(** ** lessonService.js *)

Record Lesson : Type := {
  title : Text;
  words : option (list LessonWord);
  quizPrompt : Text
}.

Record Language : Type := {
  lang_name : Text;
  lang_flag : Text;
  lang_nativeLanguage : string;
  lessons : Z -> option Lesson
}.

(** What [languages[languageCode]] evaluates to: nothing, an entry of the
    table, or a member every object inherits ([constructor], [toString],
    ...), which is truthy and has no [lessons]. *)
Inductive Property : Type :=
| Undefined
| Own (language : Language)
| Inherited.

Record LessonData : Type := {
  ld_title : Text;
  ld_words : list LessonWord;
  ld_quizPrompt : Text;
  ld_languageName : Text;
  ld_languageFlag : Text;
  ld_nativeLanguage : string
}.

Section Lessons.

(** The table of config/languages.js. *)
Variable languages : string -> Property.

Definition getLesson (languageCode : string) (lessonDay : Z) : Result LessonData :=
  match languages languageCode with
  | Undefined =>
      Failure (LanguageNotSupported languageCode) ERR_INVALID_INPUT
  | Inherited =>
      (* reading [lessonDay] of the missing [lessons] throws: the catch block *)
      Failure (Message "Failed to retrieve lesson") ERR_LESSON_NOT_FOUND
  | Own language =>
      match lessons language lessonDay with
      | None =>
          Failure (LessonNotAvailable lessonDay (lang_name language))
            ERR_LESSON_NOT_FOUND
      | Some lesson =>
          match words lesson with
          | Some ws =>
              if length ws =? 5
              then Success {| ld_title := title lesson;
                              ld_words := ws;
                              ld_quizPrompt := quizPrompt lesson;
                              ld_languageName := lang_name language;
                              ld_languageFlag := lang_flag language;
                              ld_nativeLanguage := lang_nativeLanguage language |}
              else Failure (Message "Lesson content is malformed")
                     ERR_LESSON_NOT_FOUND
          | None =>
              Failure (Message "Lesson content is malformed") ERR_LESSON_NOT_FOUND
          end
      end
  end.

End Lessons.

(** * Vocabulary of the properties *)

(** ** Occurrences of a label *)

(** Rest of [s] after the first occurrence of the literal [l]. *)
Fixpoint find_lit (ic : bool) (l s : Text) : option Text :=
  match strip_lit ic l s with
  | Some s' => Some s'
  | None =>
      match s with
      | [] => None
      | _ :: s' => find_lit ic l s'
      end
  end.

(** A pattern that goes through the group on every path. *)
Fixpoint through_group (r : regex) : bool :=
  match r with
  | RGroup _ => true
  | RSeq r1 r2 => through_group r1 || through_group r2
  | RAlt r1 r2 => through_group r1 && through_group r2
  | _ => false
  end.

Definition defined (cap : option Text) : Prop := exists g, cap = Some g.

(** The shape shared by the feedback, strengths and weak-areas patterns:
    blanks, then the shortest non-empty text after which [tail] matches. *)
Definition section_body (tail : regex) : regex :=
  RSeq (RStar CSpace) (RSeq (RGroup (RPlusLazy CDot)) tail).

(** The lookaheads as tests on the text that follows. *)
Definition starts_with (l t : Text) : bool :=
  match strip_lit true l t with Some _ => true | None => false end.

Definition feedback_stop (t : Text) : bool :=
  starts_with [LF] t || starts_with (txt "STRENGTHS:") t
  || starts_with (txt "WEAK_AREAS:") t || (length t =? 0).

Definition strengths_stop (t : Text) : bool :=
  starts_with [LF] t || starts_with (txt "WEAK_AREAS:") t || (length t =? 0).

Definition feedback_tail : regex :=
  RLook (RAlt (RLit [LF])
           (RAlt (RLit (txt "STRENGTHS:")) (RAlt (RLit (txt "WEAK_AREAS:")) REnd))).

Definition strengths_tail : regex :=
  RLook (RAlt (RLit [LF]) (RAlt (RLit (txt "WEAK_AREAS:")) REnd)).

(** *** Blank texts *)

Definition blank (s : Text) : bool := forallb is_space s.

(** *** Single-line sections *)

Definition one_line (s : Text) : bool :=
  forallb (fun c => negb (Ascii.eqb c LF)) s.

(** [lacks l s]: the label [l] occurs nowhere in [s], in any case. *)
Definition lacks (l s : Text) : bool :=
  match find_lit true l s with
  | Some _ => false
  | None => true
  end.

(** A label without line feed cannot run over the end of a line. *)
Definition no_LF (l : Text) : bool :=
  forallb (fun p => negb (char_eqb true p LF)) l.

(** *** The four labelled lines *)

(** The answer format the grading prompt asks for. *)
Definition four_lines (d f s w : Text) : Text :=
  txt "SCORE: " ++ d ++ txt "/100" ++ [LF] ++
  txt "FEEDBACK: " ++ f ++ [LF] ++
  txt "STRENGTHS: " ++ s ++ [LF] ++
  txt "WEAK_AREAS: " ++ w.

(** *** Sections of a response *)

(** The label does not occur in the text, in any case. *)
Definition missing (label : string) (s : Text) : Prop :=
  find_lit true (txt label) s = None.

Definition section_labels : list Text :=
  [txt "SCORE:"; txt "FEEDBACK:"; txt "STRENGTHS:"; txt "WEAK_AREAS:"].

(** The text up to the next of the four labels. *)
Fixpoint until_next_label (s : Text) : Text :=
  match s with
  | [] => []
  | c :: s' =>
      if existsb (fun l => starts_with l s) section_labels then []
      else c :: until_next_label s'
  end.

(** Following the specification: the text after the first occurrence of a
    label, up to the next labelled section or the end of the text. *)
Definition spec_section_text (label : Text) (s : Text) : option Text :=
  option_map until_next_label (find_lit true label s).

(** A response with the four labels and a feedback of two lines. *)
Definition two_line_feedback : Text :=
  lines [ txt "SCORE: 85/100";
          txt "FEEDBACK: Great job!";
          txt "Keep practicing.";
          txt "STRENGTHS: clarity, pace";
          txt "WEAK_AREAS: grammar" ].

(** *** Sections as the parser reads them *)

Fixpoint take_while (p : ascii -> bool) (s : Text) : Text :=
  match s with
  | c :: s' => if p c then c :: take_while p s' else []
  | [] => []
  end.

(** The digits of a score: [after], the text that follows the label, is
    made of blanks, digits and [/100], and more. *)
Definition score_digits (after : Text) : option Text :=
  let t := drop_while is_space after in
  let d := take_while is_digit t in
  if nonempty d && starts_with (txt "/100") (drop_while is_digit t)
  then Some d else None.

(** The digits of the first [SCORE:], in any case, that is followed by
    blanks, digits and [/100]. *)
Fixpoint find_score (s : Text) : option Text :=
  match
    match strip_lit true (txt "SCORE:") s with
    | Some after => score_digits after
    | None => None
    end
  with
  | Some d => Some d
  | None =>
      match s with
      | [] => None
      | _ :: s' => find_score s'
      end
  end.

(** The text up to the first place at which [stop] holds, or to the end. *)
Fixpoint until_stop (stop : Text -> bool) (s : Text) : Text :=
  match s with
  | [] => []
  | c :: s' => if stop s then [] else c :: until_stop stop s'
  end.

(** A line feed, or one of the labels [following], in any case, comes
    next. *)
Definition line_or_label (following : list Text) (t : Text) : bool :=
  starts_with [LF] t || existsb (fun l => starts_with l t) following.

(** The text of a section, [after] being what follows its label: from the
    first character that is not a blank, that character and what comes
    after it up to the next line feed, the next of the labels [following]
    or the end of the text. *)
Definition section_text (following : list Text) (after : Text) : Text :=
  match drop_while is_space after with
  | [] => []
  | c :: t => c :: until_stop (line_or_label following) t
  end.

(** A response on one line, with labels in lower case, text around the
    sections and a first mention of the score without a number. *)
Definition one_line_response : Text :=
  txt "Score: see below. score: 85/100 feedback: Great job! strengths: clarity, pace weak_areas: grammar".

(** ** A table of lessons *)

(** The entry of the table for a language and a day, if there is one. *)
Definition catalog_entry (languages : string -> Property)
  (languageCode : string) (lessonDay : Z) : option Lesson :=
  match languages languageCode with
  | Own language => lessons language lessonDay
  | _ => None
  end.

Definition lesson_word_count (l : Lesson) : nat :=
  match words l with
  | Some ws => length ws
  | None => 0
  end.

Definition result_code {A} (r : Result A) : option Code :=
  match r with
  | Success _ => None
  | Failure _ code => Some code
  end.

Definition demo_word : LessonWord :=
  {| word := txt "hello"; translation := txt "shalom"; example := txt "Hello!" |}.

Definition demo_lesson (n : nat) : Lesson :=
  {| title := txt "Greetings";
     words := Some (repeat demo_word n);
     quizPrompt := txt "Introduce yourself" |}.

(** A table with English only: day 1 is complete, day 2 has three words. *)
Definition demo_languages (code : string) : Property :=
  if String.eqb code "en" then
    Own {| lang_name := txt "English"; lang_flag := txt "GB";
           lang_nativeLanguage := "he";
           lessons := fun day =>
             if (day =? 1)%Z then Some (demo_lesson 5)
             else if (day =? 2)%Z then Some (demo_lesson 3)
             else None |}
  else if String.eqb code "constructor" then Inherited
  else Undefined.

(** ** What a caller observes of a write *)

(** What a caller observes of a write that never gets through. *)
Definition four_requests (op : FsOp) : list Event :=
  [ Firestore op; Sleep (Some 100%Z); Firestore op; Sleep (Some 200%Z);
    Firestore op; Sleep (Some 400%Z); Firestore op ].

(** The world after [k] more requests that left [events] in the trace. *)
Definition after_requests (k : nat) (events : list Event) (w : World) : World :=
  {| db_assessments := db_assessments w; db_users := db_users w;
     fs_requests := k + fs_requests w; stt_calls := stt_calls w;
     chat_calls := chat_calls w; clock_reads := clock_reads w;
     trace := trace w ++ events |}.

Definition is_firestore (e : Event) : bool :=
  match e with
  | Firestore _ => true
  | _ => false
  end.

Definition firestore_attempts (t : list Event) : nat :=
  length (List.filter is_firestore t).

(** The outcome of a write that gave up: the database error, four
    requests with the three delays between them, nothing written. *)
Definition gave_up {A} (out : Result A * World) (w : World) (op : FsOp)
  (text : string) : Prop :=
  fst out = Failure (Message text) ERR_DATABASE_ERROR /\
  trace (snd out) = trace w ++ four_requests op /\
  db_assessments (snd out) = db_assessments w /\
  db_users (snd out) = db_users w.

(** What [n] refused requests in a row leave in the trace, the first of
    them being attempt number [attempt] of a loop with [maxRetries]. *)
Fixpoint refused_requests (op : FsOp) (maxRetries : nat) (delays : list Z)
  (n attempt : nat) : list Event :=
  match n with
  | O => []
  | S n' =>
      Firestore op ::
      (if attempt <? maxRetries then [Sleep (retry_delay delays attempt)] else [])
      ++ refused_requests op maxRetries delays n' (S attempt)
  end.

(** The delays of the pauses in a trace. *)
Fixpoint pauses (t : list Event) : list (option Z) :=
  match t with
  | Sleep ms :: t' => ms :: pauses t'
  | _ :: t' => pauses t'
  | [] => []
  end.

(** The outcome of a write that is given up: the database error after four
    requests with the three delays between them. *)
Definition unavailable {A} (out : Result A * World) (w : World) (op : FsOp)
  (text : string) : Prop :=
  fst out = Failure (Message text) ERR_DATABASE_ERROR /\
  trace (snd out) = trace w ++ four_requests op.

(** The outcome of a write served at attempt [k], counted from 0: a
    success after [k] refused requests, each followed by its delay. *)
Definition served_at {A} (k : nat) (out : Result A * World) (w : World)
  (op : FsOp) : Prop :=
  (exists data, fst out = Success data) /\
  trace (snd out)
  = trace w ++ refused_requests op default_maxRetries default_delays k 0
      ++ [Firestore op].

(** *** A concrete world *)

Definition world0 : World :=
  {| db_assessments := []; db_users := ∅; fs_requests := 0; stt_calls := 0;
     chat_calls := 0; clock_reads := 0; trace := [] |}.

Definition sample_response : Text :=
  four_lines (txt "85") (txt "Great job!") (txt "clarity, pace") (txt "grammar").

(** Collaborators that answer, with Firestore served from request [from]
    on. *)
Definition demo_env (from : nat) : Env :=
  {| firestore_up := fun n => from <=? n;
     whisper_reply := fun _ => Some (txt "hello my name is Dana");
     chat_reply := fun _ => Some (JsString sample_response);
     auto_id := fun n => String (ascii_of_nat (65 + n)) EmptyString;
     clock := fun n => (1000 * Z.of_nat n)%Z |}.

Definition demo_assessment : AssessmentData :=
  {| a_userId := "42"; a_lessonDay := 1; a_targetLanguage := "en";
     a_score := Int 85; a_transcript := txt "hello my name is Dana";
     a_expectedAnswer := txt "Introduce yourself";
     a_feedback := txt "Great job!"; a_strengths := [txt "clarity"];
     a_weakAreas := [txt "grammar"]; a_timestamp := Some 0%Z |}.

Definition demo_user : UserData :=
  {| ud_telegramId := "42"; ud_name := "Dana"; ud_targetLanguage := "en";
     ud_nativeLanguage := None; ud_createdAt := Some 0%Z; ud_streak := None;
     ud_totalLessons := None; ud_avgScore := None; ud_lessonDay := None;
     ud_settings := None |}.

Definition demo_updates : UserUpdates :=
  {| up_avgScore := None; up_streak := Some 3%Z; up_lessonDay := None;
     up_totalLessons := None; up_targetLanguage := None |}.

(** A world whose user 42 has a profile. *)
Definition world_with_user : World :=
  snd (upsertUser (demo_env 0) demo_user world0).

Definition demo_profile : UserDoc :=
  {| telegramId := "42"; name := "Dana"; targetLanguage := "en";
     nativeLanguage := "he"; createdAt := 0; streak := 0; totalLessons := 0;
     avgScore := Num 0; lessonDay := 1; lessonTime := "09:00";
     notificationEnabled := true |}.

Definition params_with_audio (audio : list Byte.byte) : AssessmentParams :=
  {| p_userId := "42"; p_lessonDay := 1; p_targetLanguage := "en";
     p_audioBuffer := audio; p_lessonWords := [demo_word];
     p_expectedAnswer := txt "Introduce yourself"; p_nativeLanguage := None |}.

(** Parameters that fail their schema, with an empty recording. *)
Definition params_without_words : AssessmentParams :=
  {| p_userId := "42"; p_lessonDay := 1; p_targetLanguage := "en";
     p_audioBuffer := []; p_lessonWords := [];
     p_expectedAnswer := txt "Introduce yourself"; p_nativeLanguage := None |}.

Definition deaf_env : Env :=
  {| firestore_up := fun _ => true;
     whisper_reply := fun _ => None;
     chat_reply := fun _ => Some (JsString sample_response);
     auto_id := fun n => String (ascii_of_nat (65 + n)) EmptyString;
     clock := fun n => (1000 * Z.of_nat n)%Z |}.

(** ** The collections *)

Definition same_db (w w' : World) : Prop :=
  db_assessments w' = db_assessments w /\ db_users w' = db_users w.

(** The record of updates of step 5. *)
Definition statistics (avgScore : JsNum) (streak : Z) : UserUpdates :=
  {| up_avgScore := Some avgScore; up_streak := Some streak;
     up_lessonDay := None; up_totalLessons := None; up_targetLanguage := None |}.

(** ** The average *)

Definition user_docs (userId : string) (docs : list AssessmentDoc)
  : list AssessmentDoc :=
  List.filter (fun d => String.eqb (doc_userId d) userId) docs.

(** Following the specification: the arithmetic mean of a list of
    scores. *)
Definition arithmetic_mean (scores : list Z) : Q :=
  inject_Z (fold_right Z.add 0%Z scores) / inject_Z (Z.of_nat (length scores)).

(** A fraction rounded to one decimal place, halves upwards. *)
Definition one_decimal (q : Q) : Q := inject_Z (Qfloor (q * 10 + (1 # 2))) / 10.

(** A world in which user 42 has a profile and two assessments, both with
    score 80. *)
Definition world_two_assessments : World :=
  let store score stamp w :=
    snd (storeAssessment (demo_env 0)
           {| a_userId := "42"; a_lessonDay := 1; a_targetLanguage := "en";
              a_score := Int score; a_transcript := txt "hello";
              a_expectedAnswer := txt "Introduce yourself";
              a_feedback := txt "Good"; a_strengths := []; a_weakAreas := [];
              a_timestamp := Some stamp |} w) in
  store 80%Z 200%Z (store 80%Z 100%Z world_with_user).

(** Firestore served up to request [until] only. *)
Definition failing_env (until : nat) : Env :=
  {| firestore_up := fun n => n <? until;
     whisper_reply := fun _ => Some (txt "hello my name is Dana");
     chat_reply := fun _ => Some (JsString sample_response);
     auto_id := fun n => String (ascii_of_nat (65 + n)) EmptyString;
     clock := fun n => (1000 * Z.of_nat n)%Z |}.

(** ** Dates in order *)

Fixpoint distinct (l : list Z) : Prop :=
  match l with
  | [] => True
  | x :: l' => ~ In x l' /\ distinct l'
  end.

Fixpoint ascending (l : list Z) : Prop :=
  match l with
  | [] => True
  | x :: l' => (forall y, In y l' -> (x < y)%Z) /\ ascending l'
  end.

Fixpoint descending (l : list Z) : Prop :=
  match l with
  | [] => True
  | x :: l' => (forall y, In y l' -> (y < x)%Z) /\ descending l'
  end.

(** An instant of the years 0000 to 9999, from 0000-01-01T00:00:00.000Z to
    9999-12-31T23:59:59.999Z: the range in which [toISOString] writes the
    year with four digits. *)
Definition four_digit_year (ms : Z) : bool :=
  (-62167219200000 <=? ms)%Z && (ms <=? 253402300799999)%Z.

(** The calendar dates the streak is computed from: the date of the new
    assessment and the dates of the assessments that were read. *)
Definition known_date (today : Z) (recent : list AssessmentDoc) (d : Z) : Prop :=
  d = today \/ In d (map (fun a => date_string (doc_timestamp a)) recent).

Definition doc_at (stamp : Z) : AssessmentDoc :=
  {| doc_id := "x"; doc_userId := "42"; doc_lessonDay := 1;
     doc_targetLanguage := "en"; doc_score := 80;
     doc_transcript := txt "hello";
     doc_expectedAnswer := txt "Introduce yourself";
     doc_feedback := txt "Good"; doc_strengths := []; doc_weakAreas := [];
     doc_timestamp := stamp |}.

Definition day (n : Z) : Z := (n * MS_PER_DAY)%Z.

(** One assessment on day 9 and a hundred on day 10. *)
Definition busy_world : World :=
  with_assessments
    (doc_at (day 9) :: map (fun i => doc_at (day 10 + Z.of_nat i)) (seq 0 100))
    world0.

(** One assessment on each of the days 8, 9 and 10. *)
Definition steady_world : World :=
  with_assessments [doc_at (day 8); doc_at (day 9 + 5); doc_at (day 10 + 7)] world0.

(** * Further functions of the bot *)

(** ** firebaseService.js: getUser *)

(** A response object with its [code] as the text the source writes: the
    functions below answer with codes of their own. *)
Inductive Response (A : Type) : Type :=
| Succeeded (data : A)
| Failed (error : ErrorText) (code : string).

Arguments Succeeded {A} data.
Arguments Failed {A} error code.

Definition code_text (c : Code) : string :=
  match c with
  | ERR_INVALID_INPUT => "ERR_INVALID_INPUT"
  | ERR_LESSON_NOT_FOUND => "ERR_LESSON_NOT_FOUND"
  | ERR_TRANSCRIPTION_FAILED => "ERR_TRANSCRIPTION_FAILED"
  | ERR_GRADING_FAILED => "ERR_GRADING_FAILED"
  | ERR_DATABASE_ERROR => "ERR_DATABASE_ERROR"
  end.

Section Profiles.

Variable env : Env.

(** One request [db.collection('users').doc(telegramId).get()]; [None]
    stands for a snapshot whose [exists] is false.  The request is counted
    with the other requests to Firestore; the trace has no entry of its own
    for the read of a profile. *)
Definition get_user (telegramId : string) : Async (option UserDoc) :=
  fun w =>
    let w1 :=
      {| db_assessments := db_assessments w; db_users := db_users w;
         fs_requests := S (fs_requests w); stt_calls := stt_calls w;
         chat_calls := chat_calls w; clock_reads := clock_reads w;
         trace := trace w |} in
    if firestore_up env (fs_requests w) then (Return (db_users w !! telegramId), w1)
    else (Throw ServiceError, w1).

Definition getUser (telegramId : string) (w : World) : Response UserDoc * World :=
  match retryWithBackoff (get_user telegramId) default_maxRetries default_delays w
  with
  | (Return (Some data), w1) => (Succeeded data, w1)
  | (Return None, w1) => (Failed (Message "User not found") "ERR_USER_NOT_FOUND", w1)
  | (Throw _, w1) =>
      (Failed (Message "Failed to retrieve user data") "ERR_DATABASE_ERROR", w1)
  end.

End Profiles.

(** ** config/languages.js

    The table of lessons, which the sources hold at the end of
    src/index.js.  Its texts are kept as the bytes of their UTF-8 encoding;
    the functions hand them on and never look inside. *)

Definition en_lesson_1 : Lesson :=
  {| title := txt "Greetings & Introductions";
     words :=
       Some [
          {| word := txt "hello"; translation := txt "שלום";
             example := txt "Hello, how are you?" |};
          {| word := txt "good morning"; translation := txt "בוקר טוב";
             example := txt "Good morning! Did you sleep well?" |};
          {| word := txt "my name is"; translation := txt "שמי";
             example := txt "My name is David." |};
          {| word := txt "nice to meet you"; translation := txt "נעים להכיר";
             example := txt "Nice to meet you!" |};
          {| word := txt "how are you"; translation := txt "מה שלומך";
             example := txt "How are you today?" |} ];
     quizPrompt := txt "אמור: 'Hello, my name is [השם שלך]. Nice to meet you!'" |}.

Definition en_lesson_2 : Lesson :=
  {| title := txt "Common Phrases";
     words :=
       Some [
          {| word := txt "thank you"; translation := txt "תודה";
             example := txt "Thank you very much!" |};
          {| word := txt "please"; translation := txt "בבקשה";
             example := txt "Please help me." |};
          {| word := txt "excuse me"; translation := txt "סליחה";
             example := txt "Excuse me, where is the bathroom?" |};
          {| word := txt "I am sorry"; translation := txt "אני מצטער";
             example := txt "I am sorry for being late." |};
          {| word := txt "you are welcome"; translation := txt "על לא דבר";
             example := txt "You are welcome!" |} ];
     quizPrompt := txt "אמור: 'Excuse me, please. Thank you!'" |}.

Definition es_lesson_1 : Lesson :=
  {| title := txt "Saludos y Presentaciones";
     words :=
       Some [
          {| word := txt "hola"; translation := txt "שלום";
             example := txt "¡Hola! ¿Cómo estás?" |};
          {| word := txt "buenos días"; translation := txt "בוקר טוב";
             example := txt "¡Buenos días! ¿Dormiste bien?" |};
          {| word := txt "me llamo"; translation := txt "שמי";
             example := txt "Me llamo David." |};
          {| word := txt "mucho gusto"; translation := txt "נעים להכיר";
             example := txt "¡Mucho gusto!" |};
          {| word := txt "cómo estás"; translation := txt "מה שלומך";
             example := txt "¿Cómo estás hoy?" |} ];
     quizPrompt := txt "Di: 'Hola, me llamo [tu nombre]. ¡Mucho gusto!'" |}.

Definition es_lesson_2 : Lesson :=
  {| title := txt "Frases Comunes";
     words :=
       Some [
          {| word := txt "gracias"; translation := txt "תודה";
             example := txt "¡Muchas gracias!" |};
          {| word := txt "por favor"; translation := txt "בבקשה";
             example := txt "Por favor, ayúdame." |};
          {| word := txt "perdón"; translation := txt "סליחה";
             example := txt "Perdón, ¿dónde está el baño?" |};
          {| word := txt "lo siento"; translation := txt "אני מצטער";
             example := txt "Lo siento por llegar tarde." |};
          {| word := txt "de nada"; translation := txt "על לא דבר";
             example := txt "¡De nada!" |} ];
     quizPrompt := txt "Di: 'Perdón, por favor. ¡Gracias!'" |}.

Definition fr_lesson_1 : Lesson :=
  {| title := txt "Salutations et Présentations";
     words :=
       Some [
          {| word := txt "bonjour"; translation := txt "שלום";
             example := txt "Bonjour! Comment allez-vous?" |};
          {| word := txt "bonne journée"; translation := txt "יום טוב";
             example := txt "Bonne journée!" |};
          {| word := txt "je m'appelle"; translation := txt "שמי";
             example := txt "Je m'appelle David." |};
          {| word := txt "enchanté"; translation := txt "נעים להכיר";
             example := txt "Enchanté!" |};
          {| word := txt "comment ça va"; translation := txt "מה שלומך";
             example := txt "Comment ça va aujourd'hui?" |} ];
     quizPrompt := txt "Dites: 'Bonjour, je m'appelle [votre nom]. Enchanté!'" |}.

Definition de_lesson_1 : Lesson :=
  {| title := txt "Begrüßungen und Vorstellungen";
     words :=
       Some [
          {| word := txt "hallo"; translation := txt "שלום";
             example := txt "Hallo! Wie geht es dir?" |};
          {| word := txt "guten Morgen"; translation := txt "בוקר טוב";
             example := txt "Guten Morgen! Hast du gut geschlafen?" |};
          {| word := txt "ich heiße"; translation := txt "שמי";
             example := txt "Ich heiße David." |};
          {| word := txt "freut mich"; translation := txt "נעים להכיר";
             example := txt "Freut mich!" |};
          {| word := txt "wie geht es dir"; translation := txt "מה שלומך";
             example := txt "Wie geht es dir heute?" |} ];
     quizPrompt := txt "Sagen Sie: 'Hallo, ich heiße [Ihr Name]. Freut mich!'" |}.

Definition en_language : Language :=
  {| lang_name := txt "English"; lang_flag := txt "🇺🇸";
     lang_nativeLanguage := "he";
     lessons := fun day =>
         if (day =? 1)%Z then Some en_lesson_1 else
         if (day =? 2)%Z then Some en_lesson_2 else
         None |}.

Definition es_language : Language :=
  {| lang_name := txt "Spanish"; lang_flag := txt "🇪🇸";
     lang_nativeLanguage := "he";
     lessons := fun day =>
         if (day =? 1)%Z then Some es_lesson_1 else
         if (day =? 2)%Z then Some es_lesson_2 else
         None |}.

Definition fr_language : Language :=
  {| lang_name := txt "French"; lang_flag := txt "🇫🇷";
     lang_nativeLanguage := "he";
     lessons := fun day =>
         if (day =? 1)%Z then Some fr_lesson_1 else
         None |}.

Definition de_language : Language :=
  {| lang_name := txt "German"; lang_flag := txt "🇩🇪";
     lang_nativeLanguage := "he";
     lessons := fun day =>
         if (day =? 1)%Z then Some de_lesson_1 else
         None |}.

Definition languages_table : list (string * Language) :=
  [ ("en", en_language); ("es", es_language); ("fr", fr_language);
    ("de", de_language) ].

(** The names an object literal inherits from [Object.prototype]. *)
Definition object_prototype_names : list string :=
  [ "constructor"; "__defineGetter__"; "__defineSetter__"; "hasOwnProperty";
    "__lookupGetter__"; "__lookupSetter__"; "isPrototypeOf";
    "propertyIsEnumerable"; "toString"; "valueOf"; "__proto__";
    "toLocaleString" ].

(** [languages[languageCode]] *)
Definition languages (languageCode : string) : Property :=
  match List.find (fun entry => String.eqb (fst entry) languageCode) languages_table
  with
  | Some (_, language) => Own language
  | None =>
      if existsb (String.eqb languageCode) object_prototype_names
      then Inherited else Undefined
  end.

(** ** lessonService.js: getAvailableLanguages *)

Record LanguageChoice : Type := {
  lc_code : string;
  lc_name : Text;
  lc_flag : Text
}.

(** [Object.keys(languages).map(...)]: the keys of the table are no array
    indices, so that they come in the order in which the table is written. *)
Definition getAvailableLanguages : list LanguageChoice :=
  map (fun entry =>
         {| lc_code := fst entry;
            lc_name := lang_name (snd entry);
            lc_flag := lang_flag (snd entry) |})
      languages_table.

(** ** lessonService.js: formatLesson *)

(** A number in a template literal: an integer below 10^21 in absolute
    value is written with its decimal digits. *)
Definition number_text (n : Z) : Text := txt (NilZero.string_of_int (Z.to_int n)).

(** The lines of one word, [index] counted from 0. *)
Definition format_word (index : nat) (item : LessonWord) : Text :=
  number_text (Z.of_nat index + 1) ++ txt ". " ++ word item ++ txt " ("
    ++ translation item ++ txt ")" ++ [LF]
    ++ txt "   Example: " ++ example item ++ [LF; LF].

Fixpoint format_words (index : nat) (items : list LessonWord) : Text :=
  match items with
  | [] => []
  | item :: rest => format_word index item ++ format_words (S index) rest
  end.

Definition formatLesson (lesson : LessonData) (lessonDay : Z)
  (languageFlag : option Text) : Text :=
  default (txt "📚") languageFlag ++ txt " Day " ++ number_text lessonDay
    ++ txt " - " ++ ld_title lesson ++ [LF; LF]
    ++ format_words 0 (ld_words lesson)
    ++ txt "📝 Practice: " ++ ld_quizPrompt lesson.

(** ** reportService.js *)

(** An object used as a dictionary from texts to numbers: its own
    properties in the order of their creation. *)
Abbreviation Counts := (list (Text * Z)).

(** An array index: the decimal numeral, without leading zeros, of an
    integer below 2^32 - 1. *)
Definition is_array_index (k : Text) : bool :=
  match k with
  | [] => false
  | c :: rest =>
      forallb is_digit k && (negb (Ascii.eqb c "0") || (length rest =? 0))
      && (digits_value 0 k <? 4294967295)%Z
  end.

Fixpoint insert_index (e : Text * Z) (l : Counts) : Counts :=
  match l with
  | [] => [e]
  | x :: l' =>
      if (digits_value 0 (fst e) <? digits_value 0 (fst x))%Z then e :: l
      else x :: insert_index e l'
  end.

(** [Object.entries(o)]: the array indices in ascending order, then the
    other keys in the order of their creation. *)
Definition object_entries (o : Counts) : Counts :=
  fold_right insert_index [] (List.filter (fun e => is_array_index (fst e)) o)
  ++ List.filter (fun e => negb (is_array_index (fst e))) o.

(** [Object.keys(o)] *)
Definition object_keys (o : Counts) : list Text := map fst (object_entries o).

(** [weakAreaCounts[area] = (weakAreaCounts[area] || 0) + 1] on an object
    that has [area] among its own properties or nowhere. *)
Fixpoint bump (area : Text) (counts : Counts) : Counts :=
  match counts with
  | [] => [(area, 1%Z)]
  | (k, n) :: rest =>
      if bool_decide (k = area) then (k, (n + 1)%Z) :: rest
      else (k, n) :: bump area rest
  end.

(** A text that names a member of [Object.prototype]. *)
Definition inherited_name (k : Text) : bool :=
  existsb (fun n => bool_decide (txt n = k)) object_prototype_names.

(** [Array.prototype.sort((a, b) => b[1] - a[1])]: the sort is stable. *)
Fixpoint insert_by_count (e : Text * Z) (l : Counts) : Counts :=
  match l with
  | [] => [e]
  | x :: l' =>
      if (snd x <=? snd e)%Z then e :: l else x :: insert_by_count e l'
  end.

Definition sort_by_count (l : Counts) : Counts := fold_right insert_by_count [] l.

(** The object returned, with its properties in the order in which
    [Object.fromEntries] creates them.  A weak area that names a member of
    [Object.prototype] reads that member in place of a count; the order of
    the sort is then left to the implementation, and the model gives no
    result. *)
Definition aggregateWeakAreas (assessments : list AssessmentDoc) : option Counts :=
  let areas := concat (map doc_weakAreas assessments) in
  if existsb inherited_name areas then None
  else
    let weakAreaCounts := fold_left (fun counts area => bump area counts) areas [] in
    let sorted := firstn 5 (sort_by_count (object_entries weakAreaCounts)) in
    Some sorted.

(** [String.prototype.toLowerCase] on code units below 256: the letters
    A-Z and the capital letters of Latin-1. *)
Definition to_lower (c : ascii) : ascii :=
  let n := nat_of_ascii c in
  if ((65 <=? n) && (n <=? 90))
     || ((192 <=? n) && (n <=? 222) && negb (n =? 215))
  then ascii_of_nat (n + 32) else c.

Definition toLowerCase (s : Text) : Text := map to_lower s.

(** [s.includes(key)] *)
Definition includes (s key : Text) : bool :=
  match find_lit false key s with
  | Some _ => true
  | None => false
  end.

Definition areaRecommendations : list (Text * Text) :=
  [ (txt "pronunciation", txt "Consider adding pronunciation-focused exercises");
    (txt "grammar", txt "Add more grammar drills and explanations");
    (txt "vocabulary", txt "Expand vocabulary exercises with more context");
    (txt "fluency", txt "Include more conversational practice sessions");
    (txt "comprehension", txt "Add listening comprehension exercises") ].

(** The body of the [forEach]: the recommendation of the first key of
    [areaRecommendations] that the area mentions. *)
Definition recommend (area : Text) : list Text :=
  let lowerArea := toLowerCase area in
  match List.find (fun entry => includes lowerArea (fst entry)) areaRecommendations
  with
  | Some (_, recommendation) => [recommendation]
  | None => []
  end.

Definition generateRecommendations (weakAreas : Counts) : list Text :=
  let recommendations := flat_map recommend (object_keys weakAreas) in
  if length recommendations =? 0
  then [txt "Continue with current curriculum"]
  else recommendations.

(** ** reportService.js: calculateConsistency *)

Record Consistency : Type := {
  daysActive : nat;
  c_streak : Z
}.

Section Reports.

Variable env : Env.

(** The dates of the assessments that are not older than [cutoffDate]. *)
Definition dates_since (cutoffDate : Z) (assessments : list AssessmentDoc)
  : list Z :=
  fold_left
    (fun uniqueDates assessment =>
       if (cutoffDate <=? doc_timestamp assessment)%Z
       then set_add (date_string (doc_timestamp assessment)) uniqueDates
       else uniqueDates)
    assessments [].

(** [userResult.data.streak || 0] is the streak: 0 is the one falsy
    integer. *)
Definition calculateConsistency (userId : string) (days : Z) (w : World)
  : Consistency * World :=
  match getUserAssessments env userId 100 w with
  | (Success assessments, w1) =>
      if length assessments =? 0
      then ({| daysActive := 0; c_streak := 0 |}, w1)
      else
        let (now, w2) := new_Date env w1 in
        let cutoffDate := (now - days * 24 * 60 * 60 * 1000)%Z in
        let uniqueDates := dates_since cutoffDate assessments in
        let (userResult, w3) := getUser env userId w2 in
        let streak :=
          match userResult with
          | Succeeded data => streak data
          | Failed _ _ => 0%Z
          end in
        ({| daysActive := length uniqueDates; c_streak := streak |}, w3)
  | (Failure _ _, w1) => ({| daysActive := 0; c_streak := 0 |}, w1)
  end.

End Reports.

(** ** mcp/assessmentMcp.js *)

(** The arguments of a call of the tool [assess_voice], each present with
    the type its schema gives it, or absent. *)
Record ToolArguments : Type := {
  t_userId : option string;
  t_lessonDay : option Z;
  t_targetLanguage : option string;
  t_audioUrl : option string;
  t_lessonWords : option (list LessonWord);
  t_expectedAnswer : option Text;
  t_nativeLanguage : option string
}.

(** The successful answer of the tool. *)
Record ToolAnswer : Type := {
  ta_score : JsInt;
  ta_feedback : Text;
  ta_transcript : Text;
  ta_strengths : list Text;
  ta_weakAreas : list Text;
  ta_assessmentId : string
}.

(** [x || fallback] for a string: absent and empty are falsy. *)
Definition string_or (x : option string) (fallback : string) : string :=
  match x with
  | Some s => if String.eqb s "" then fallback else s
  | None => fallback
  end.

Definition text_or (x : option Text) (fallback : Text) : Text :=
  match x with
  | Some (c :: s) => c :: s
  | _ => fallback
  end.

Section Mcp.

Variable env : Env.

(** [axios.get(url, { responseType: 'arraybuffer' })]: the body of the
    answer, or nothing when the request throws. *)
Variable download : string -> option (list Byte.byte).

(** A call without arguments throws when [params.userId] is read for the
    log: the [catch] block.  An absent argument, an empty string and the
    number 0 are falsy. *)
Definition handleAssessVoice (params : option ToolArguments) (w : World)
  : Response ToolAnswer * World :=
  match params with
  | None =>
      (Failed (Message "Assessment processing failed") "ERR_GRADING_FAILED", w)
  | Some params =>
      match t_userId params, t_lessonDay params, t_targetLanguage params,
            t_audioUrl params with
      | Some userId, Some lessonDay, Some targetLanguage, Some audioUrl =>
          if String.eqb userId "" || (lessonDay =? 0)%Z
             || String.eqb targetLanguage "" || String.eqb audioUrl ""
          then
            (Failed (Message "Missing required parameters") "ERR_INVALID_INPUT", w)
          else
            match download audioUrl with
            | None =>
                (Failed (Message "Failed to download audio file")
                   "ERR_AUDIO_DOWNLOAD", w)
            | Some audioBuffer =>
                let assessmentParams :=
                  {| p_userId := userId;
                     p_lessonDay := lessonDay;
                     p_targetLanguage := targetLanguage;
                     p_audioBuffer := audioBuffer;
                     p_lessonWords := default [] (t_lessonWords params);
                     p_expectedAnswer :=
                       text_or (t_expectedAnswer params) (txt "Practice speaking");
                     p_nativeLanguage :=
                       Some (string_or (t_nativeLanguage params) "he") |} in
                match assessVoice env assessmentParams w with
                | (Failure error code, w1) => (Failed error (code_text code), w1)
                | (Success data, w1) =>
                    (Succeeded {| ta_score := o_score data;
                                  ta_feedback := o_feedback data;
                                  ta_transcript := o_transcript data;
                                  ta_strengths := o_strengths data;
                                  ta_weakAreas := o_weakAreas data;
                                  ta_assessmentId := assessmentId data |},
                     w1)
                end
            end
      | _, _, _, _ =>
          (Failed (Message "Missing required parameters") "ERR_INVALID_INPUT", w)
      end
  end.

End Mcp.

(** ** The handlers of the bot

    What a handler sends to Telegram: the answer to a callback query, a
    message with its inline keyboard, and the new text of the message the
    handler has sent before.  The calls of the Telegram API are taken to
    succeed. *)

Record Button : Type := {
  b_text : Text;
  b_data : Text
}.

Inductive Outgoing : Type :=
| AnswerCbQuery (text : Text)
| Reply (text : Text) (keyboard : list (list Button))
| EditMessageText (text : Text).

(** What a handler reads of its context: [ctx.from.id.toString()],
    [ctx.from.first_name], [ctx.from.username] and
    [ctx.callbackQuery.data]. *)
Record Context : Type := {
  from_id : string;
  from_first_name : option string;
  from_username : option string;
  callback_data : Text
}.

Section Handlers.

Variable env : Env.

(** *** handlers/startHandler.js *)

Definition handleLanguageSelection (ctx : Context) (languageCode : string)
  (w : World) : list Outgoing * World :=
  let userId := from_id ctx in
  let userName :=
    string_or (from_first_name ctx) (string_or (from_username ctx) "User") in
  let (createdAt, w0) := new_Date env w in
  let userData :=
    {| ud_telegramId := userId;
       ud_name := userName;
       ud_targetLanguage := languageCode;
       ud_nativeLanguage := Some "he";
       ud_createdAt := Some createdAt;
       ud_streak := Some 0%Z;
       ud_totalLessons := Some 0%Z;
       ud_avgScore := Some (Num 0);
       ud_lessonDay := Some 1%Z;
       ud_settings :=
         Some {| sd_lessonTime := Some "09:00";
                 sd_notificationEnabled := Some true |} |} in
  match upsertUser env userData w0 with
  | (Failure _ _, w1) =>
      ([AnswerCbQuery (txt "Failed to save your selection. Please try again.")],
       w1)
  | (Success _, w1) =>
      match getLesson languages languageCode 1 with
      | Failure _ _ =>
          ([ AnswerCbQuery (txt "Language selected!");
             Reply (txt "Great! Your language has been set, but lessons are not yet available.")
               [] ],
           w1)
      | Success lesson =>
          let formattedLesson :=
            formatLesson lesson 1 (Some (ld_languageFlag lesson)) in
          ([ AnswerCbQuery
               (ld_languageFlag lesson ++ txt " " ++ ld_languageName lesson
                  ++ txt " selected!");
             Reply
               (txt "Perfect! You're now learning " ++ ld_languageName lesson
                  ++ txt " " ++ ld_languageFlag lesson ++ [LF; LF]
                  ++ txt "Let's start with your first lesson:")
               [];
             Reply formattedLesson
               [[ {| b_text := txt "✅ Mark Complete";
                     b_data := txt "lesson_complete_1" |} ]] ],
           w1)
      end
  end.

(** *** handlers/settingsHandler.js *)

Definition handleLanguageChangeCallback (ctx : Context) (newLanguageCode : string)
  (w : World) : list Outgoing * World :=
  let userId := from_id ctx in
  match updateUserStats env userId
          {| up_avgScore := None; up_streak := None;
             up_lessonDay := Some 1%Z; up_totalLessons := None;
             up_targetLanguage := Some newLanguageCode |} w with
  | (Failure _ _, w1) =>
      ([AnswerCbQuery (txt "Failed to update language. Please try again.")], w1)
  | (Success _, w1) =>
      ([ AnswerCbQuery (txt "Language updated!");
         Reply
           (txt "✅ Language changed successfully!" ++ [LF; LF]
              ++ txt "Your progress has been reset to Day 1." ++ [LF; LF]
              ++ txt "Use /lesson to start your first lesson.")
           [] ],
       w1)
  end.

(** *** index.js: the action [/^lang_(.+)$/]

    The handler runs when the data of the callback is [lang_] followed by
    one character or more, none of them a line terminator. *)
Definition language_action (ctx : Context) (w : World)
  : option (list Outgoing * World) :=
  match strip_lit false (txt "lang_") (callback_data ctx) with
  | Some (c :: rest) =>
      if forallb (fun a => negb (is_line_terminator a)) (c :: rest)
      then
        let languageCode := string_of_list_ascii (c :: rest) in
        let userId := from_id ctx in
        let (userResult, w1) := getUser env userId w in
        match userResult with
        | Succeeded _ => Some (handleLanguageChangeCallback ctx languageCode w1)
        | Failed _ _ => Some (handleLanguageSelection ctx languageCode w1)
        end
      else None
  | _ => None
  end.

(** *** handlers/lessonHandler.js *)

(** [parseInt(callbackData.split('_')[2], 10)], on a piece that begins
    with a digit and up to [MAX_SAFE_INTEGER]; the handler is registered
    for [/^lesson_complete_(\d+)$/].  On other data the model gives no
    result. *)
Definition completed_day (callbackData : Text) : option Z :=
  match parseInt10 (nth_error (split_on "_" callbackData) 2) with
  | Int lessonDay =>
      if (lessonDay <=? MAX_SAFE_INTEGER)%Z then Some lessonDay else None
  | NaN => None
  end.

Definition handleLessonComplete (ctx : Context) (w : World)
  : option (list Outgoing * World) :=
  let userId := from_id ctx in
  match completed_day (callback_data ctx) with
  | None => None
  | Some lessonDay =>
      Some
        (let (userResult, w1) := getUser env userId w in
         match userResult with
         | Failed _ _ =>
             ([AnswerCbQuery (txt "User data not found. Please use /start first.")],
              w1)
         | Succeeded user =>
             match updateUserStats env userId
                     {| up_avgScore := None; up_streak := None;
                        up_lessonDay := Some (lessonDay + 1)%Z;
                        up_totalLessons := Some (totalLessons user + 1)%Z;
                        up_targetLanguage := None |} w1 with
             | (Failure _ _, w2) =>
                 ([AnswerCbQuery (txt "Failed to save progress. Please try again.")],
                  w2)
             | (Success _, w2) =>
                 let quizPrompt :=
                   match getLesson languages (targetLanguage user) lessonDay with
                   | Success lesson =>
                       text_or (Some (ld_quizPrompt lesson))
                         (txt "Practice speaking using the words from this lesson")
                   | Failure _ _ =>
                       txt "Practice speaking using the words from this lesson"
                   end in
                 ([ AnswerCbQuery (txt "✅ Lesson completed!");
                    Reply
                      (txt "🎉 Great job completing the lesson!" ++ [LF; LF]
                         ++ txt "Now let's practice your speaking:" ++ [LF; LF]
                         ++ txt "🎤 " ++ quizPrompt ++ [LF; LF]
                         ++ txt "Send me a voice message with your answer, and I'll give you feedback!")
                      [] ],
                  w2)
             end
         end)
  end.

End Handlers.

(** ** The commands and the voice message *)

(** *** handlers/startHandler.js: showLanguageSelection *)

Definition language_choice_button (language : LanguageChoice) : Button :=
  {| b_text := lc_flag language ++ txt " " ++ lc_name language;
     b_data := txt "lang_" ++ txt (lc_code language) |}.

(** The rows of the keyboard: two buttons each, the last one alone when
    their number is odd. *)
Fixpoint rows_of_two (buttons : list Button) : list (list Button) :=
  match buttons with
  | first :: second :: rest => [first; second] :: rows_of_two rest
  | [first] => [[first]]
  | [] => []
  end.

Definition showLanguageSelection (userName : string) : Outgoing :=
  Reply
    (txt "Welcome, " ++ txt userName ++ txt "! 🎉" ++ [LF; LF]
       ++ txt "I'm your language learning assistant. Pick your target language to get started:")
    (rows_of_two (map language_choice_button getAvailableLanguages)).

(** *** handlers/settingsHandler.js: handleChangeLanguage *)

Definition handleChangeLanguage (ctx : Context) : list Outgoing :=
  let userName :=
    string_or (from_first_name ctx) (string_or (from_username ctx) "there") in
  [showLanguageSelection userName].

(** *** handlers/assessmentHandler.js *)

Definition QUOTE : ascii := ascii_of_nat 34.

(** A score in a template literal. *)
Definition score_text (score : JsInt) : Text :=
  match score with
  | Int n => number_text n
  | NaN => txt "NaN"
  end.

Definition bullets (items : list Text) : Text :=
  flat_map (fun item => txt "  • " ++ item ++ [LF]) items.

(** An array is truthy: a section is written when its array is not
    empty. *)
Definition formatAssessmentResult (assessment : AssessmentOutcome) : Text :=
  txt "🎯 Assessment Complete!" ++ [LF; LF]
    ++ txt "🎤 What I heard:" ++ [LF] ++ [QUOTE] ++ o_transcript assessment
    ++ [QUOTE] ++ [LF; LF]
    ++ txt "📊 Score: " ++ score_text (o_score assessment) ++ txt "/100" ++ [LF; LF]
    ++ txt "💬 Feedback:" ++ [LF] ++ o_feedback assessment ++ [LF; LF]
    ++ match o_strengths assessment with
       | [] => []
       | strengths => txt "✅ Strengths:" ++ [LF] ++ bullets strengths ++ [LF]
       end
    ++ match o_weakAreas assessment with
       | [] => []
       | weakAreas => txt "⚠️ Areas to improve:" ++ [LF] ++ bullets weakAreas ++ [LF]
       end
    ++ txt "Keep practicing! 🚀" ++ [LF; LF]
    ++ txt "Use /progress to see your stats or /lesson for the next lesson.".

Section Commands.

Variable env : Env.

(** [ctx.telegram.getFileLink(fileId)] and [axios.get] of the link: the
    bytes of the file, or nothing when one of the two throws. *)
Variable download : string -> option (list Byte.byte).

(** [fileId] is [ctx.message.voice.file_id]; the handler is registered
    for the messages that have a voice.  A download that throws ends in
    the [catch] block. *)
Definition handleVoiceMessage (ctx : Context) (fileId : string) (w : World)
  : list Outgoing * World :=
  let userId := from_id ctx in
  let processingMsg := Reply (txt "🎧 Processing your voice message...") [] in
  let (userResult, w1) := getUser env userId w in
  match userResult with
  | Failed _ _ =>
      ([ processingMsg;
         EditMessageText (txt "Please use /start first to select your language.") ],
       w1)
  | Succeeded user =>
      let currentLessonDay :=
        Z.max 1 ((if (lessonDay user =? 0)%Z then 1 else lessonDay user) - 1) in
      match getLesson languages (targetLanguage user) currentLessonDay with
      | Failure _ _ =>
          ([ processingMsg;
             EditMessageText
               (txt "Could not find lesson content. Please try /lesson first.") ],
           w1)
      | Success lesson =>
          match download fileId with
          | None =>
              ([ processingMsg;
                 Reply
                   (txt "❌ Sorry, something went wrong processing your voice message. Please try again.")
                   [] ],
               w1)
          | Some audioBuffer =>
              match assessVoice env
                      {| p_userId := userId;
                         p_lessonDay := currentLessonDay;
                         p_targetLanguage := targetLanguage user;
                         p_audioBuffer := audioBuffer;
                         p_lessonWords := ld_words lesson;
                         p_expectedAnswer := ld_quizPrompt lesson;
                         p_nativeLanguage :=
                           Some (string_or (Some (nativeLanguage user)) "he") |}
                      w1 with
              | (Failure _ _, w2) =>
                  ([ processingMsg;
                     EditMessageText
                       (txt "❌ Assessment temporarily unavailable. Please try again later.") ],
                   w2)
              | (Success data, w2) =>
                  ([ processingMsg; EditMessageText (formatAssessmentResult data) ],
                   w2)
              end
          end
      end
  end.

(** *** handlers/lessonHandler.js: handleLessonCommand *)

(** [user.lessonDay || 1] is the day: 0 is the one falsy integer.  For a
    day beyond [MAX_SAFE_INTEGER] the model gives no result. *)
Definition handleLessonCommand (ctx : Context) (w : World)
  : option (list Outgoing * World) :=
  let userId := from_id ctx in
  let (userResult, w1) := getUser env userId w in
  match userResult with
  | Failed _ _ =>
      Some ([Reply (txt "Please use /start first to select your language.") []], w1)
  | Succeeded user =>
      let currentDay := if (lessonDay user =? 0)%Z then 1%Z else lessonDay user in
      if (Z.abs currentDay <=? MAX_SAFE_INTEGER)%Z
      then
        match getLesson languages (targetLanguage user) currentDay with
        | Failure _ _ =>
            Some ([ Reply
                      (txt "Sorry, lesson " ++ number_text currentDay
                         ++ txt " is not available yet. Stay tuned! 📚")
                      [] ],
                  w1)
        | Success lesson =>
            let formattedLesson :=
              formatLesson lesson currentDay (Some (ld_languageFlag lesson)) in
            Some ([ Reply formattedLesson
                      [[ {| b_text := txt "✅ Mark Complete";
                            b_data :=
                              txt "lesson_complete_" ++ number_text currentDay |} ]] ],
                  w1)
        end
      else None
  end.

End Commands.

(** * Vocabulary of the further properties *)

(** ** Records in the order of a query *)

(** No record is newer than one before it. *)
Fixpoint newest_first (l : list AssessmentDoc) : Prop :=
  match l with
  | [] => True
  | d :: l' =>
      (forall x, In x l' -> (doc_timestamp x <= doc_timestamp d)%Z) /\
      newest_first l'
  end.

(** An assessment of user 42 on day 11. *)
Definition late_assessment : AssessmentData :=
  {| a_userId := "42"; a_lessonDay := 2; a_targetLanguage := "en";
     a_score := Int 90; a_transcript := txt "thank you";
     a_expectedAnswer := txt "Say thank you";
     a_feedback := txt "Well done"; a_strengths := [txt "pace"];
     a_weakAreas := []; a_timestamp := Some (day 11) |}.

(** Two profiles that differ at most in the average and the streak. *)
Definition statistics_apart (u u' : UserDoc) : Prop :=
  telegramId u' = telegramId u /\ name u' = name u /\
  targetLanguage u' = targetLanguage u /\
  nativeLanguage u' = nativeLanguage u /\ createdAt u' = createdAt u /\
  totalLessons u' = totalLessons u /\ lessonDay u' = lessonDay u /\
  lessonTime u' = lessonTime u /\
  notificationEnabled u' = notificationEnabled u.

(** A speech-to-text service that fails once and then answers. *)
Definition stuttering_env : Env :=
  {| firestore_up := fun _ => true;
     whisper_reply := fun n => if n =? 0 then None else Some (txt "thank you");
     chat_reply := fun _ => Some (JsString sample_response);
     auto_id := fun n => String (ascii_of_nat (65 + n)) EmptyString;
     clock := fun n => (1000 * Z.of_nat n)%Z |}.

(** A grading service that never answers, and a speech-to-text service
    that hears nothing. *)
Definition mute_env : Env :=
  {| firestore_up := fun _ => true;
     whisper_reply := fun _ => Some (txt "thank you");
     chat_reply := fun _ => None;
     auto_id := fun n => String (ascii_of_nat (65 + n)) EmptyString;
     clock := fun n => (1000 * Z.of_nat n)%Z |}.

Definition silent_env : Env :=
  {| firestore_up := fun _ => true;
     whisper_reply := fun _ => Some [];
     chat_reply := fun _ => Some (JsString sample_response);
     auto_id := fun n => String (ascii_of_nat (65 + n)) EmptyString;
     clock := fun n => (1000 * Z.of_nat n)%Z |}.

(** ** Items of a list *)

(** An item as the parser returns it: not empty, no comma inside, no blank
    at either end. *)
Definition tidy_item (s : Text) : bool :=
  negb (existsb (Ascii.eqb ",") s) &&
  match s with
  | c :: _ => negb (is_space c)
  | [] => false
  end &&
  match rev s with
  | c :: _ => negb (is_space c)
  | [] => false
  end.

(** The world after [k] requests for a profile, with [pauses] between
    them. *)
Definition after_reads (k : nat) (pauses : list Event) (w : World) : World :=
  {| db_assessments := db_assessments w; db_users := db_users w;
     fs_requests := k + fs_requests w; stt_calls := stt_calls w;
     chat_calls := chat_calls w; clock_reads := clock_reads w;
     trace := trace w ++ pauses |}.

(** The profile [upsertUser] writes for valid data. *)
Definition profile_of (u : UserData) (created : Z) : UserDoc :=
  {| telegramId := ud_telegramId u;
     name := ud_name u;
     targetLanguage := ud_targetLanguage u;
     nativeLanguage := default "he" (ud_nativeLanguage u);
     createdAt := created;
     streak := default 0%Z (ud_streak u);
     totalLessons := default 0%Z (ud_totalLessons u);
     avgScore := default (Num 0) (ud_avgScore u);
     lessonDay := default 1%Z (ud_lessonDay u);
     lessonTime := default "09:00" (ud_settings u ≫= sd_lessonTime);
     notificationEnabled :=
       default true (ud_settings u ≫= sd_notificationEnabled) |}.

(** User 42 after seven lessons. *)
Definition seasoned_world : World :=
  snd (updateUserStats (demo_env 0) "42"
         {| up_avgScore := Some (Num 88); up_streak := Some 7%Z;
            up_lessonDay := Some 8%Z; up_totalLessons := Some 7%Z;
            up_targetLanguage := None |} world_with_user).

(** The pairs of a language and a day that the table has. *)
Definition shipped_lessons : list (string * Z) :=
  [("en", 1); ("en", 2); ("es", 1); ("es", 2); ("fr", 1); ("de", 1)]%Z.

(** A lesson that [assessVoice] takes: five words whose texts are not
    empty, and a prompt that is not empty. *)
Definition assessable (d : LessonData) : bool :=
  (length (ld_words d) =? 5) && forallb valid_word (ld_words d)
  && nonempty (ld_quizPrompt d).

(** *** Counting *)

(** The number of times an area is named. *)
Definition occurrences (a : Text) (areas : list Text) : Z :=
  Z.of_nat (length (List.filter (fun x => bool_decide (x = a)) areas)).

(** The count an object holds for a key, 0 when it has none. *)
Definition count_of (a : Text) (o : Counts) : Z :=
  match List.find (fun e => bool_decide (fst e = a)) o with
  | Some e => snd e
  | None => 0%Z
  end.

(** Counts that do not grow along the list. *)
Fixpoint falling (l : Counts) : Prop :=
  match l with
  | [] => True
  | e :: l' => (forall x, In x l' -> (snd x <= snd e)%Z) /\ falling l'
  end.

(** Assessments with the given weak areas. *)
Definition doc_with_areas (areas : list Text) : AssessmentDoc :=
  {| doc_id := "x"; doc_userId := "42"; doc_lessonDay := 1;
     doc_targetLanguage := "en"; doc_score := 80;
     doc_transcript := txt "hello";
     doc_expectedAnswer := txt "Introduce yourself";
     doc_feedback := txt "Good"; doc_strengths := [];
     doc_weakAreas := areas; doc_timestamp := 0 |}.

Definition week_of_assessments : list AssessmentDoc :=
  [ doc_with_areas [txt "pace"; txt "Grammar"];
    doc_with_areas [txt "7"; txt "Grammar"; txt "word order"];
    doc_with_areas [txt "vowels"; txt "Grammar"; txt "pace"];
    doc_with_areas [txt "articles"; txt "10"; txt "stress"] ].

Definition default_recommendation : Text := txt "Continue with current curriculum".

(** The area mentions one of the keys of [areaRecommendations], in any
    case. *)
Definition mentions_rubric (area : Text) : bool :=
  existsb (fun entry => includes (toLowerCase area) (fst entry)) areaRecommendations.

(** The codes with which the tool refuses a call. *)
Definition tool_codes : list string :=
  [ "ERR_INVALID_INPUT"; "ERR_AUDIO_DOWNLOAD"; "ERR_TRANSCRIPTION_FAILED";
    "ERR_GRADING_FAILED"; "ERR_DATABASE_ERROR" ].

(** A call of the tool with the four required arguments only. *)
Definition bare_call : ToolArguments :=
  {| t_userId := Some "42"%string; t_lessonDay := Some 1%Z;
     t_targetLanguage := Some "en"%string;
     t_audioUrl := Some "https://example.org/voice.ogg"%string;
     t_lessonWords := None; t_expectedAnswer := None;
     t_nativeLanguage := None |}.

(** Noon of day 10 on every clock, and a record on each of the days 3 to
    10: the first of them an hour after noon. *)
Definition noon_env : Env :=
  {| firestore_up := fun _ => true;
     whisper_reply := fun _ => None;
     chat_reply := fun _ => None;
     auto_id := fun n => String (ascii_of_nat (65 + n)) EmptyString;
     clock := fun _ => (day 10 + 12 * 3600000)%Z |}.

Definition eight_days_world : World :=
  with_assessments
    (doc_at (day 3 + 13 * 3600000)
     :: map (fun i => doc_at (day (4 + Z.of_nat i))) (seq 0 7))
    world0.

(** The profile of a user who has just selected a language. *)
Definition fresh_profile (ctx : Context) (languageCode : string) (createdAt : Z)
  : UserDoc :=
  {| telegramId := from_id ctx;
     name := string_or (from_first_name ctx) (string_or (from_username ctx) "User");
     targetLanguage := languageCode;
     nativeLanguage := "he";
     createdAt := createdAt;
     streak := 0;
     totalLessons := 0;
     avgScore := Num 0;
     lessonDay := 1;
     lessonTime := "09:00";
     notificationEnabled := true |}.

(** Two profiles that differ at most in the lesson day and the number of
    lessons. *)
Definition statistics_apart_progress (u u' : UserDoc) : Prop :=
  telegramId u' = telegramId u /\ name u' = name u /\
  targetLanguage u' = targetLanguage u /\
  nativeLanguage u' = nativeLanguage u /\ createdAt u' = createdAt u /\
  streak u' = streak u /\ avgScore u' = avgScore u /\
  lessonTime u' = lessonTime u /\
  notificationEnabled u' = notificationEnabled u.

(** The data of the button of a language. *)
Definition language_button (languageCode : string) : Text :=
  txt "lang_" ++ txt languageCode.

(** Firestore away for the requests from [from] up to [until]. *)
Definition flaky_env (from until : nat) : Env :=
  {| firestore_up := fun n => (n <? from) || (until <=? n);
     whisper_reply := fun _ => Some (txt "hello my name is Dana");
     chat_reply := fun _ => Some (JsString sample_response);
     auto_id := fun n => String (ascii_of_nat (65 + n)) EmptyString;
     clock := fun n => (1000 * Z.of_nat n)%Z |}.

Definition dana (data : Text) : Context :=
  {| from_id := "42"; from_first_name := Some "Dana"%string;
     from_username := None; callback_data := data |}.

(** ** Buttons *)

(** The buttons under a message. *)
Definition buttons (message : Outgoing) : list Button :=
  match message with
  | Reply _ keyboard => concat keyboard
  | _ => []
  end.

(** The button under a lesson. *)
Definition mark_complete (lessonDay : Text) : Button :=
  {| b_text := txt "✅ Mark Complete"; b_data := txt "lesson_complete_" ++ lessonDay |}.

(** The button of French. *)
Definition french_button : Button :=
  language_choice_button
    {| lc_code := "fr"; lc_name := txt "French"; lc_flag := txt "🇫🇷" |}.

(** * Properties *)

(** ** The matcher *)

Lemma star_inv {R} p s (k : Text -> option R) x :
  star p s k = Some x ->
  exists s', k s' = Some x /\ length s' <= length s.
Proof.
  induction s as [|c s IH]; simpl; intros H.
  - exists []. auto.
  - destruct (p c).
    + destruct (star p s k) as [r|] eqn:E.
      * inversion H; subst. destruct (IH eq_refl) as (s' & Hk & Hl).
        exists s'. split; [assumption | lia].
      * exists (c :: s). auto.
    + exists (c :: s). auto.
Qed.

Lemma plus_inv {R} p s (k : Text -> option R) x :
  plus p s k = Some x ->
  exists c s0 s', s = c :: s0 /\ p c = true /\ k s' = Some x /\
                  length s' <= length s0.
Proof.
  destruct s as [|c s]; simpl; [discriminate|].
  destruct (p c) eqn:Hp; [|discriminate]. intros H.
  destruct (star_inv _ _ _ _ H) as (s' & Hk & Hl).
  exists c, s, s'. auto.
Qed.

Lemma plus_lazy_inv {R} p s (k : Text -> option R) x :
  plus_lazy p s k = Some x ->
  exists s', k s' = Some x /\ length s' < length s.
Proof.
  induction s as [|c s IH]; simpl; [discriminate|].
  destruct (p c); [|discriminate].
  destruct (k s) as [r|] eqn:E; intros H.
  - inversion H; subst. exists s. auto.
  - destruct (IH H) as (s' & Hk & Hl). exists s'. split; [assumption | lia].
Qed.

Lemma strip_lit_length ic l s s' :
  strip_lit ic l s = Some s' -> length s = length l + length s'.
Proof.
  revert s; induction l as [|p l IH]; simpl; intros s H.
  - inversion H; reflexivity.
  - destruct s as [|c s]; [discriminate|].
    destruct (char_eqb ic p c); [|discriminate].
    simpl. rewrite (IH _ H). reflexivity.
Qed.

Lemma run_inv f r : forall R s cap (k : Text -> option Text -> option R) x,
  run f r s cap k = Some x ->
  exists s' cap', k s' cap' = Some x /\ length s' <= length s /\
                  (defined cap -> defined cap') /\
                  (through_group r = true -> defined cap').
Proof.
  induction r as [l|c|c|c|r IH|r IH|r1 IH1 r2 IH2|r1 IH1 r2 IH2|];
    intros R s cap k x H; simpl in H.
  - destruct (strip_lit (ignoreCase f) l s) as [s'|] eqn:E; [|discriminate].
    exists s', cap. apply strip_lit_length in E.
    repeat split; auto; try lia; try discriminate.
  - destruct (star_inv _ _ _ _ H) as (s' & Hk & Hl).
    exists s', cap. repeat split; auto; try discriminate.
  - destruct (plus_inv _ _ _ _ H) as (c0 & s0 & s' & -> & _ & Hk & Hl).
    exists s', cap. simpl. repeat split; auto; try lia; try discriminate.
  - destruct (plus_lazy_inv _ _ _ _ H) as (s' & Hk & Hl).
    exists s', cap. repeat split; auto; try lia; try discriminate.
  - destruct (IH _ _ _ _ _ H) as (s' & cap' & Hk & Hl & _ & _).
    eexists s', _. repeat split; eauto; intros _; eexists; reflexivity.
  - destruct (run f r s cap (fun _ c => Some c)) as [c|] eqn:E; [|discriminate].
    destruct (IH _ _ _ _ _ E) as (s' & cap' & Hk & _ & Hd & _).
    inversion Hk; subst. exists s, c. repeat split; auto; try discriminate.
  - simpl. destruct (run f r1 s cap k) as [y|] eqn:E.
    + inversion H; subst.
      destruct (IH1 _ _ _ _ _ E) as (s' & cap' & Hk & Hl & Hd & Hg).
      exists s', cap'. repeat split; auto.
      intros Hb. apply andb_prop in Hb. tauto.
    + destruct (IH2 _ _ _ _ _ H) as (s' & cap' & Hk & Hl & Hd & Hg).
      exists s', cap'. repeat split; auto.
      intros Hb. apply andb_prop in Hb. tauto.
  - destruct (IH1 _ _ _ _ _ H) as (s1 & cap1 & Hk1 & Hl1 & Hd1 & Hg1).
    destruct (IH2 _ _ _ _ _ Hk1) as (s2 & cap2 & Hk2 & Hl2 & Hd2 & Hg2).
    exists s2, cap2. simpl. repeat split; auto; try lia.
    intros Hb. apply orb_prop in Hb. tauto.
  - destruct s; [|discriminate]. exists [], cap.
    repeat split; auto; try discriminate.
Qed.

Lemma regex_exec_inv f r s cap :
  regex_exec f r s = Some cap ->
  exists t, run f r t None (fun _ c => Some c) = Some cap.
Proof.
  induction s as [|c s IH]; simpl.
  - destruct (run f r [] None (fun _ c => Some c)) as [c|] eqn:E; [|discriminate].
    intros H; inversion H; subst. eauto.
  - destruct (run f r (c :: s) None (fun _ c => Some c)) as [c0|] eqn:E;
      [|exact IH].
    intros H; inversion H; subst. eauto.
Qed.

Lemma regex_exec_defined f r s cap :
  through_group r = true -> regex_exec f r s = Some cap -> defined cap.
Proof.
  intros Hg. induction s as [|c s IH]; simpl.
  - destruct (run f r [] None _) as [c|] eqn:E; [|discriminate].
    intros H; inversion H; subst.
    destruct (run_inv _ _ _ _ _ _ _ E) as (s' & cap' & Hk & _ & _ & Hd).
    inversion Hk; subst. auto.
  - destruct (run f r (c :: s) None _) as [c0|] eqn:E; [|exact IH].
    intros H; inversion H; subst.
    destruct (run_inv _ _ _ _ _ _ _ E) as (s' & cap' & Hk & _ & _ & Hd).
    inversion Hk; subst. auto.
Qed.

(** Without an occurrence of its leading literal a pattern cannot match. *)
Lemma regex_exec_no_label f l r s :
  find_lit (ignoreCase f) l s = None -> regex_exec f (RSeq (RLit l) r) s = None.
Proof.
  induction s as [|c s IH]; simpl.
  - destruct (strip_lit (ignoreCase f) l []); [discriminate | reflexivity].
  - destruct (strip_lit (ignoreCase f) l (c :: s)); [discriminate | exact IH].
Qed.

(** The match starts at the first occurrence of the leading literal when
    the rest of the pattern matches there. *)
Lemma regex_exec_first_label f l r s after cap :
  find_lit (ignoreCase f) l s = Some after ->
  run f r after None (fun _ c => Some c) = Some cap ->
  regex_exec f (RSeq (RLit l) r) s = Some cap.
Proof.
  intros Hf Hr. induction s as [|c s IH]; simpl in *.
  - destruct (strip_lit (ignoreCase f) l []) as [s'|]; [|discriminate].
    inversion Hf; subst. rewrite Hr. reflexivity.
  - destruct (strip_lit (ignoreCase f) l (c :: s)) as [s'|].
    + inversion Hf; subst. rewrite Hr. reflexivity.
    + auto.
Qed.

Lemma run_seq {R} f r1 r2 s cap (k : Text -> option Text -> option R) :
  run f (RSeq r1 r2) s cap k = run f r1 s cap (fun s' c' => run f r2 s' c' k).
Proof. reflexivity. Qed.

Lemma firstn_cons_le {A} (d : A) (s0 s3 : list A) :
  length s3 <= length s0 ->
  firstn (length (d :: s0) - length s3) (d :: s0)
  = d :: firstn (length s0 - length s3) s0.
Proof.
  intros Hl. simpl length.
  replace (S (length s0) - length s3) with (S (length s0 - length s3)) by lia.
  reflexivity.
Qed.

(** Group 1 of [score_re] is a run of characters that starts with a
    digit. *)
Lemma score_re_group s cap :
  regex_exec flags_i score_re s = Some cap ->
  exists d ds, cap = Some (d :: ds) /\ is_digit d = true.
Proof.
  assert (Hrun : forall t, run flags_i score_re t None (fun _ c => Some c) = Some cap ->
                 exists d ds, cap = Some (d :: ds) /\ is_digit d = true).
  { intros t H. unfold score_re in H. rewrite run_seq in H.
    apply run_inv in H. destruct H as (s1 & cap1 & H & _).
    rewrite run_seq in H. apply run_inv in H. destruct H as (s2 & cap2 & H & _).
    rewrite run_seq in H. cbn [run] in H.
    apply plus_inv in H. destruct H as (d & s0 & s3 & -> & Hd & H & Hl).
    destruct (strip_lit _ _ s3) as [s4|]; [|discriminate].
    inversion H; subst.
    exists d, (firstn (length s0 - length s3) s0). split; [|exact Hd].
    f_equal. apply firstn_cons_le, Hl. }
  intros H. destruct (regex_exec_inv _ _ _ _ H) as [t Ht]. eauto.
Qed.

Lemma digits_value_nonneg s : forall acc, (0 <= acc)%Z -> (0 <= digits_value acc s)%Z.
Proof.
  induction s as [|c s IH]; simpl; intros acc H; [assumption|].
  destruct (is_digit c); [|assumption]. apply IH. lia.
Qed.

(** The clamped score is an integer between 0 and 100, whatever group 1
    holds. *)
Lemma clamp_range x :
  (exists z, x = Int z) ->
  exists z, math_min 100 (math_max 0 x) = Int z /\ (0 <= z <= 100)%Z.
Proof. intros [z ->]. simpl. eexists; split; [reflexivity | lia]. Qed.

Lemma parseInt10_of_score_group s cap :
  regex_exec flags_i score_re s = Some cap -> exists z, parseInt10 cap = Int z.
Proof.
  intros H. destruct (score_re_group _ _ H) as (d & ds & -> & Hd).
  unfold parseInt10. rewrite Hd. eauto.
Qed.

Lemma through_group_patterns :
  through_group score_re = true /\ through_group feedback_re = true /\
  through_group strengths_re = true /\ through_group weakAreas_re = true.
Proof. repeat split. Qed.

(** On a string the [try] block runs to its [return]. *)
Lemma parseGradingResponse_try_string s :
  exists r, parseGradingResponse_try (JsString s) = Return r /\
            exists z, score r = Int z /\ (0 <= z <= 100)%Z.
Proof.
  destruct through_group_patterns as (_ & Hf & Hs & Hw).
  unfold parseGradingResponse_try, js_match, exc_bind.
  assert (Hsc : exists z, match regex_exec flags_i score_re s with
                          | Some m => parseInt10 m | None => Int 0 end = Int z).
  { destruct (regex_exec flags_i score_re s) eqn:E; [|eauto].
    eapply parseInt10_of_score_group; eauto. }
  destruct (regex_exec flags_is feedback_re s) as [cf|] eqn:Ef;
    [destruct (regex_exec_defined _ _ _ _ Hf Ef) as [gf ->]|];
  (destruct (regex_exec flags_is strengths_re s) as [cs|] eqn:Es;
    [destruct (regex_exec_defined _ _ _ _ Hs Es) as [gs ->]|]);
  (destruct (regex_exec flags_is weakAreas_re s) as [cw|] eqn:Ew;
    [destruct (regex_exec_defined _ _ _ _ Hw Ew) as [gw ->]|]);
  simpl; eexists; (split; [reflexivity|]); simpl; apply clamp_range; exact Hsc.
Qed.

(** *** Where a labelled section ends *)

Lemma star_greedy {R} p ws t (k : Text -> option R) x :
  forallb p ws = true ->
  k t = Some x ->
  match t with [] => True | c :: _ => p c = false end ->
  star p (ws ++ t) k = Some x.
Proof.
  intros Hws Hk Ht. induction ws as [|w ws IH]; simpl in *.
  - destruct t as [|c t]; simpl; [assumption|]. rewrite Ht. assumption.
  - apply andb_prop in Hws. destruct Hws as [Hw Hws].
    rewrite Hw, (IH Hws). reflexivity.
Qed.

Lemma plus_lazy_until {R} p body rest (k : Text -> option R) x :
  body <> [] ->
  forallb p body = true ->
  (forall pre t, body = pre ++ t -> pre <> [] -> t <> [] ->
                 k (t ++ rest) = None) ->
  k rest = Some x ->
  plus_lazy p (body ++ rest) k = Some x.
Proof.
  intros Hne Hp Hgo Hstop. induction body as [|a b IH]; [congruence|].
  simpl in Hp. apply andb_prop in Hp. destruct Hp as [Ha Hb].
  simpl. rewrite Ha. destruct b as [|b0 b].
  - simpl. rewrite Hstop. reflexivity.
  - rewrite (Hgo [a] (b0 :: b)) by (reflexivity || discriminate).
    apply IH; [discriminate | assumption |].
    intros pre t Hb' Hpre Ht. apply (Hgo (a :: pre) t); [|discriminate|exact Ht].
    simpl. rewrite Hb'. reflexivity.
Qed.

Lemma firstn_app_exact {A} (body rest : list A) :
  firstn (length (body ++ rest) - length rest) (body ++ rest) = body.
Proof.
  rewrite length_app.
  replace (length body + length rest - length rest) with (length body) by lia.
  rewrite firstn_app, Nat.sub_diag, firstn_all. simpl. apply app_nil_r.
Qed.

Lemma run_section_body tail ws body rest :
  forallb is_space ws = true ->
  match body with [] => False | c :: _ => is_space c = false end ->
  (forall pre t cap, body = pre ++ t -> pre <> [] -> t <> [] ->
     run flags_is tail (t ++ rest) cap (fun _ c => Some c) = None) ->
  (forall cap, run flags_is tail rest cap (fun _ c => Some c) = Some cap) ->
  run flags_is (section_body tail) (ws ++ body ++ rest) None (fun _ c => Some c)
  = Some (Some body).
Proof.
  intros Hws Hb Hgo Hstop. unfold section_body. rewrite run_seq. cbn [run].
  apply star_greedy; [exact Hws | | destruct body; simpl; [tauto | exact Hb]].
  apply plus_lazy_until.
  - destruct body; [tauto | discriminate].
  - apply forallb_forall. reflexivity.
  - intros pre t Hb' Hpre Ht. eapply Hgo; eauto.
  - rewrite firstn_app_exact. apply Hstop.
Qed.

Lemma run_feedback_tail t cap :
  run flags_is feedback_tail t cap (fun _ c => Some c)
  = if feedback_stop t then Some cap else None.
Proof.
  unfold feedback_tail, feedback_stop, starts_with.
  cbn [run flags_is ignoreCase].
  destruct (strip_lit true [LF] t), (strip_lit true (txt "STRENGTHS:") t),
    (strip_lit true (txt "WEAK_AREAS:") t), t; reflexivity.
Qed.

Lemma run_strengths_tail t cap :
  run flags_is strengths_tail t cap (fun _ c => Some c)
  = if strengths_stop t then Some cap else None.
Proof.
  unfold strengths_tail, strengths_stop, starts_with.
  cbn [run flags_is ignoreCase].
  destruct (strip_lit true [LF] t), (strip_lit true (txt "WEAK_AREAS:") t), t;
    reflexivity.
Qed.

Lemma star_backtrack {R} p ws (k : Text -> option R) x :
  forallb p ws = true -> ws <> [] ->
  k [] = None -> k [List.last ws LF] = Some x ->
  star p ws k = Some x.
Proof.
  intros Hp Hne Hk0 Hk1. induction ws as [|a ws IH]; [congruence|].
  simpl in Hp. apply andb_prop in Hp. destruct Hp as [Ha Hp].
  simpl star. rewrite Ha. destruct ws as [|b ws].
  - simpl. rewrite Hk0. exact Hk1.
  - rewrite IH; [reflexivity | exact Hp | discriminate | exact Hk1].
Qed.

(** *** Trimming *)

Lemma drop_while_split p s :
  exists ws, s = ws ++ drop_while p s /\ forallb p ws = true.
Proof.
  induction s as [|c s (ws & Hs & Hws)]; simpl.
  - exists []. auto.
  - destruct (p c) eqn:E.
    + exists (c :: ws). simpl. rewrite E, <- Hs. auto.
    + exists []. auto.
Qed.

Lemma drop_while_head p s :
  match drop_while p s with [] => True | c :: _ => p c = false end.
Proof.
  induction s as [|c s IH]; simpl; [exact I|].
  destruct (p c) eqn:E; [exact IH | exact E].
Qed.

Lemma drop_while_app_all p ws s :
  forallb p ws = true -> drop_while p (ws ++ s) = drop_while p s.
Proof.
  induction ws as [|w ws IH]; simpl; [reflexivity|].
  intros H. apply andb_prop in H. destruct H as [Hw Hws]. rewrite Hw. auto.
Qed.

Lemma drop_while_blank s : blank s = true -> drop_while is_space s = [].
Proof.
  intros H. rewrite <- (app_nil_r s). rewrite drop_while_app_all; auto.
Qed.

Lemma drop_while_not_blank s : blank s = false -> drop_while is_space s <> [].
Proof.
  induction s as [|c s IH]; simpl; [discriminate|].
  destruct (is_space c); simpl; [exact IH | discriminate].
Qed.

Lemma trim_skip_blanks ws s :
  forallb is_space ws = true -> trim (ws ++ s) = trim s.
Proof. intros H. unfold trim. rewrite drop_while_app_all; auto. Qed.

Lemma trim_drop_while s : trim (drop_while is_space s) = trim s.
Proof.
  destruct (drop_while_split is_space s) as (ws & Hs & Hws).
  rewrite Hs at 2. rewrite trim_skip_blanks; auto.
Qed.

Lemma trim_blank s : blank s = true -> trim s = [].
Proof. intros H. unfold trim. rewrite (drop_while_blank s H). reflexivity. Qed.

(** *** Single-line sections *)

Ltac each_char c :=
  destruct c as [[|] [|] [|] [|] [|] [|] [|] [|]]; vm_compute;
  repeat split; congruence.

Lemma digit_facts c :
  is_digit c = true ->
  is_space c = false /\ char_eqb true "F" c = false /\
  char_eqb true "S" c = false /\ char_eqb true "W" c = false.
Proof. each_char c. Qed.

Lemma not_LF_ci c : Ascii.eqb c LF = false -> char_eqb true LF c = false.
Proof. each_char c. Qed.

Lemma one_line_inside pre c t :
  one_line (pre ++ c :: t) = true -> Ascii.eqb c LF = false.
Proof.
  unfold one_line. rewrite forallb_app. simpl. intros H.
  apply andb_prop in H. destruct H as [_ H].
  apply andb_prop in H. destruct H as [H _].
  destruct (Ascii.eqb c LF); [discriminate | reflexivity].
Qed.

Lemma find_lit_None_strip ic l s :
  find_lit ic l s = None -> strip_lit ic l s = None.
Proof.
  destruct s; simpl; destruct (strip_lit ic l _); congruence.
Qed.

Lemma find_lit_None_suffix ic l pre t :
  find_lit ic l (pre ++ t) = None -> find_lit ic l t = None.
Proof.
  induction pre as [|c pre IH]; simpl; [tauto|].
  destruct (strip_lit ic l (c :: pre ++ t)); [discriminate | exact IH].
Qed.

Lemma lacks_inside l pre t :
  lacks l (pre ++ t) = true -> strip_lit true l t = None.
Proof.
  unfold lacks. destruct (find_lit true l (pre ++ t)) eqn:E; [discriminate|].
  intros _. eapply find_lit_None_strip, find_lit_None_suffix, E.
Qed.

Lemma strip_lit_line l : forall x r,
  no_LF l = true -> strip_lit true l x = None ->
  strip_lit true l (x ++ LF :: r) = None.
Proof.
  induction l as [|p l IH]; simpl; intros x r Hl Hx; [discriminate Hx|].
  apply andb_prop in Hl. destruct Hl as [Hp Hl].
  destruct x as [|c x]; simpl.
  - apply negb_true_iff in Hp. rewrite Hp. reflexivity.
  - simpl in Hx. destruct (char_eqb true p c); [auto | reflexivity].
Qed.

Lemma find_lit_cons_skip ic l c s :
  strip_lit ic l (c :: s) = None -> find_lit ic l (c :: s) = find_lit ic l s.
Proof. simpl. intros ->. reflexivity. Qed.

Lemma find_lit_here ic l s r :
  strip_lit ic l s = Some r -> find_lit ic l s = Some r.
Proof. destruct s; simpl; intros ->; reflexivity. Qed.

Lemma find_lit_skip_class (q : ascii -> bool) p l d t :
  forallb q d = true ->
  (forall c, q c = true -> char_eqb true p c = false) ->
  find_lit true (p :: l) (d ++ t) = find_lit true (p :: l) t.
Proof.
  intros Hd Hq. induction d as [|c d IH]; [reflexivity|].
  simpl in Hd. apply andb_prop in Hd. destruct Hd as [Hc Hd].
  simpl app. rewrite find_lit_cons_skip; [auto|].
  simpl. rewrite (Hq c Hc). reflexivity.
Qed.

Lemma find_lit_skip_line l f t :
  no_LF l = true -> lacks l f = true ->
  find_lit true l (f ++ LF :: t) = find_lit true l (LF :: t).
Proof.
  intros Hl. induction f as [|c f IH]; [reflexivity|].
  intros Hf. simpl app. rewrite find_lit_cons_skip.
  - apply IH. unfold lacks in *.
    destruct (find_lit true l f) eqn:E; [|reflexivity].
    simpl in Hf. destruct (strip_lit true l (c :: f)); [discriminate|].
    rewrite E in Hf. discriminate.
  - apply (strip_lit_line l (c :: f) t Hl).
    apply (lacks_inside l (@nil ascii) (c :: f)). exact Hf.
Qed.

(** *** The four labelled lines *)

Lemma starts_with_LF_inside f pre c t r :
  one_line f = true -> f = pre ++ c :: t ->
  starts_with [LF] (c :: t ++ LF :: r) = false.
Proof.
  intros Hf ->. unfold starts_with. simpl.
  rewrite (not_LF_ci c (one_line_inside _ _ _ Hf)). reflexivity.
Qed.

Lemma starts_with_label_inside l f pre c t r :
  no_LF l = true -> lacks l f = true -> f = pre ++ c :: t ->
  starts_with l (c :: t ++ LF :: r) = false.
Proof.
  intros Hl Hf ->. unfold starts_with.
  change (c :: t ++ LF :: r) with ((c :: t) ++ LF :: r).
  rewrite (strip_lit_line l (c :: t) r Hl (lacks_inside _ _ _ Hf)).
  reflexivity.
Qed.

Ltac skip_chars := repeat (rewrite find_lit_cons_skip by reflexivity).

Lemma strip_lit_same ic l rest : strip_lit ic l (l ++ rest) = Some rest.
Proof.
  induction l as [|p l IH]; simpl; [reflexivity|].
  replace (char_eqb ic p p) with true; [exact IH|].
  unfold char_eqb. destruct ic; symmetry; apply Ascii.eqb_refl.
Qed.

(** The score line: blanks, digits, [/100]. *)
Lemma run_score_line ws d rest :
  forallb is_space ws = true -> d <> [] -> forallb is_digit d = true ->
  run flags_i
    (RSeq (RStar CSpace) (RSeq (RGroup (RPlus CDigit)) (RLit (txt "/100"))))
    (ws ++ d ++ txt "/100" ++ rest) None (fun _ c => Some c)
  = Some (Some d).
Proof.
  intros Hws Hne Hd. rewrite run_seq. cbn [run].
  destruct d as [|d0 ds]; [congruence|].
  simpl in Hd. apply andb_prop in Hd. destruct Hd as [Hd0 Hds].
  apply star_greedy; [exact Hws | | apply (digit_facts d0 Hd0)].
  cbn [app plus in_cls]. rewrite Hd0.
  apply star_greedy; [exact Hds | | reflexivity].
  cbn [flags_i ignoreCase]. rewrite strip_lit_same.
  f_equal. f_equal. apply (firstn_app_exact (d0 :: ds)).
Qed.

(** *** Sections anywhere in the text *)

Lemma star_none {R} p ws t (k : Text -> option R) :
  forallb p ws = true ->
  match t with [] => True | c :: _ => p c = false end ->
  k t = None ->
  (forall c s, p c = true -> k (c :: s) = None) ->
  star p (ws ++ t) k = None.
Proof.
  intros Hws Ht Hk Hp. induction ws as [|w ws IH]; simpl in *.
  - destruct t as [|c t]; simpl; [assumption|]. rewrite Ht. assumption.
  - apply andb_prop in Hws. destruct Hws as [Hw Hws].
    rewrite Hw, (IH Hws). apply Hp, Hw.
Qed.

Lemma take_drop_while p s :
  s = take_while p s ++ drop_while p s /\ forallb p (take_while p s) = true.
Proof.
  induction s as [|c s [IH1 IH2]]; simpl; [auto|].
  destruct (p c) eqn:E; simpl; [|auto]. rewrite E, <- IH1. auto.
Qed.

Lemma space_facts c : is_space c = true -> is_digit c = false.
Proof. each_char c. Qed.

Lemma digit_not_slash c : is_digit c = true -> char_eqb true "/" c = false.
Proof. each_char c. Qed.

(** The rest of the score pattern, after the label: group 1 is the run of
    digits, when [/100] follows it. *)
Lemma run_score_digits after :
  run flags_i
    (RSeq (RStar CSpace) (RSeq (RGroup (RPlus CDigit)) (RLit (txt "/100"))))
    after None (fun _ c => Some c)
  = option_map Some (score_digits after).
Proof.
  unfold score_digits.
  destruct (drop_while_split is_space after) as (ws & Hsplit & Hws).
  pose proof (drop_while_head is_space after) as Hhead.
  set (t := drop_while is_space after) in *.
  destruct (take_drop_while is_digit t) as [Ht Hd].
  pose proof (drop_while_head is_digit t) as Hhead2.
  set (d := take_while is_digit t) in *. set (t2 := drop_while is_digit t) in *.
  rewrite Hsplit.
  set (K := fun s' : Text =>
              run flags_i (RSeq (RGroup (RPlus CDigit)) (RLit (txt "/100")))
                s' None (fun _ c => Some c)).
  change (star (in_cls flags_i CSpace) (ws ++ t) K
          = option_map Some
              (if nonempty d && starts_with (txt "/100") t2 then Some d else None)).
  assert (Hblank : forall c s, in_cls flags_i CSpace c = true -> K (c :: s) = None).
  { intros c s Hc. unfold K. rewrite run_seq. cbn [run plus in_cls].
    rewrite (space_facts c Hc). reflexivity. }
  destruct d as [|d0 ds] eqn:Ed.
  - (* no digit after the blanks *)
    simpl in Ht. apply star_none; [exact Hws | exact Hhead | | exact Hblank].
    unfold K. rewrite run_seq. cbn [run plus in_cls]. rewrite Ht.
    destruct t2 as [|c t2']; [reflexivity|]. cbn [plus in_cls]. rewrite Hhead2.
    reflexivity.
  - simpl in Hd. apply andb_prop in Hd. destruct Hd as [Hd0 Hds].
    assert (Hrun : K t = if starts_with (txt "/100") t2
                         then Some (Some (d0 :: ds)) else None).
    { unfold K. rewrite run_seq. cbn [run]. rewrite Ht. cbn [app plus in_cls].
      rewrite Hd0. unfold starts_with. cbn [flags_i ignoreCase].
      destruct (strip_lit true (txt "/100") t2) as [t3|] eqn:E3.
      - apply star_greedy; [exact Hds | | exact Hhead2].
        rewrite E3. f_equal. f_equal. apply (firstn_app_exact (d0 :: ds)).
      - apply star_none; [exact Hds | exact Hhead2 | rewrite E3; reflexivity|].
        intros c s Hc. cbn [txt list_ascii_of_string strip_lit].
        rewrite (digit_not_slash c Hc). reflexivity. }
    cbn [nonempty length Nat.ltb Nat.leb andb].
    destruct (starts_with (txt "/100") t2).
    + apply star_greedy; [exact Hws | exact Hrun | exact Hhead].
    + apply star_none; [exact Hws | exact Hhead | exact Hrun | exact Hblank].
Qed.

(** The match of the score pattern. *)
Lemma regex_exec_score s :
  regex_exec flags_i score_re s = option_map Some (find_score s).
Proof.
  assert (Hrun : forall t,
            run flags_i score_re t None (fun _ c => Some c)
            = option_map Some
                match strip_lit true (txt "SCORE:") t with
                | Some after => score_digits after
                | None => None
                end).
  { intros t. unfold score_re. rewrite run_seq. cbn [run flags_i ignoreCase].
    destruct (strip_lit true (txt "SCORE:") t) as [after|]; [|reflexivity].
    apply run_score_digits. }
  induction s as [|c s IH].
  - cbn [regex_exec find_score]. rewrite Hrun.
    destruct (match strip_lit true (txt "SCORE:") [] with
              | Some after => score_digits after | None => None end);
      reflexivity.
  - cbn [regex_exec find_score]. rewrite Hrun.
    destruct (match strip_lit true (txt "SCORE:") (c :: s) with
              | Some after => score_digits after | None => None end);
      [reflexivity | exact IH].
Qed.

Lemma score_digits_digits after d :
  score_digits after = Some d -> d <> [] /\ forallb is_digit d = true.
Proof.
  unfold score_digits.
  destruct (take_drop_while is_digit (drop_while is_space after)) as [_ Hd].
  cbv zeta.
  destruct (take_while is_digit (drop_while is_space after)) as [|d0 ds];
    [discriminate|].
  destruct (_ && _); [|discriminate].
  intros [= <-]. split; [discriminate | exact Hd].
Qed.

Lemma find_score_digits s d :
  find_score s = Some d -> d <> [] /\ forallb is_digit d = true.
Proof.
  induction s as [|c s IH]; cbn [find_score].
  - destruct (strip_lit true (txt "SCORE:") []) as [after|]; [|discriminate].
    destruct (score_digits after) as [d'|] eqn:E; [|discriminate].
    intros [= <-]. eapply score_digits_digits, E.
  - destruct (strip_lit true (txt "SCORE:") (c :: s)) as [after|]; [|exact IH].
    destruct (score_digits after) as [d'|] eqn:E; [|exact IH].
    intros [= <-]. eapply score_digits_digits, E.
Qed.

Lemma until_stop_split stop s :
  exists rest,
    s = until_stop stop s ++ rest /\
    (rest = [] \/ stop rest = true) /\
    forall pre t, until_stop stop s = pre ++ t -> t <> [] ->
                  stop (t ++ rest) = false.
Proof.
  induction s as [|c s (rest & Hs & Hrest & Hin)]; simpl.
  - exists []. split; [reflexivity|]. split; [auto|].
    intros [|? ?] t H; [|discriminate]. simpl in H. subst t. congruence.
  - destruct (stop (c :: s)) eqn:E.
    + exists (c :: s). split; [reflexivity|]. split; [auto|].
      intros [|? ?] t H; [|discriminate]. simpl in H. subst t. congruence.
    + exists rest. split; [simpl; rewrite <- Hs; reflexivity|].
      split; [exact Hrest|].
      intros [|a pre] t H Ht.
      * simpl in H. subst t. simpl. rewrite <- Hs. exact E.
      * injection H as _ H. apply (Hin pre t H Ht).
Qed.

(** Group 1 of a section, up to blanks at its ends: the text of the
    section. *)
Lemma run_section_text (tail : regex) (following : list Text) (after : Text) :
  (forall t cap, run flags_is tail t cap (fun _ c => Some c)
                 = if line_or_label following t || (length t =? 0)
                   then Some cap else None) ->
  after <> [] ->
  exists g,
    run flags_is (section_body tail) after None (fun _ c => Some c)
    = Some (Some g)
    /\ trim g = trim (section_text following after).
Proof.
  intros Htail Hne. unfold section_text.
  destruct (drop_while_split is_space after) as (ws & Hsplit & Hws).
  pose proof (drop_while_head is_space after) as Hhead.
  destruct (drop_while is_space after) as [|c t] eqn:Ed.
  - (* blanks only: the last of them is given back to the group *)
    rewrite app_nil_r in Hsplit. subst ws.
    exists [List.last after LF]. split.
    + unfold section_body. rewrite run_seq. cbn [run].
      apply star_backtrack; [exact Hws | exact Hne | reflexivity|].
      cbn [run in_cls flags_is dotAll orb plus_lazy length Nat.sub firstn].
      rewrite Htail. rewrite orb_true_r. reflexivity.
    + apply trim_blank. simpl. rewrite andb_true_r.
      apply (proj1 (forallb_forall _ _) Hws).
      destruct (exists_last Hne) as (l' & a & ->).
      rewrite last_last. apply in_or_app. right. left. reflexivity.
  - destruct (until_stop_split (line_or_label following) t)
      as (rest & Hs & Hrest & Hin).
    set (body := until_stop (line_or_label following) t) in *.
    exists (c :: body). split; [|reflexivity].
    rewrite Hsplit, Hs. change (ws ++ c :: body ++ rest)
      with (ws ++ (c :: body) ++ rest).
    apply run_section_body.
    + exact Hws.
    + exact Hhead.
    + intros pre t' cap Hb Hpre Ht. rewrite Htail.
      destruct pre as [|p pre]; [congruence|]. injection Hb as _ Hb.
      rewrite (Hin pre t' Hb Ht). destruct t'; [congruence | reflexivity].
    + intros cap. rewrite Htail.
      destruct Hrest as [-> | ->]; [rewrite orb_true_r|]; reflexivity.
Qed.

Lemma run_feedback_stop t cap :
  run flags_is feedback_tail t cap (fun _ c => Some c)
  = if line_or_label [txt "STRENGTHS:"; txt "WEAK_AREAS:"] t || (length t =? 0)
    then Some cap else None.
Proof.
  rewrite run_feedback_tail. unfold feedback_stop, line_or_label. simpl existsb.
  rewrite orb_false_r, !orb_assoc. reflexivity.
Qed.

Lemma run_strengths_stop t cap :
  run flags_is strengths_tail t cap (fun _ c => Some c)
  = if line_or_label [txt "WEAK_AREAS:"] t || (length t =? 0)
    then Some cap else None.
Proof.
  rewrite run_strengths_tail. unfold strengths_stop, line_or_label.
  simpl existsb. rewrite orb_false_r. reflexivity.
Qed.

(** Group 1 of the last section: what comes after the label, without the
    blanks in front, when there is something. *)
Lemma run_section_rest (after : Text) :
  after <> [] ->
  exists g,
    run flags_is (section_body REnd) after None (fun _ c => Some c)
    = Some (Some g)
    /\ trim g = trim after.
Proof.
  intros Hne. destruct (blank after) eqn:Hb.
  - exists [List.last after LF]. split.
    + unfold section_body. rewrite run_seq. cbn [run].
      apply star_backtrack; [exact Hb | exact Hne | reflexivity | reflexivity].
    + rewrite (trim_blank after Hb). apply trim_blank. simpl. rewrite andb_true_r.
      apply (proj1 (forallb_forall _ _) Hb).
      destruct (exists_last Hne) as (l' & a & ->).
      rewrite last_last. apply in_or_app. right. left. reflexivity.
  - destruct (drop_while_split is_space after) as (ws & Hsplit & Hws).
    exists (drop_while is_space after). split; [|apply trim_drop_while].
    rewrite Hsplit at 1.
    rewrite <- (app_nil_r (drop_while is_space after)) at 1.
    apply run_section_body.
    + exact Hws.
    + pose proof (drop_while_head is_space after) as Hh.
      pose proof (drop_while_not_blank after Hb) as Hne'.
      destruct (drop_while is_space after); [congruence | exact Hh].
    + intros pre t cap _ _ Ht. rewrite app_nil_r.
      destruct t; [congruence | reflexivity].
    + reflexivity.
Qed.

Lemma strip_lit_short ic l s : length s < length l -> strip_lit ic l s = None.
Proof.
  revert s. induction l as [|p l IH]; intros s H; simpl in *; [lia|].
  destruct s as [|c s]; [reflexivity|].
  destruct (char_eqb ic p c); [|reflexivity]. apply IH. simpl in H. lia.
Qed.

Lemma find_lit_short ic l s : length s < length l -> find_lit ic l s = None.
Proof.
  induction s as [|c s IH]; intros H.
  - simpl. rewrite (strip_lit_short ic l []) by exact H. reflexivity.
  - simpl find_lit. rewrite (strip_lit_short ic l (c :: s)) by exact H.
    apply IH. simpl in H. lia.
Qed.

(** A label at the very end of the text: a pattern that asks for more
    after it does not match. *)
Lemma regex_exec_label_last f l r s :
  l <> [] ->
  find_lit (ignoreCase f) l s = Some [] ->
  run f r [] None (fun _ c => Some c) = None ->
  regex_exec f (RSeq (RLit l) r) s = None.
Proof.
  intros Hl Hf Hr. induction s as [|c s IH].
  - simpl in *. destruct (strip_lit (ignoreCase f) l []) as [s'|]; [|discriminate].
    injection Hf as ->. rewrite Hr. reflexivity.
  - simpl in Hf. cbn [regex_exec run].
    destruct (strip_lit (ignoreCase f) l (c :: s)) as [s'|] eqn:E.
    + injection Hf as ->. rewrite Hr.
      apply regex_exec_no_label, find_lit_short.
      apply strip_lit_length in E. simpl in E.
      destruct l; [congruence|]. simpl in *. lia.
    + apply IH, Hf.
Qed.

Lemma strengths_group r after :
  find_lit true (txt "STRENGTHS:") r = Some after ->
  match regex_exec flags_is strengths_re r with
  | Some (Some g) => trim g
  | _ => []
  end = trim (section_text [txt "WEAK_AREAS:"] after).
Proof.
  intros Hf.
  change strengths_re
    with (RSeq (RLit (txt "STRENGTHS:")) (section_body strengths_tail)).
  destruct after as [|c after].
  - rewrite (regex_exec_label_last flags_is _ _ r); [reflexivity | discriminate
      | exact Hf | reflexivity].
  - destruct (run_section_text strengths_tail [txt "WEAK_AREAS:"] (c :: after)
                run_strengths_stop) as (g & Hg & Ht); [discriminate|].
    rewrite (regex_exec_first_label flags_is _ _ r _ _ Hf Hg). exact Ht.
Qed.

Lemma weakAreas_group r after :
  find_lit true (txt "WEAK_AREAS:") r = Some after ->
  match regex_exec flags_is weakAreas_re r with
  | Some (Some g) => trim g
  | _ => []
  end = trim after.
Proof.
  intros Hf.
  change weakAreas_re with (RSeq (RLit (txt "WEAK_AREAS:")) (section_body REnd)).
  destruct after as [|c after].
  - rewrite (regex_exec_label_last flags_is _ _ r); [reflexivity | discriminate
      | exact Hf | reflexivity].
  - destruct (run_section_rest (c :: after)) as (g & Hg & Ht); [discriminate|].
    rewrite (regex_exec_first_label flags_is _ _ r _ _ Hf Hg). exact Ht.
Qed.

(** ** The lesson lookup *)

(** C9, as stated, fails: a language that the table does not have is
    answered with [ERR_INVALID_INPUT], not with the code of a missing
    lesson. *)
Lemma C9_unsupported_language_counterexample :
  catalog_entry demo_languages "xx" 1 = None /\
  result_code (getLesson demo_languages "xx" 1) = Some ERR_INVALID_INPUT /\
  result_code (getLesson demo_languages "xx" 1) <> Some ERR_LESSON_NOT_FOUND.
Proof. repeat split. discriminate. Qed.

(** C9 (amended): a pair that the table does not have is never answered
    with a lesson.  When the table has no property of the name of the
    language code the answer is [ERR_INVALID_INPUT]; when the code names a
    member that the table inherits from [Object.prototype] (constructor,
    toString, ...) it is "Failed to retrieve lesson" under
    [ERR_LESSON_NOT_FOUND]; when the language is there and the day is not
    it is [ERR_LESSON_NOT_FOUND].  An entry that does not hold exactly five
    words fails with the text "Lesson content is malformed" under the code
    [ERR_LESSON_NOT_FOUND]; every lesson returned holds exactly five
    words. *)
Theorem C9_getLesson (languages : string -> Property) (languageCode : string)
  (lessonDay : Z) :
  (catalog_entry languages languageCode lessonDay = None ->
     getLesson languages languageCode lessonDay
     = match languages languageCode with
       | Undefined =>
           Failure (LanguageNotSupported languageCode) ERR_INVALID_INPUT
       | Inherited =>
           Failure (Message "Failed to retrieve lesson") ERR_LESSON_NOT_FOUND
       | Own language =>
           Failure (LessonNotAvailable lessonDay (lang_name language))
             ERR_LESSON_NOT_FOUND
       end) /\
  (forall lesson,
     catalog_entry languages languageCode lessonDay = Some lesson ->
     lesson_word_count lesson <> 5 ->
     getLesson languages languageCode lessonDay
     = Failure (Message "Lesson content is malformed") ERR_LESSON_NOT_FOUND) /\
  (forall data,
     getLesson languages languageCode lessonDay = Success data ->
     length (ld_words data) = 5 /\
     exists lesson,
       catalog_entry languages languageCode lessonDay = Some lesson /\
       words lesson = Some (ld_words data)).
Proof.
  unfold getLesson, catalog_entry, lesson_word_count.
  destruct (languages languageCode) as [|language|] eqn:El.
  - split; [|split]; try discriminate. reflexivity.
  - destruct (lessons language lessonDay) as [lesson|] eqn:Ed.
    + split; [discriminate|]. split.
      * intros l [= <-] Hn. destruct (words lesson) as [ws|]; [|reflexivity].
        destruct (Nat.eqb_spec (length ws) 5); [congruence | reflexivity].
      * intros data. destruct (words lesson) as [ws|] eqn:Ew; [|discriminate].
        destruct (Nat.eqb_spec (length ws) 5) as [E5|]; [|discriminate].
        intros [= <-]. simpl. split; [exact E5|]. exists lesson. auto.
    + split; [|split]; try discriminate. reflexivity.
  - split; [|split]; try discriminate. reflexivity.
Qed.

(** On the small table: a missing day, an unknown code, an inherited name
    (also on the table of the bot), an entry of three words, and a complete
    lesson. *)
Lemma C9_getLesson_witness :
  getLesson demo_languages "en" 7
  = Failure (LessonNotAvailable 7 (txt "English")) ERR_LESSON_NOT_FOUND /\
  getLesson demo_languages "xx" 1
  = Failure (LanguageNotSupported "xx") ERR_INVALID_INPUT /\
  getLesson demo_languages "constructor" 1
  = Failure (Message "Failed to retrieve lesson") ERR_LESSON_NOT_FOUND /\
  getLesson languages "toString" 1
  = Failure (Message "Failed to retrieve lesson") ERR_LESSON_NOT_FOUND /\
  getLesson demo_languages "en" 2
  = Failure (Message "Lesson content is malformed") ERR_LESSON_NOT_FOUND /\
  (exists data, getLesson demo_languages "en" 1 = Success data /\
                length (ld_words data) = 5).
Proof.
  destruct (C9_getLesson demo_languages "en" 7) as (Hday & _ & _).
  destruct (C9_getLesson demo_languages "xx" 1) as (Hcode & _ & _).
  destruct (C9_getLesson demo_languages "constructor" 1) as (Hmember & _ & _).
  destruct (C9_getLesson languages "toString" 1) as (Hshipped & _ & _).
  destruct (C9_getLesson demo_languages "en" 2) as (_ & Hbad & _).
  destruct (C9_getLesson demo_languages "en" 1) as (_ & _ & Hgood).
  split; [exact (Hday eq_refl)|]. split; [exact (Hcode eq_refl)|].
  split; [exact (Hmember eq_refl)|]. split; [exact (Hshipped eq_refl)|].
  split.
  - apply (Hbad (demo_lesson 3)); [reflexivity | vm_compute; lia].
  - eexists. split; [reflexivity|]. apply (Hgood _ eq_refl).
Defined.

(** ** Properties of the response parser *)

Lemma parse_string_fields s :
  let r := parseGradingResponse (JsString s) in
  parseGradingResponse_try (JsString s) = Return r /\
  score r = math_min 100 (math_max 0
              match regex_exec flags_i score_re s with
              | Some m => parseInt10 m
              | None => Int 0
              end) /\
  feedback r = match regex_exec flags_is feedback_re s with
               | Some (Some g) => trim g
               | _ => txt "No feedback available"
               end /\
  strengths r = csv_items match regex_exec flags_is strengths_re s with
                          | Some (Some g) => trim g
                          | _ => []
                          end /\
  weakAreas r = csv_items match regex_exec flags_is weakAreas_re s with
                          | Some (Some g) => trim g
                          | _ => []
                          end.
Proof.
  destruct through_group_patterns as (_ & Hf & Hs & Hw).
  unfold parseGradingResponse, parseGradingResponse_try, js_match, exc_bind.
  destruct (regex_exec flags_is feedback_re s) as [cf|] eqn:Ef;
    [destruct (regex_exec_defined _ _ _ _ Hf Ef) as [gf ->]|];
  (destruct (regex_exec flags_is strengths_re s) as [cs|] eqn:Es;
    [destruct (regex_exec_defined _ _ _ _ Hs Es) as [gs ->]|]);
  (destruct (regex_exec flags_is weakAreas_re s) as [cw|] eqn:Ew;
    [destruct (regex_exec_defined _ _ _ _ Hw Ew) as [gw ->]|]);
  simpl; repeat split.
Qed.

(** C2: on every string the [try] block of [parseGradingResponse] runs to
    its [return] and the result carries an integer score between 0 and 100;
    on any input, when the matching throws (the input is not a string), the
    result is score 0, the feedback "Unable to process assessment. Please
    try again.", no strengths and the single weak area "Assessment parsing
    error". *)
Theorem C2_parse_never_throws (llmResponse : JsValue) :
  (forall s, llmResponse = JsString s ->
     exists r z, parseGradingResponse_try llmResponse = Return r /\
                 parseGradingResponse llmResponse = r /\
                 score r = Int z /\ (0 <= z <= 100)%Z) /\
  (forall e, parseGradingResponse_try llmResponse = Throw e ->
     parseGradingResponse llmResponse
     = {| score := Int 0;
          feedback := txt "Unable to process assessment. Please try again.";
          strengths := [];
          weakAreas := [txt "Assessment parsing error"] |}).
Proof.
  split.
  - intros s ->. destruct (parseGradingResponse_try_string s) as (r & Hr & z & Hz & Hrange).
    exists r, z. unfold parseGradingResponse. rewrite Hr. auto.
  - intros e He. unfold parseGradingResponse. rewrite He. reflexivity.
Qed.

(** A [null] content, and a text without any label. *)
Lemma C2_parse_never_throws_witness :
  parseGradingResponse JsNull
  = {| score := Int 0;
       feedback := txt "Unable to process assessment. Please try again.";
       strengths := [];
       weakAreas := [txt "Assessment parsing error"] |}
  /\ exists r z, parseGradingResponse (JsString (txt "no labels at all")) = r /\
                 score r = Int z /\ (0 <= z <= 100)%Z.
Proof.
  split.
  - apply (proj2 (C2_parse_never_throws JsNull) TypeError). reflexivity.
  - destruct (proj1 (C2_parse_never_throws (JsString (txt "no labels at all")))
                _ eq_refl) as (r & z & _ & Hr & Hz).
    exists r, z. auto.
Defined.

(** C8: a response without the label [SCORE:] parses to score 0 and the
    parser does not throw; without [FEEDBACK:] the feedback is "No feedback
    available"; without [STRENGTHS:] or [WEAK_AREAS:] the list is empty. *)
Theorem C8_missing_sections (s : Text) :
  (exists r, parseGradingResponse_try (JsString s) = Return r) /\
  (missing "SCORE:" s -> score (parseGradingResponse (JsString s)) = Int 0) /\
  (missing "FEEDBACK:" s ->
     feedback (parseGradingResponse (JsString s)) = txt "No feedback available") /\
  (missing "STRENGTHS:" s -> strengths (parseGradingResponse (JsString s)) = []) /\
  (missing "WEAK_AREAS:" s -> weakAreas (parseGradingResponse (JsString s)) = []).
Proof.
  destruct (parse_string_fields s) as (Hr & Hsc & Hf & Hs & Hw).
  unfold missing. split; [eauto|].
  split; [|split; [|split]]; intros Hm.
  - rewrite Hsc. unfold score_re.
    rewrite (regex_exec_no_label flags_i _ _ s Hm). reflexivity.
  - rewrite Hf. unfold feedback_re.
    rewrite (regex_exec_no_label flags_is _ _ s Hm). reflexivity.
  - rewrite Hs. unfold strengths_re.
    rewrite (regex_exec_no_label flags_is _ _ s Hm). reflexivity.
  - rewrite Hw. unfold weakAreas_re.
    rewrite (regex_exec_no_label flags_is _ _ s Hm). reflexivity.
Qed.

(** A text without any label gets the four defaults. *)
Lemma C8_missing_sections_witness :
  score (parseGradingResponse (JsString (txt "The answer was fine."))) = Int 0 /\
  feedback (parseGradingResponse (JsString (txt "The answer was fine.")))
  = txt "No feedback available" /\
  strengths (parseGradingResponse (JsString (txt "The answer was fine."))) = [] /\
  weakAreas (parseGradingResponse (JsString (txt "The answer was fine."))) = [].
Proof.
  destruct (C8_missing_sections (txt "The answer was fine."))
    as (_ & Hsc & Hf & Hs & Hw).
  split; [|split; [|split]].
  - apply Hsc. reflexivity.
  - apply Hf. reflexivity.
  - apply Hs. reflexivity.
  - apply Hw. reflexivity.
Defined.

(** C7, as stated, fails: the feedback returned ends at the first line
    feed, not at the next labelled section. *)
Lemma C7_feedback_counterexample :
  forallb (fun l => negb (lacks l two_line_feedback)) section_labels = true /\
  spec_section_text (txt "FEEDBACK:") two_line_feedback
  = Some (txt " Great job!" ++ [LF] ++ txt "Keep practicing." ++ [LF]) /\
  feedback (parseGradingResponse (JsString two_line_feedback)) = txt "Great job!" /\
  Some (feedback (parseGradingResponse (JsString two_line_feedback)))
  <> option_map trim (spec_section_text (txt "FEEDBACK:") two_line_feedback).
Proof. vm_compute. repeat split. discriminate. Qed.

(** C7 (amended): for a response in which the four labels occur, in any
    case and with any text around them, with a [SCORE:] that is followed
    by blanks, digits and [/100] and with text after [FEEDBACK:], the
    parser returns the score of the first such [SCORE:], clamped to
    0..100; as feedback the text after the first [FEEDBACK:], from its
    first character that is not a blank up to the next line feed, the next
    [STRENGTHS:] or [WEAK_AREAS:] after that character or the end of the
    text, trimmed; as strengths the items of the text after the first
    [STRENGTHS:], read in the same way up to the next line feed, the next
    [WEAK_AREAS:] or the end of the text; and as weak areas the items of
    all the text after the first [WEAK_AREAS:]; the items are the pieces
    between commas, trimmed, without the empty ones. *)
Theorem C7_parse_sections (r d afterFeedback afterStrengths afterWeakAreas : Text) :
  find_score r = Some d ->
  find_lit true (txt "FEEDBACK:") r = Some afterFeedback ->
  afterFeedback <> [] ->
  find_lit true (txt "STRENGTHS:") r = Some afterStrengths ->
  find_lit true (txt "WEAK_AREAS:") r = Some afterWeakAreas ->
  parseGradingResponse (JsString r)
  = {| score := Int (Z.min 100 (digits_value 0 d));
       feedback :=
         trim (section_text [txt "STRENGTHS:"; txt "WEAK_AREAS:"] afterFeedback);
       strengths :=
         List.filter nonempty
           (map trim
              (split_on ","
                 (trim (section_text [txt "WEAK_AREAS:"] afterStrengths))));
       weakAreas :=
         List.filter nonempty (map trim (split_on "," (trim afterWeakAreas))) |}
  /\ (0 <= Z.min 100 (digits_value 0 d) <= 100)%Z.
Proof.
  intros Hsc Hf Hfne Hs Hw.
  pose proof (digits_value_nonneg d 0%Z ltac:(lia)) as Hv.
  split; [|lia].
  destruct (find_score_digits r d Hsc) as [Hne Hdig].
  destruct (parse_string_fields r) as (_ & Escore & Efeedback & Estrengths & Eweak).
  assert (Hp : parseInt10 (Some d) = Int (digits_value 0 d)).
  { destruct d as [|d0 ds]; [congruence|]. unfold parseInt10.
    simpl in Hdig. apply andb_prop in Hdig. destruct Hdig as [Hd0 _].
    rewrite Hd0. reflexivity. }
  rewrite regex_exec_score, Hsc in Escore. cbn [option_map] in Escore.
  rewrite Hp in Escore. cbn [math_max math_min] in Escore.
  rewrite (Z.max_r _ _ Hv) in Escore.
  destruct (run_section_text feedback_tail [txt "STRENGTHS:"; txt "WEAK_AREAS:"]
              afterFeedback run_feedback_stop Hfne) as (g & Hg & Ht).
  change feedback_re
    with (RSeq (RLit (txt "FEEDBACK:")) (section_body feedback_tail)) in Efeedback.
  rewrite (regex_exec_first_label flags_is _ _ r _ _ Hf Hg), Ht in Efeedback.
  rewrite (strengths_group r afterStrengths Hs) in Estrengths.
  rewrite (weakAreas_group r afterWeakAreas Hw) in Eweak.
  destruct (parseGradingResponse (JsString r)) as [sc fb st wk].
  cbn [score feedback strengths weakAreas] in *. subst sc fb st wk. reflexivity.
Qed.

(** The four sections on one line, in lower case, each ended by the label
    of the next, after a mention of the score without a number. *)
Lemma C7_parse_sections_witness :
  parseGradingResponse (JsString one_line_response)
  = {| score := Int 85;
       feedback := txt "Great job!";
       strengths := [txt "clarity"; txt "pace"];
       weakAreas := [txt "grammar"] |}.
Proof.
  destruct (C7_parse_sections one_line_response
              (txt "85")
              (txt " Great job! strengths: clarity, pace weak_areas: grammar")
              (txt " clarity, pace weak_areas: grammar")
              (txt " grammar")) as [H _];
    [reflexivity | reflexivity | discriminate | reflexivity | reflexivity |].
  exact H.
Defined.

(** ** The retry loop *)

Lemma retry_all_down env {A} op (serve : World -> Exc A * World) w :
  firestore_up env (fs_requests w) = false ->
  firestore_up env (1 + fs_requests w) = false ->
  firestore_up env (2 + fs_requests w) = false ->
  firestore_up env (3 + fs_requests w) = false ->
  retryWithBackoff (firestore_request env op serve) default_maxRetries
    default_delays w
  = (Throw ServiceError, after_requests 4 (four_requests op) w).
Proof.
  intros H0 H1 H2 H3.
  unfold retryWithBackoff, default_maxRetries, default_delays, retry_loop,
    firestore_request, sleep, log_event. simpl in *.
  rewrite H0. simpl. rewrite H1. simpl. rewrite H2. simpl. rewrite H3.
  unfold after_requests, four_requests. simpl.
  repeat rewrite <- app_assoc. reflexivity.
Qed.

Lemma after_requests_step k events e w :
  after_requests k events (after_requests 1 e w)
  = after_requests (S k) (e ++ events) w.
Proof.
  unfold after_requests. simpl. rewrite <- app_assoc. f_equal. lia.
Qed.

Lemma retry_loop_refused env {A} op (serve : World -> Exc A * World) maxRetries
  delays : forall remaining attempt lastError w,
  (forall i, i < remaining -> firestore_up env (i + fs_requests w) = false) ->
  retry_loop (firestore_request env op serve) maxRetries delays remaining attempt
    lastError w
  = (Throw (match remaining with O => lastError | S _ => ServiceError end),
     after_requests remaining
       (refused_requests op maxRetries delays remaining attempt) w).
Proof.
  induction remaining as [|remaining IH]; intros attempt lastError w Hdown.
  - simpl. unfold after_requests. rewrite app_nil_r. destruct w; reflexivity.
  - cbn [retry_loop refused_requests]. unfold firestore_request at 1.
    pose proof (Hdown 0 ltac:(lia)) as H0. simpl in H0. rewrite H0.
    set (pause := if attempt <? maxRetries
                  then [Sleep (retry_delay delays attempt)] else []).
    assert (Hw : (if attempt <? maxRetries
                  then sleep (retry_delay delays attempt)
                         (log_event (Firestore op)
                            {| db_assessments := db_assessments w;
                               db_users := db_users w;
                               fs_requests := S (fs_requests w);
                               stt_calls := stt_calls w;
                               chat_calls := chat_calls w;
                               clock_reads := clock_reads w;
                               trace := trace w |})
                  else log_event (Firestore op)
                         {| db_assessments := db_assessments w;
                            db_users := db_users w;
                            fs_requests := S (fs_requests w);
                            stt_calls := stt_calls w;
                            chat_calls := chat_calls w;
                            clock_reads := clock_reads w;
                            trace := trace w |})
                 = after_requests 1 (Firestore op :: pause) w).
    { subst pause. unfold after_requests, sleep, log_event.
      destruct (attempt <? maxRetries); simpl; rewrite <- ?app_assoc; reflexivity. }
    rewrite Hw. rewrite IH.
    + rewrite after_requests_step. f_equal.
      destruct remaining; reflexivity.
    + intros i Hi. simpl. specialize (Hdown (S i)).
      replace (i + S (fs_requests w)) with (S i + fs_requests w) by lia.
      apply Hdown. lia.
Qed.

Lemma retry_loop_served env {A} op (serve : World -> Exc A * World) maxRetries
  delays : forall k remaining attempt lastError w a w',
  k < remaining ->
  (forall i, i < k -> firestore_up env (i + fs_requests w) = false) ->
  firestore_up env (k + fs_requests w) = true ->
  serve (after_requests (S k)
           (refused_requests op maxRetries delays k attempt ++ [Firestore op]) w)
  = (Return a, w') ->
  retry_loop (firestore_request env op serve) maxRetries delays remaining attempt
    lastError w
  = (Return a, w').
Proof.
  induction k as [|k IH]; intros remaining attempt lastError w a w' Hk Hdown Hup Hs;
    (destruct remaining as [|remaining]; [lia|]).
  - cbn [retry_loop]. unfold firestore_request at 1. simpl in Hup. rewrite Hup.
    unfold after_requests in Hs. simpl in Hs. unfold log_event. simpl.
    rewrite Hs. reflexivity.
  - cbn [retry_loop]. unfold firestore_request at 1.
    pose proof (Hdown 0 ltac:(lia)) as H0. simpl in H0. rewrite H0.
    set (pause := if attempt <? maxRetries
                  then [Sleep (retry_delay delays attempt)] else []).
    match goal with
    | |- retry_loop _ _ _ _ _ _ ?w1 = _ =>
        assert (Hw : w1 = after_requests 1 (Firestore op :: pause) w)
    end.
    { subst pause. unfold after_requests, sleep, log_event.
      destruct (attempt <? maxRetries); simpl; rewrite <- ?app_assoc; reflexivity. }
    rewrite Hw. apply IH; [lia | | |].
    + intros i Hi. simpl. specialize (Hdown (S i)).
      replace (i + S (fs_requests w)) with (S i + fs_requests w) by lia.
      apply Hdown. lia.
    + simpl. replace (k + S (fs_requests w)) with (S k + fs_requests w) by lia.
      exact Hup.
    + rewrite after_requests_step. cbn [refused_requests] in Hs.
      subst pause. simpl in Hs |- *. rewrite <- app_assoc in Hs. exact Hs.
Qed.

Lemma validate_user_valid env u w :
  failed_keys (user_checks u) = [] ->
  exists doc w0,
    validate_user env u w = (inr doc, w0) /\
    telegramId doc = ud_telegramId u /\
    db_assessments w0 = db_assessments w /\ db_users w0 = db_users w /\
    fs_requests w0 = fs_requests w /\ trace w0 = trace w.
Proof.
  intros Hv. unfold validate_user. rewrite Hv.
  destruct (ud_createdAt u); simpl; eexists _, _; repeat split.
Qed.

Lemma validate_assessment_valid env a w :
  failed_keys (assessment_checks a) = [] ->
  exists mk w0,
    validate_assessment env a w = (inr mk, w0) /\
    (forall id, doc_id (mk id) = id /\ doc_userId (mk id) = a_userId a /\
                doc_score (mk id) = score_value (a_score a)) /\
    db_assessments w0 = db_assessments w /\ db_users w0 = db_users w /\
    fs_requests w0 = fs_requests w /\ trace w0 = trace w.
Proof.
  intros Hv. unfold validate_assessment. rewrite Hv.
  destruct (a_timestamp a); simpl; eexists _, _; repeat split.
Qed.

Lemma upsertUser_gave_up env u w :
  failed_keys (user_checks u) = [] ->
  firestore_up env (fs_requests w) = false ->
  firestore_up env (1 + fs_requests w) = false ->
  firestore_up env (2 + fs_requests w) = false ->
  firestore_up env (3 + fs_requests w) = false ->
  gave_up (upsertUser env u w) w (SetUser (ud_telegramId u))
    "Failed to save user data".
Proof.
  intros Hv H0 H1 H2 H3.
  destruct (validate_user_valid env u w Hv)
    as (doc & w0 & Hval & Hid & Ha & Hu & Hn & Ht).
  unfold gave_up, upsertUser, set_user. rewrite Hval.
  rewrite retry_all_down by (rewrite Hn; assumption).
  simpl. rewrite Hid, Ha, Hu, Ht. auto.
Qed.

Lemma storeAssessment_gave_up env a w :
  failed_keys (assessment_checks a) = [] ->
  firestore_up env (fs_requests w) = false ->
  firestore_up env (1 + fs_requests w) = false ->
  firestore_up env (2 + fs_requests w) = false ->
  firestore_up env (3 + fs_requests w) = false ->
  gave_up (storeAssessment env a w) w AddAssessment "Failed to save assessment".
Proof.
  intros Hv H0 H1 H2 H3.
  destruct (validate_assessment_valid env a w Hv)
    as (mk & w0 & Hval & _ & Ha & Hu & Hn & Ht).
  unfold gave_up, storeAssessment, add_assessment. rewrite Hval.
  rewrite retry_all_down by (rewrite Hn; assumption).
  simpl. rewrite Ha, Hu, Ht. auto.
Qed.

Lemma updateUserStats_gave_up env userId updates w :
  firestore_up env (fs_requests w) = false ->
  firestore_up env (1 + fs_requests w) = false ->
  firestore_up env (2 + fs_requests w) = false ->
  firestore_up env (3 + fs_requests w) = false ->
  gave_up (updateUserStats env userId updates w) w (UpdateUser userId)
    "Failed to update user statistics".
Proof.
  intros H0 H1 H2 H3. unfold gave_up, updateUserStats, update_user.
  rewrite retry_all_down by assumption. simpl. auto.
Qed.

Lemma retry_served env {A} op (serve : World -> Exc A * World) k w a w' :
  k <= default_maxRetries ->
  (forall i, i < k -> firestore_up env (i + fs_requests w) = false) ->
  firestore_up env (k + fs_requests w) = true ->
  serve (after_requests (S k)
           (refused_requests op default_maxRetries default_delays k 0
              ++ [Firestore op]) w)
  = (Return a, w') ->
  retryWithBackoff (firestore_request env op serve) default_maxRetries
    default_delays w
  = (Return a, w').
Proof.
  intros Hk Hdown Hup Hs. unfold retryWithBackoff.
  apply (retry_loop_served env op serve default_maxRetries default_delays k);
    [lia | exact Hdown | exact Hup | exact Hs].
Qed.

Lemma upsertUser_served_at env u w k :
  failed_keys (user_checks u) = [] ->
  k <= default_maxRetries ->
  (forall i, i < k -> firestore_up env (i + fs_requests w) = false) ->
  firestore_up env (k + fs_requests w) = true ->
  served_at k (upsertUser env u w) w (SetUser (ud_telegramId u)) /\
  exists doc, db_users (snd (upsertUser env u w)) !! ud_telegramId u = Some doc.
Proof.
  intros Hv Hk Hdown Hup.
  destruct (validate_user_valid env u w Hv)
    as (doc & w0 & Hval & Hid & Ha & Hu & Hn & Ht).
  unfold served_at, upsertUser, set_user. rewrite Hval.
  erewrite (retry_served env _ _ k);
    [| exact Hk | intros i Hi; rewrite Hn; auto | rewrite Hn; exact Hup
     | reflexivity].
  simpl. rewrite Hid, Ht. repeat split; eauto.
  exists doc. apply lookup_insert_eq.
Qed.

Lemma storeAssessment_served_at env a w k :
  failed_keys (assessment_checks a) = [] ->
  k <= default_maxRetries ->
  (forall i, i < k -> firestore_up env (i + fs_requests w) = false) ->
  firestore_up env (k + fs_requests w) = true ->
  served_at k (storeAssessment env a w) w AddAssessment /\
  exists doc,
    db_assessments (snd (storeAssessment env a w)) = db_assessments w ++ [doc] /\
    fst (storeAssessment env a w) = Success (doc_id doc) /\
    doc_userId doc = a_userId a /\ doc_score doc = score_value (a_score a).
Proof.
  intros Hv Hk Hdown Hup.
  destruct (validate_assessment_valid env a w Hv)
    as (mk & w0 & Hval & Hmk & Ha & Hu & Hn & Ht).
  unfold served_at, storeAssessment, add_assessment. rewrite Hval.
  erewrite (retry_served env _ _ k);
    [| exact Hk | intros i Hi; rewrite Hn; auto | rewrite Hn; exact Hup
     | reflexivity].
  simpl. rewrite Ha, Ht. repeat split; eauto.
  eexists. split; [reflexivity|].
  destruct (Hmk (auto_id env (length (db_assessments w)))) as (-> & -> & ->).
  auto.
Qed.

Lemma updateUserStats_served_at env userId updates w u k :
  db_users w !! userId = Some u ->
  k <= default_maxRetries ->
  (forall i, i < k -> firestore_up env (i + fs_requests w) = false) ->
  firestore_up env (k + fs_requests w) = true ->
  served_at k (updateUserStats env userId updates w) w (UpdateUser userId) /\
  db_users (snd (updateUserStats env userId updates w)) !! userId
  = Some (apply_updates updates u).
Proof.
  intros Hu Hk Hdown Hup. unfold served_at, updateUserStats, update_user.
  erewrite (retry_served env _ _ k);
    [| exact Hk | exact Hdown | exact Hup | simpl; rewrite Hu; reflexivity].
  simpl. repeat split; eauto. apply lookup_insert_eq.
Qed.

(** C1, as stated, fails: a write that never gets through is given up
    after four requests, not three. *)
Lemma C1_three_attempts_counterexample :
  result_code (fst (storeAssessment (demo_env 100) demo_assessment world0))
  = Some ERR_DATABASE_ERROR /\
  firestore_attempts
    (trace (snd (storeAssessment (demo_env 100) demo_assessment world0))) = 4 /\
  firestore_attempts
    (trace (snd (storeAssessment (demo_env 100) demo_assessment world0))) <> 3.
Proof. vm_compute. repeat split. discriminate. Qed.

(** C1 (amended): on valid data, when Firestore refuses four requests in
    a row, each of [upsertUser], [storeAssessment] and [updateUserStats]
    answers [ERR_DATABASE_ERROR] after exactly four attempts (the first and
    three retries) with delays of 100, 200 and 400 ms between them; when
    one of the four attempts is served (the first, or one after refused
    attempts and their delays) the write succeeds at that attempt and no
    error is returned.  The update of a profile is served when the profile
    exists. *)
Theorem C1_write_retry (env : Env) (w : World) (userData : UserData)
  (assessmentData : AssessmentData) (userId : string) (updates : UserUpdates) :
  failed_keys (user_checks userData) = [] ->
  failed_keys (assessment_checks assessmentData) = [] ->
  ((forall i, i <= 3 -> firestore_up env (i + fs_requests w) = false) ->
   unavailable (upsertUser env userData w) w (SetUser (ud_telegramId userData))
     "Failed to save user data" /\
   unavailable (storeAssessment env assessmentData w) w AddAssessment
     "Failed to save assessment" /\
   unavailable (updateUserStats env userId updates w) w (UpdateUser userId)
     "Failed to update user statistics") /\
  (forall k, k <= 3 ->
   (forall i, i < k -> firestore_up env (i + fs_requests w) = false) ->
   firestore_up env (k + fs_requests w) = true ->
   (served_at k (upsertUser env userData w) w (SetUser (ud_telegramId userData)) /\
    exists doc,
      db_users (snd (upsertUser env userData w)) !! ud_telegramId userData
      = Some doc) /\
   (served_at k (storeAssessment env assessmentData w) w AddAssessment /\
    exists doc,
      db_assessments (snd (storeAssessment env assessmentData w))
      = db_assessments w ++ [doc] /\
      fst (storeAssessment env assessmentData w) = Success (doc_id doc) /\
      doc_userId doc = a_userId assessmentData /\
      doc_score doc = score_value (a_score assessmentData)) /\
   (forall u, db_users w !! userId = Some u ->
      served_at k (updateUserStats env userId updates w) w (UpdateUser userId) /\
      db_users (snd (updateUserStats env userId updates w)) !! userId
      = Some (apply_updates updates u))).
Proof.
  intros Hvu Hva. split.
  - intros Hdown.
    pose proof (Hdown 0 ltac:(lia)) as H0. pose proof (Hdown 1 ltac:(lia)) as H1.
    pose proof (Hdown 2 ltac:(lia)) as H2. pose proof (Hdown 3 ltac:(lia)) as H3.
    split; [|split].
    + destruct (upsertUser_gave_up env userData w Hvu H0 H1 H2 H3) as (Hr & Ht & _).
      split; assumption.
    + destruct (storeAssessment_gave_up env assessmentData w Hva H0 H1 H2 H3)
        as (Hr & Ht & _).
      split; assumption.
    + destruct (updateUserStats_gave_up env userId updates w H0 H1 H2 H3)
        as (Hr & Ht & _).
      split; assumption.
  - intros k Hk Hdown Hup. split; [|split].
    + apply upsertUser_served_at; assumption.
    + apply storeAssessment_served_at; assumption.
    + intros u Hu. apply (updateUserStats_served_at env userId updates w u k);
        assumption.
Qed.

(** Firestore never served; served at the first request; served at the
    fourth, after the three delays. *)
Lemma C1_write_retry_witness :
  unavailable (storeAssessment (demo_env 100) demo_assessment world_with_user)
    world_with_user AddAssessment "Failed to save assessment" /\
  served_at 0 (storeAssessment (demo_env 0) demo_assessment world_with_user)
    world_with_user AddAssessment /\
  served_at 3 (upsertUser (demo_env 4) demo_user world_with_user)
    world_with_user (SetUser "42") /\
  db_users (snd (updateUserStats (demo_env 3) "42" demo_updates world_with_user))
    !! "42"
  = Some (apply_updates demo_updates demo_profile).
Proof.
  split; [|split; [|split]].
  - destruct (C1_write_retry (demo_env 100) world_with_user demo_user
                demo_assessment "42" demo_updates eq_refl eq_refl)
      as [Hdown _].
    destruct Hdown as (_ & H & _); [|exact H].
    intros i Hi. apply Nat.leb_gt. simpl. lia.
  - destruct (C1_write_retry (demo_env 0) world_with_user demo_user
                demo_assessment "42" demo_updates eq_refl eq_refl)
      as [_ Hup].
    destruct (Hup 0) as (_ & [H _] & _); [lia | intros i Hi; lia | reflexivity|].
    exact H.
  - destruct (C1_write_retry (demo_env 4) world_with_user demo_user
                demo_assessment "42" demo_updates eq_refl eq_refl)
      as [_ Hup].
    destruct (Hup 3) as ([H _] & _); [lia | | reflexivity | exact H].
    intros i Hi. apply Nat.leb_gt. simpl. lia.
  - destruct (C1_write_retry (demo_env 3) world_with_user demo_user
                demo_assessment "42" demo_updates eq_refl eq_refl)
      as [_ Hup].
    destruct (Hup 2) as (_ & _ & H); [lia | | reflexivity|].
    + intros i Hi. apply Nat.leb_gt. simpl. lia.
    + apply (H demo_profile). reflexivity.
Defined.

(** ** Properties of the orchestrator *)

Lemma validate_params_valid p :
  failed_keys (params_checks p) = [] ->
  exists v, validate_params p = inr v /\
            p_userId v = p_userId p /\ p_lessonDay v = p_lessonDay p /\
            p_targetLanguage v = p_targetLanguage p /\
            p_audioBuffer v = p_audioBuffer p /\
            p_lessonWords v = p_lessonWords p /\
            p_expectedAnswer v = p_expectedAnswer p.
Proof.
  intros Hv. unfold validate_params. rewrite Hv. eexists. repeat split.
Qed.

Lemma validate_params_inv p v :
  validate_params p = inr v ->
  failed_keys (params_checks p) = [] /\
  p_userId v = p_userId p /\ p_audioBuffer v = p_audioBuffer p /\
  p_targetLanguage v = p_targetLanguage p.
Proof.
  unfold validate_params. destruct (failed_keys (params_checks p)); [|discriminate].
  intros [= <-]. repeat split.
Qed.

(** C5, as stated, fails: with an empty recording and parameters that do
    not pass the schema the error is that of the schema, not "Audio buffer
    is empty". *)
Lemma C5_invalid_parameters_counterexample :
  length (p_audioBuffer params_without_words) = 0 /\
  fst (assessVoice (demo_env 0) params_without_words world_with_user)
  = Failure (JoiMessage ["lessonWords"%string]) ERR_INVALID_INPUT /\
  fst (assessVoice (demo_env 0) params_without_words world_with_user)
  <> Failure (Message "Audio buffer is empty") ERR_INVALID_INPUT.
Proof. vm_compute. repeat split. discriminate. Qed.

(** C5 (amended): with an audio buffer of length zero [assessVoice] fails
    under the code [ERR_INVALID_INPUT] and leaves the world as it was: no
    request to the transcription or the grading service, nothing stored.
    When the other parameters pass the schema the error is "Audio buffer is
    empty"; when they do not, it is the error of the schema, which names
    the parameters refused. *)
Theorem C5_empty_audio (env : Env) (params : AssessmentParams) (w : World) :
  length (p_audioBuffer params) = 0 ->
  snd (assessVoice env params w) = w /\
  fst (assessVoice env params w)
  = Failure
      match failed_keys (params_checks params) with
      | [] => Message "Audio buffer is empty"
      | keys => JoiMessage keys
      end
      ERR_INVALID_INPUT.
Proof.
  intros Hlen. unfold assessVoice, validate_params.
  destruct (failed_keys (params_checks params)) as [|key keys].
  - unfold transcribeAudio. cbn [p_audioBuffer p_targetLanguage]. rewrite Hlen.
    split; reflexivity.
  - split; reflexivity.
Qed.

(** An empty recording with parameters that pass the schema, and one
    without lesson words. *)
Lemma C5_empty_audio_witness :
  assessVoice (demo_env 0) (params_with_audio []) world_with_user
  = (Failure (Message "Audio buffer is empty") ERR_INVALID_INPUT, world_with_user)
  /\
  assessVoice (demo_env 0) params_without_words world_with_user
  = (Failure (JoiMessage ["lessonWords"%string]) ERR_INVALID_INPUT, world_with_user).
Proof.
  split.
  - destruct (C5_empty_audio (demo_env 0) (params_with_audio []) world_with_user)
      as (Hw & Hr); [reflexivity|].
    rewrite (surjective_pairing (assessVoice _ _ _)), Hw, Hr. reflexivity.
  - destruct (C5_empty_audio (demo_env 0) params_without_words world_with_user)
      as (Hw & Hr); [reflexivity|].
    rewrite (surjective_pairing (assessVoice _ _ _)), Hw, Hr. reflexivity.
Defined.

(** C6: when the transcription request fails and its one retry, made after
    a delay of 1000 ms, fails too, [assessVoice] answers
    [ERR_TRANSCRIPTION_FAILED]; the only effects are the two requests and
    the delay, Firestore is not contacted and no assessment is stored. *)
Theorem C6_transcription_failed (env : Env) (params : AssessmentParams)
  (w : World) :
  failed_keys (params_checks params) = [] ->
  length (p_audioBuffer params) <> 0 ->
  whisper_reply env (stt_calls w) = None ->
  whisper_reply env (S (stt_calls w)) = None ->
  fst (assessVoice env params w)
  = Failure (Message "Audio transcription failed") ERR_TRANSCRIPTION_FAILED /\
  trace (snd (assessVoice env params w))
  = trace w ++ [ Transcription (whisperLanguage (p_targetLanguage params));
                 Sleep (Some 1000%Z);
                 Transcription (whisperLanguage (p_targetLanguage params)) ] /\
  db_assessments (snd (assessVoice env params w)) = db_assessments w /\
  db_users (snd (assessVoice env params w)) = db_users w /\
  fs_requests (snd (assessVoice env params w)) = fs_requests w.
Proof.
  intros Hvalid Hlen H1 H2. unfold assessVoice.
  destruct (validate_params_valid params Hvalid)
    as (v & -> & _ & _ & -> & -> & _).
  unfold transcribeAudio.
  destruct (Nat.eqb_spec (length (p_audioBuffer params)) 0); [contradiction|].
  unfold retryOnce, whisper_request, sleep, log_event. rewrite H1. simpl.
  rewrite H2. simpl. repeat rewrite <- app_assoc. repeat split.
Qed.

(** A transcription service that never answers. *)
Lemma C6_transcription_failed_witness :
  fst (assessVoice deaf_env (params_with_audio [Byte.x01]) world_with_user)
  = Failure (Message "Audio transcription failed") ERR_TRANSCRIPTION_FAILED /\
  db_assessments
    (snd (assessVoice deaf_env (params_with_audio [Byte.x01]) world_with_user))
  = [].
Proof.
  destruct (C6_transcription_failed deaf_env (params_with_audio [Byte.x01])
              world_with_user) as (Hr & _ & Ha & _);
    [reflexivity | simpl; lia | reflexivity | reflexivity |].
  split; [exact Hr | exact Ha].
Defined.

(** *** What each service leaves of the collections *)

Lemma same_db_refl w : same_db w w.
Proof. split; reflexivity. Qed.

Lemma same_db_trans w1 w2 w3 : same_db w1 w2 -> same_db w2 w3 -> same_db w1 w3.
Proof. intros [Ha Hu] [Ha' Hu']. split; congruence. Qed.

(** A request that is refused, or that is served and throws, changes
    neither collection; the loop ends with the answer of a served request or
    gives up. *)
Lemma retry_loop_cases env {A} op (serve : World -> Exc A * World) :
  (forall w e w', serve w = (Throw e, w') -> same_db w w') ->
  forall remaining maxRetries delays attempt lastError w r w',
    retry_loop (firestore_request env op serve) maxRetries delays remaining
      attempt lastError w = (r, w') ->
    match r with
    | Throw _ => same_db w w'
    | Return a => exists w0, same_db w w0 /\ serve w0 = (Return a, w')
    end.
Proof.
  intros Hserve. induction remaining as [|remaining IH];
    intros maxRetries delays attempt lastError w r w' H; simpl in H.
  - inversion H; subst. apply same_db_refl.
  - unfold firestore_request at 1 in H.
    set (w1 := log_event (Firestore op) _) in H.
    assert (H1 : same_db w w1) by (split; reflexivity).
    destruct (firestore_up env (fs_requests w)).
    + destruct (serve w1) as [[a|e] w2] eqn:Es.
      * inversion H; subst. exists w1. auto.
      * apply IH in H. pose proof (Hserve _ _ _ Es) as H2.
        assert (H3 : same_db w
                       (if attempt <? maxRetries
                        then sleep (retry_delay delays attempt) w2 else w2)).
        { destruct (attempt <? maxRetries);
            [|exact (same_db_trans _ _ _ H1 H2)].
          destruct H1, H2. split; simpl; congruence. }
        destruct r as [a|e'].
        -- destruct H as (w0 & Hw0 & Hs). exists w0.
           split; [exact (same_db_trans _ _ _ H3 Hw0) | exact Hs].
        -- exact (same_db_trans _ _ _ H3 H).
    + apply IH in H.
      assert (H3 : same_db w
                     (if attempt <? maxRetries
                      then sleep (retry_delay delays attempt) w1 else w1)).
      { destruct (attempt <? maxRetries); [|exact H1].
        destruct H1. split; simpl; congruence. }
      destruct r as [a|e'].
      * destruct H as (w0 & Hw0 & Hs). exists w0.
        split; [exact (same_db_trans _ _ _ H3 Hw0) | exact Hs].
      * exact (same_db_trans _ _ _ H3 H).
Qed.

Lemma getUserAssessments_cases env userId limit w :
  same_db w (snd (getUserAssessments env userId limit w)) /\
  forall assessments,
    fst (getUserAssessments env userId limit w) = Success assessments ->
    assessments = run_query userId limit (db_assessments w).
Proof.
  unfold getUserAssessments, retryWithBackoff, query_assessments.
  destruct (retry_loop _ _ _ _ _ _ w) as [r w'] eqn:E.
  apply retry_loop_cases in E; [|intros ? ? ? [=]].
  destruct r as [a|e]; simpl.
  - destruct E as (w0 & Hw0 & [= <- <-]). split; [exact Hw0|].
    intros ? [= <-]. destruct Hw0 as [-> _]. reflexivity.
  - split; [exact E | discriminate].
Qed.

Lemma updateUserStats_cases env userId updates w :
  db_assessments (snd (updateUserStats env userId updates w)) = db_assessments w /\
  (db_users (snd (updateUserStats env userId updates w)) = db_users w \/
   exists u, db_users w !! userId = Some u /\
             fst (updateUserStats env userId updates w) = Success tt /\
             db_users (snd (updateUserStats env userId updates w))
             = <[userId := apply_updates updates u]> (db_users w)).
Proof.
  unfold updateUserStats, retryWithBackoff, update_user.
  destruct (retry_loop _ _ _ _ _ _ w) as [r w'] eqn:E.
  apply retry_loop_cases in E.
  - destruct r as [a|e]; simpl.
    + destruct E as (w0 & [Ha Hu] & Hs).
      destruct (db_users w0 !! userId) as [u|] eqn:Eu; [|discriminate].
      inversion Hs; subst. simpl. split; [exact Ha|]. right.
      exists u. rewrite <- Hu. auto.
    + destruct E as [Ha Hu]. auto.
  - intros w0 e w1. destruct (db_users w0 !! userId); [discriminate|].
    intros [= _ <-]. apply same_db_refl.
Qed.

Lemma failed_keys_nil checks :
  failed_keys checks = [] -> forall k b, In (k, b) checks -> b = true.
Proof.
  unfold failed_keys. induction checks as [|[k0 b0] checks IH]; simpl;
    [tauto|].
  destruct b0; simpl; [|discriminate].
  intros H k b [[= <- <-]|Hin]; [reflexivity | eauto].
Qed.

Lemma storeAssessment_cases env a w :
  db_users (snd (storeAssessment env a w)) = db_users w /\
  (forall error code,
     fst (storeAssessment env a w) = Failure error code ->
     db_assessments (snd (storeAssessment env a w)) = db_assessments w) /\
  (forall id,
     fst (storeAssessment env a w) = Success id ->
     exists doc,
       db_assessments (snd (storeAssessment env a w)) = db_assessments w ++ [doc] /\
       doc_id doc = id /\ doc_userId doc = a_userId a /\
       doc_score doc = score_value (a_score a) /\
       valid_score (a_score a) = true).
Proof.
  unfold storeAssessment, validate_assessment.
  set (sw := match a_timestamp a with Some t => (t, w) | None => new_Date env w end).
  assert (Hsw : same_db w (snd sw)) by (subst sw; destruct (a_timestamp a); split; reflexivity).
  destruct sw as [stamp w0]. simpl in Hsw. destruct Hsw as [Ha Hu].
  destruct (failed_keys (assessment_checks a)) as [|k keys] eqn:Ev.
  - unfold retryWithBackoff, add_assessment.
    destruct (retry_loop _ _ _ _ _ _ w0) as [r w'] eqn:E.
    apply retry_loop_cases in E; [|intros ? ? ? [=]].
    destruct r as [id|e]; simpl.
    + destruct E as (w1 & [Ha1 Hu1] & [= <- <-]). simpl.
      split; [congruence|]. split; [discriminate|].
      intros ? [= <-]. eexists. split; [rewrite Ha1, Ha; reflexivity|].
      simpl. split; [congruence|]. repeat split.
      apply (failed_keys_nil _ Ev "score"). simpl. tauto.
    + destruct E as [Ha1 Hu1]. split; [congruence|].
      split; [intros; congruence | discriminate].
  - simpl. split; [exact Hu|]. split; [intros; exact Ha | discriminate].
Qed.

Lemma retryOnce_same_db {A} (fn : Async A) delay w :
  (forall w0, same_db w0 (snd (fn w0))) ->
  same_db w (snd (retryOnce fn delay w)).
Proof.
  intros Hfn. unfold retryOnce. pose proof (Hfn w) as H1.
  destruct (fn w) as [[a|e] w1]; simpl in *; [exact H1|].
  eapply same_db_trans; [|apply Hfn].
  destruct H1. split; simpl; congruence.
Qed.

Lemma transcribeAudio_same_db env audio language w :
  same_db w (snd (transcribeAudio env audio language w)).
Proof.
  unfold transcribeAudio. destruct (length audio =? 0); [apply same_db_refl|].
  pose proof (retryOnce_same_db (whisper_request env (whisperLanguage language))
                1000 w) as H.
  destruct (retryOnce _ _ w) as [[a|e] w1]; apply H; intros w0;
    unfold whisper_request; destruct (whisper_reply env (stt_calls w0));
    split; reflexivity.
Qed.

Lemma gradeTranscript_same_db env transcript target native lessonWords expected w :
  same_db w (snd (gradeTranscript env transcript target native lessonWords
                    expected w)).
Proof.
  unfold gradeTranscript.
  pose proof (retryOnce_same_db
                (chat_request env (grading_prompt transcript target native
                                     lessonWords expected)) 1000 w) as H.
  destruct (retryOnce _ _ w) as [[a|e] w1]; apply H; intros w0;
    unfold chat_request; destruct (chat_reply env (chat_calls w0));
    split; reflexivity.
Qed.

Lemma calculateStreak_same_db env userId newAssessmentDate w :
  same_db w (snd (calculateStreak env userId newAssessmentDate w)).
Proof.
  unfold calculateStreak.
  destruct (getUserAssessments_cases env userId 100 w) as [H _].
  destruct (getUserAssessments env userId 100 w) as [[assessments|error code] w1];
    simpl in *; [|exact H].
  destruct (length assessments =? 0); exact H.
Qed.

(** Step 5 never touches the assessments; it leaves the profiles as they
    were, or writes into the profile of the user the rounded average of the
    scores it has read and a streak. *)
Lemma update_statistics_cases env userId w :
  db_assessments (update_statistics env userId w) = db_assessments w /\
  (db_users (update_statistics env userId w) = db_users w \/
   exists u streak,
     db_users w !! userId = Some u /\
     db_users (update_statistics env userId w)
     = <[userId :=
           apply_updates
             (statistics
                (round_tenth
                   (average_score
                      (run_query userId default_limit (db_assessments w))))
                streak) u]> (db_users w)).
Proof.
  unfold update_statistics.
  destruct (getUserAssessments_cases env userId default_limit w) as [[Ha Hu] Hq].
  destruct (getUserAssessments env userId default_limit w)
    as [[allAssessments|error code] w1]; simpl in *; [|auto].
  rewrite (Hq _ eq_refl).
  set (now := clock env (clock_reads w1)).
  set (w2 := {| db_assessments := db_assessments w1; db_users := db_users w1;
                fs_requests := fs_requests w1; stt_calls := stt_calls w1;
                chat_calls := chat_calls w1; clock_reads := S (clock_reads w1);
                trace := trace w1 |}).
  destruct (calculateStreak_same_db env userId now w2) as [Ha3 Hu3].
  destruct (calculateStreak env userId now w2) as [streak w3]. simpl in *.
  fold (statistics (round_tenth (average_score
                      (run_query userId default_limit (db_assessments w)))) streak).
  destruct (updateUserStats_cases env userId
              (statistics (round_tenth (average_score
                 (run_query userId default_limit (db_assessments w)))) streak) w3)
    as [Ha4 [Hu4|(u & Hlook & _ & Hu4)]].
  - split; [congruence|]. left. congruence.
  - split; [congruence|]. right. exists u, streak.
    rewrite Hu4. rewrite Hu3, Hu in *. auto.
Qed.

(** What a successful [assessVoice] has done before step 5. *)
Lemma assessVoice_success env params w out w' :
  assessVoice env params w = (Success out, w') ->
  exists w4 doc,
    db_users w4 = db_users w /\
    db_assessments w4 = db_assessments w ++ [doc] /\
    doc_userId doc = p_userId params /\
    doc_id doc = assessmentId out /\
    o_score out = Int (doc_score doc) /\
    w' = update_statistics env (p_userId params) w4.
Proof.
  unfold assessVoice.
  destruct (validate_params params) as [keys|v] eqn:Ev; [discriminate|].
  destruct (validate_params_inv _ _ Ev) as (_ & Hid & _ & _).
  pose proof (transcribeAudio_same_db env (p_audioBuffer v) (p_targetLanguage v) w)
    as [Ha1 Hu1].
  destruct (transcribeAudio env _ _ w) as [[transcript|e c] w1]; [|discriminate].
  pose proof (gradeTranscript_same_db env transcript (p_targetLanguage v)
                (default "he" (p_nativeLanguage v)) (p_lessonWords v)
                (p_expectedAnswer v) w1) as [Ha2 Hu2].
  destruct (gradeTranscript env _ _ _ _ _ w1) as [[llmResponse|e c] w2];
    [|discriminate].
  simpl in *. set (graded := parseGradingResponse llmResponse).
  set (data := assessment_data v transcript graded _).
  set (w3 := {| db_assessments := db_assessments w2 |}).
  destruct (storeAssessment_cases env data w3) as (Hu4 & _ & Hok).
  destruct (storeAssessment env data w3) as [[id|e c] w4]; [|discriminate].
  intros [= <- <-]. destruct (Hok id eq_refl) as (doc & Ha4 & Hd1 & Hd2 & Hd3 & Hv).
  exists w4, doc. simpl in *. rewrite Hid in *.
  repeat split; try congruence.
  destruct (score graded) as [|z]; [discriminate | simpl in Hd3; congruence].
Qed.

(** *** The average *)

Lemma fold_left_scores l : forall acc,
  fold_left (fun sum a => (sum + doc_score a)%Z) l acc
  = (acc + fold_right Z.add 0%Z (map doc_score l))%Z.
Proof.
  induction l as [|d l IH]; simpl; intros acc; [lia|]. rewrite IH. lia.
Qed.

Lemma insert_by_timestamp_sum d l :
  fold_right Z.add 0%Z (map doc_score (insert_by_timestamp d l))
  = (doc_score d + fold_right Z.add 0%Z (map doc_score l))%Z /\
  length (insert_by_timestamp d l) = S (length l).
Proof.
  induction l as [|x l [IHs IHl]]; simpl; [auto|].
  destruct (doc_timestamp x <? doc_timestamp d)%Z; simpl; [auto|].
  rewrite IHs, IHl. split; [lia | reflexivity].
Qed.

Lemma order_by_timestamp_sum l :
  fold_right Z.add 0%Z (map doc_score (order_by_timestamp_desc l))
  = fold_right Z.add 0%Z (map doc_score l) /\
  length (order_by_timestamp_desc l) = length l.
Proof.
  induction l as [|d l [IHs IHl]]; simpl; [auto|].
  destruct (insert_by_timestamp_sum d (order_by_timestamp_desc l)) as [Hs Hl].
  rewrite Hs, Hl, IHs, IHl. auto.
Qed.

Lemma run_query_all userId limit docs :
  length (user_docs userId docs) <= limit ->
  run_query userId limit docs = order_by_timestamp_desc (user_docs userId docs).
Proof.
  intros H. unfold run_query. apply firstn_all2.
  fold (user_docs userId docs).
  rewrite (proj2 (order_by_timestamp_sum _)). exact H.
Qed.

(** The average of step 5 is the arithmetic mean of all the scores of the
    user, as long as the query returns them all. *)
Lemma average_score_query userId docs :
  user_docs userId docs <> [] ->
  length (user_docs userId docs) <= default_limit ->
  average_score (run_query userId default_limit docs)
  = Num (arithmetic_mean (map doc_score (user_docs userId docs))).
Proof.
  intros Hne Hlen. rewrite (run_query_all _ _ _ Hlen).
  unfold average_score, arithmetic_mean.
  destruct (order_by_timestamp_sum (user_docs userId docs)) as [Hs Hl].
  rewrite fold_left_scores, Hs, Hl, length_map. simpl.
  destruct (user_docs userId docs); [congruence | reflexivity].
Qed.

Lemma retry_first_up env {A} op (serve : World -> Exc A * World) w a w' :
  firestore_up env (fs_requests w) = true ->
  serve (after_requests 1 [Firestore op] w) = (Return a, w') ->
  retryWithBackoff (firestore_request env op serve) default_maxRetries
    default_delays w
  = (Return a, w').
Proof.
  intros H0 Hs.
  unfold retryWithBackoff, default_maxRetries, retry_loop, firestore_request,
    log_event. simpl in *. rewrite H0.
  unfold after_requests in Hs. simpl in Hs. rewrite Hs. reflexivity.
Qed.

(** With Firestore at hand and a profile to update, step 5 writes. *)
Lemma update_statistics_writes env userId w u :
  (forall n, firestore_up env n = true) ->
  db_users w !! userId = Some u ->
  exists streak,
    db_users (update_statistics env userId w)
    = <[userId :=
          apply_updates
            (statistics
               (round_tenth
                  (average_score
                     (run_query userId default_limit (db_assessments w))))
               streak) u]> (db_users w).
Proof.
  intros Hup Hu. unfold update_statistics, getUserAssessments, query_assessments.
  erewrite retry_first_up; [|apply Hup | reflexivity].
  unfold new_Date. simpl.
  set (w2 := {| db_assessments := db_assessments w |}).
  unfold calculateStreak, getUserAssessments, query_assessments.
  erewrite retry_first_up; [|apply Hup | reflexivity].
  set (streak := if length _ =? 0 then _ else _).
  exists (fst streak).
  assert (Hw3 : snd streak = after_requests 1 [Firestore (QueryAssessments userId 100)] w2)
    by (subst streak; destruct (length _ =? 0); reflexivity).
  rewrite (surjective_pairing streak), Hw3.
  unfold updateUserStats, update_user.
  erewrite retry_first_up; [|apply Hup | simpl; rewrite Hu; reflexivity].
  reflexivity.
Qed.

(** C3, as stated, fails: after the third assessment (scores 80, 80 and
    85) the profile holds 81.7, which is not the arithmetic mean 245/3. *)
Lemma C3_rounded_counterexample :
  map doc_score
    (user_docs "42"
       (db_assessments
          (snd (assessVoice (demo_env 0) (params_with_audio [Byte.x01])
                  world_two_assessments))))
  = [80; 80; 85]%Z /\
  avgScore <$>
    (db_users
       (snd (assessVoice (demo_env 0) (params_with_audio [Byte.x01])
               world_two_assessments)) !! "42")
  = Some (Num (817 # 10)) /\
  ~ (817 # 10 == arithmetic_mean [80; 80; 85]%Z).
Proof.
  split; [vm_compute; reflexivity|]. split; [vm_compute; reflexivity|].
  vm_compute. discriminate.
Qed.

(** C3 (amended): a successful [assessVoice] appends the new record and
    then either leaves the profiles as they were (the history could not be
    read, or the update did not get through), or writes into the profile
    of the user the arithmetic mean of all the stored scores of that user,
    computed from the records and rounded to one decimal place - for a user
    with at most 50 stored assessments; when Firestore serves every request
    and the profile exists, the value is written. *)
Theorem C3_average_recomputed (env : Env) (params : AssessmentParams)
  (w w' : World) (out : AssessmentOutcome) :
  assessVoice env params w = (Success out, w') ->
  length (user_docs (p_userId params) (db_assessments w')) <= 50 ->
  (exists doc, db_assessments w' = db_assessments w ++ [doc] /\
               doc_userId doc = p_userId params /\
               o_score out = Int (doc_score doc)) /\
  (db_users w' = db_users w \/
   exists u streak,
     db_users w !! p_userId params = Some u /\
     db_users w'
     = <[p_userId params :=
           apply_updates
             (statistics
                (Num (one_decimal
                        (arithmetic_mean
                           (map doc_score
                              (user_docs (p_userId params) (db_assessments w'))))))
                streak) u]> (db_users w)) /\
  ((forall n, firestore_up env n = true) ->
   forall u, db_users w !! p_userId params = Some u ->
   avgScore <$> (db_users w' !! p_userId params)
   = Some (Num (one_decimal
                  (arithmetic_mean
                     (map doc_score
                        (user_docs (p_userId params) (db_assessments w'))))))).
Proof.
  intros Hrun Hlen.
  destruct (assessVoice_success _ _ _ _ _ Hrun)
    as (w4 & doc & Hu4 & Ha4 & Hd1 & Hd2 & Hd3 & ->).
  destruct (update_statistics_cases env (p_userId params) w4) as [Ha5 Hu5].
  rewrite Ha5 in *.
  assert (Hne : user_docs (p_userId params) (db_assessments w4) <> []).
  { rewrite Ha4. unfold user_docs. rewrite List.filter_app. simpl.
    rewrite Hd1, String.eqb_refl. intros H. apply app_eq_nil in H.
    destruct H. discriminate. }
  split; [exists doc; auto|]. split.
  - destruct Hu5 as [Hu5|(u & streak & Hlook & Hu5)]; [left; congruence|].
    right. exists u, streak. rewrite <- Hu4. split; [exact Hlook|].
    rewrite Hu5. rewrite average_score_query; [reflexivity | exact Hne | exact Hlen].
  - intros Hup u Hu. rewrite <- Hu4 in Hu.
    destruct (update_statistics_writes env _ w4 u Hup Hu) as [streak ->].
    rewrite lookup_insert_eq. simpl.
    rewrite average_score_query; [reflexivity | exact Hne | exact Hlen].
Qed.

(** The third assessment of user 42, with Firestore at hand. *)
Lemma C3_average_recomputed_witness :
  exists u streak,
    db_users
      (snd (assessVoice (demo_env 0) (params_with_audio [Byte.x01])
              world_two_assessments))
    = <["42" := apply_updates
                  (statistics (Num (one_decimal (arithmetic_mean [80; 80; 85]%Z)))
                     streak) u]> (db_users world_two_assessments).
Proof.
  destruct (C3_average_recomputed (demo_env 0) (params_with_audio [Byte.x01])
              world_two_assessments
              (snd (assessVoice (demo_env 0) (params_with_audio [Byte.x01])
                      world_two_assessments))
              {| assessmentId := "C"; o_score := Int 85;
                 o_transcript := txt "hello my name is Dana";
                 o_feedback := txt "Great job!";
                 o_strengths := [txt "clarity"; txt "pace"];
                 o_weakAreas := [txt "grammar"] |})
    as (_ & [Hsame|(u & streak & _ & Hu)] & _).
  - vm_compute. reflexivity.
  - vm_compute. lia.
  - exfalso. apply (f_equal (fun m => avgScore <$> (m !! "42"))) in Hsame.
    vm_compute in Hsame. discriminate.
  - exists u, streak. exact Hu.
Defined.

Lemma updateUserStats_failed env userId updates w error code :
  fst (updateUserStats env userId updates w) = Failure error code ->
  same_db w (snd (updateUserStats env userId updates w)).
Proof.
  intros Hf. destruct (updateUserStats_cases env userId updates w)
    as [Ha [Hu|(u & _ & Hok & _)]]; [split; assumption | congruence].
Qed.

(** C10: once validation, transcription, grading and the store of the
    record have succeeded, [assessVoice] answers with success and the id,
    score, transcript, feedback, strengths and weak areas, whatever happens
    in the statistics step, and the record stays stored.  When the history
    cannot be read the step ends there, with the profiles untouched; when it
    can, the world is the one the profile update leaves, whether that update
    succeeded or not, and a failed update has changed no profile. *)
Theorem C10_success_despite_statistics (env : Env) (params v : AssessmentParams)
  (w w1 w2 w4 : World) (transcript : Text) (llmResponse : JsValue)
  (id : string) :
  validate_params params = inr v ->
  transcribeAudio env (p_audioBuffer v) (p_targetLanguage v) w
  = (Success transcript, w1) ->
  gradeTranscript env transcript (p_targetLanguage v)
    (default "he" (p_nativeLanguage v)) (p_lessonWords v) (p_expectedAnswer v) w1
  = (Success llmResponse, w2) ->
  storeAssessment env
    (assessment_data v transcript (parseGradingResponse llmResponse)
       (fst (new_Date env w2)))
    (snd (new_Date env w2))
  = (Success id, w4) ->
  fst (assessVoice env params w)
  = Success {| assessmentId := id;
               o_score := score (parseGradingResponse llmResponse);
               o_transcript := transcript;
               o_feedback := feedback (parseGradingResponse llmResponse);
               o_strengths := strengths (parseGradingResponse llmResponse);
               o_weakAreas := weakAreas (parseGradingResponse llmResponse) |} /\
  db_assessments (snd (assessVoice env params w)) = db_assessments w4 /\
  (forall error code w5,
     getUserAssessments env (p_userId v) default_limit w4
     = (Failure error code, w5) ->
     snd (assessVoice env params w) = w5 /\ db_users w5 = db_users w4) /\
  (forall allAssessments w5,
     getUserAssessments env (p_userId v) default_limit w4
     = (Success allAssessments, w5) ->
     let now := fst (new_Date env w5) in
     let streak := fst (calculateStreak env (p_userId v) now (snd (new_Date env w5))) in
     let w7 := snd (calculateStreak env (p_userId v) now (snd (new_Date env w5))) in
     let update :=
       updateUserStats env (p_userId v)
         (statistics (round_tenth (average_score allAssessments)) streak) w7 in
     snd (assessVoice env params w) = snd update /\
     (forall error code, fst update = Failure error code ->
        db_users (snd (assessVoice env params w)) = db_users w4)).
Proof.
  intros Hv Ht Hg Hs. unfold assessVoice. rewrite Hv, Ht, Hg.
  rewrite (surjective_pairing (new_Date env w2)), Hs. simpl.
  split; [reflexivity|].
  split; [apply update_statistics_cases|]. split.
  - intros error code w5 Hq. unfold update_statistics. rewrite Hq.
    split; [reflexivity|].
    pose proof (getUserAssessments_cases env (p_userId v) default_limit w4) as [[_ H] _].
    rewrite Hq in H. exact H.
  - intros allAssessments w5 Hq. unfold update_statistics. rewrite Hq.
    rewrite (surjective_pairing (new_Date env w5)).
    rewrite (surjective_pairing (calculateStreak env _ _ _)).
    split; [reflexivity|]. intros error code Hf.
    destruct (updateUserStats_failed _ _ _ _ _ _ Hf) as [_ H1].
    destruct (calculateStreak_same_db env (p_userId v)
                (fst (new_Date env w5)) (snd (new_Date env w5))) as [_ H2].
    pose proof (getUserAssessments_cases env (p_userId v) default_limit w4) as [[_ H3] _].
    rewrite Hq in H3. simpl in H3.
    etransitivity; [exact H1|]. etransitivity; [exact H2|]. exact H3.
Qed.

(** Firestore fails right after the record is stored: the answer is the
    success, and the profile is as before. *)
Lemma C10_success_despite_statistics_witness :
  fst (assessVoice (failing_env 2) (params_with_audio [Byte.x01]) world_with_user)
  = Success {| assessmentId := "A"; o_score := Int 85;
               o_transcript := txt "hello my name is Dana";
               o_feedback := txt "Great job!";
               o_strengths := [txt "clarity"; txt "pace"];
               o_weakAreas := [txt "grammar"] |} /\
  db_users
    (snd (assessVoice (failing_env 2) (params_with_audio [Byte.x01])
            world_with_user))
  = db_users world_with_user.
Proof.
  pose (env := failing_env 2).
  pose (v := {| p_userId := "42"; p_lessonDay := 1; p_targetLanguage := "en";
                p_audioBuffer := [Byte.x01]; p_lessonWords := [demo_word];
                p_expectedAnswer := txt "Introduce yourself";
                p_nativeLanguage := Some "he" |}).
  pose (t := transcribeAudio env [Byte.x01] "en" world_with_user).
  pose (g := gradeTranscript env (txt "hello my name is Dana") "en" "he"
               [demo_word] (txt "Introduce yourself") (snd t)).
  pose (st := storeAssessment env
                (assessment_data v (txt "hello my name is Dana")
                   (parseGradingResponse (JsString sample_response))
                   (fst (new_Date env (snd g))))
                (snd (new_Date env (snd g)))).
  destruct (C10_success_despite_statistics env (params_with_audio [Byte.x01]) v
              world_with_user (snd t) (snd g) (snd st)
              (txt "hello my name is Dana") (JsString sample_response) "A")
    as (Hr & _ & Hread & _);
    [vm_compute; reflexivity .. |].
  split; [exact Hr|].
  destruct (Hread (Message "Failed to retrieve assessments") ERR_DATABASE_ERROR
              (snd (getUserAssessments env "42" default_limit (snd st))))
    as [H1 _]; [vm_compute; reflexivity|].
  unfold env in H1. rewrite H1. vm_compute. reflexivity.
Defined.

(** ** The streak *)

Lemma existsb_eqb_In x s : existsb (Z.eqb x) s = true <-> In x s.
Proof.
  rewrite existsb_exists. split.
  - intros (y & Hy & He). apply Z.eqb_eq in He. congruence.
  - intros H. exists x. split; [exact H | apply Z.eqb_refl].
Qed.

Lemma set_add_In x s y : In y (set_add x s) <-> y = x \/ In y s.
Proof.
  unfold set_add. destruct (existsb (Z.eqb x) s) eqn:E.
  - apply existsb_eqb_In in E. split; [auto | intros [->|H]; assumption].
  - rewrite in_app_iff. simpl. intuition.
Qed.

Lemma distinct_snoc s x : distinct s -> ~ In x s -> distinct (s ++ [x]).
Proof.
  induction s as [|y s IH]; simpl; [tauto|].
  intros [Hy Hs] Hx. split; [|apply IH; tauto].
  rewrite in_app_iff. simpl. intuition.
Qed.

Lemma set_add_distinct x s : distinct s -> distinct (set_add x s).
Proof.
  intros Hs. unfold set_add. destruct (existsb (Z.eqb x) s) eqn:E; [exact Hs|].
  apply distinct_snoc; [exact Hs|]. intros H. apply existsb_eqb_In in H. congruence.
Qed.

Lemma fold_set_add (f : Z -> Z) ts : forall s0,
  distinct s0 ->
  distinct (fold_left (fun s t => set_add (f t) s) ts s0) /\
  forall y, In y (fold_left (fun s t => set_add (f t) s) ts s0)
            <-> In y s0 \/ In y (map f ts).
Proof.
  induction ts as [|t ts IH]; simpl; intros s0 Hs0; [intuition|].
  destruct (IH (set_add (f t) s0) (set_add_distinct _ _ Hs0)) as [Hd Hin].
  split; [exact Hd|]. intros y. rewrite Hin, set_add_In. intuition.
Qed.

Lemma unique_dates_spec ts a :
  distinct (unique_dates ts a) /\
  forall y, In y (unique_dates ts a)
            <-> y = date_string a \/ In y (map date_string ts).
Proof.
  unfold unique_dates.
  destruct (fold_set_add date_string ts [] I) as [Hd Hin].
  split; [apply set_add_distinct, Hd|].
  intros y. rewrite set_add_In, Hin. simpl. intuition.
Qed.

Lemma insert_sorted_In x l y : In y (insert_sorted x l) <-> y = x \/ In y l.
Proof.
  induction l as [|z l IH]; simpl; [intuition|].
  destruct (x <=? z)%Z; simpl; [intuition|]. rewrite IH. intuition.
Qed.

Lemma insert_sorted_ascending x l :
  ascending l -> ~ In x l -> ascending (insert_sorted x l).
Proof.
  induction l as [|z l IH]; simpl; [intuition|].
  intros [Hz Hl] Hx. destruct (Z.leb_spec x z); simpl.
  - split; [|auto]. intros y [<-|Hy]; [lia|]. specialize (Hz y Hy). lia.
  - split; [|apply IH; tauto].
    intros y Hy. apply insert_sorted_In in Hy. destruct Hy as [->|Hy]; auto.
Qed.

Lemma array_sort_spec l :
  distinct l ->
  ascending (array_sort l) /\ forall y, In y (array_sort l) <-> In y l.
Proof.
  induction l as [|x l IH]; simpl; [intuition|].
  intros [Hx Hl]. destruct (IH Hl) as [Ha Hin]. split.
  - apply insert_sorted_ascending; [exact Ha | rewrite Hin; exact Hx].
  - intros y. rewrite insert_sorted_In, Hin. intuition.
Qed.

Lemma descending_snoc l x :
  descending l -> (forall y, In y l -> (x < y)%Z) -> descending (l ++ [x]).
Proof.
  induction l as [|z l IH]; simpl; [intuition|].
  intros [Hz Hl] Hx. split; [|apply IH; auto].
  intros y Hy. apply in_app_iff in Hy. destruct Hy as [Hy|[<-|[]]]; auto.
Qed.

Lemma rev_descending l : ascending l -> descending (rev l).
Proof.
  induction l as [|x l IH]; simpl; [tauto|].
  intros [Hx Hl]. apply descending_snoc; [auto|].
  intros y Hy. apply in_rev in Hy. auto.
Qed.

Lemma date_difference x y :
  ((date_of_string x - date_of_string y) / MS_PER_DAY = x - y)%Z.
Proof.
  unfold date_of_string. rewrite <- Z.mul_sub_distr_r.
  apply Z.div_mul. discriminate.
Qed.

Lemma streak_loop_cons x y l acc :
  streak_loop (x :: y :: l) acc
  = if ((date_of_string x - date_of_string y) / MS_PER_DAY =? 1)%Z
    then streak_loop (y :: l) (acc + 1)%Z
    else acc.
Proof. reflexivity. Qed.

(** On dates in descending order the loop counts the days that follow
    each other from the first date on. *)
Lemma streak_loop_spec l : forall x m acc,
  l = x :: m -> descending l ->
  (0 <= streak_loop l acc - acc)%Z /\
  (forall i, (0 <= i <= streak_loop l acc - acc)%Z -> In (x - i)%Z l) /\
  ~ In (x - (streak_loop l acc - acc) - 1)%Z l.
Proof.
  induction l as [|x0 l IH]; intros x m acc [= <- <-] [Hx Hl].
  destruct l as [|y l].
  - simpl. rewrite Z.sub_diag. split; [lia|]. split.
    + intros i Hi. left. lia.
    + intros [H|[]]. lia.
  - rewrite streak_loop_cons, date_difference.
    destruct (Z.eqb_spec (x0 - y) 1) as [E|E].
    + destruct (IH y l (acc + 1)%Z eq_refl Hl) as (H0 & Hin & Hout).
      remember (streak_loop (y :: l) (acc + 1)) as s eqn:Es. clear Es.
      split; [lia|]. split.
      * intros i Hi. destruct (Z.eq_dec i 0%Z) as [->|Hne]; [left; lia|].
        right. replace (x0 - i)%Z with (y - (i - 1))%Z by lia. apply Hin. lia.
      * intros [H|H]; [lia|]. apply Hout.
        replace (y - (s - (acc + 1)) - 1)%Z with (x0 - (s - acc) - 1)%Z by lia.
        exact H.
    + rewrite Z.sub_diag. split; [lia|]. split.
      * intros i Hi. left. lia.
      * intros [H|[H|H]]; [lia | lia |].
        destruct Hl as [Hy _]. specialize (Hy _ H).
        specialize (Hx y (or_introl eq_refl)). lia.
Qed.

(** The streak: the number of days in a row, counted back from the latest
    known date, on which there is a known date. *)
Lemma streak_of_spec ts a :
  let known d := d = date_string a \/ In d (map date_string ts) in
  exists top,
    known top /\ (forall d, known d -> (d <= top)%Z) /\
    (1 <= streak_of ts a)%Z /\
    (forall i, (0 <= i < streak_of ts a)%Z -> known (top - i)%Z) /\
    ~ known (top - streak_of ts a)%Z.
Proof.
  intros known. unfold streak_of.
  destruct (unique_dates_spec ts a) as [Hd Hin].
  destruct (array_sort_spec _ Hd) as [Ha Hin'].
  pose proof (rev_descending _ Ha) as Hdesc.
  assert (Hl : forall y, In y (rev (array_sort (unique_dates ts a))) <-> known y).
  { intros y. rewrite <- in_rev, Hin', Hin. reflexivity. }
  destruct (rev (array_sort (unique_dates ts a))) as [|top m] eqn:El.
  - exfalso. apply (proj2 (Hl (date_string a))). left. reflexivity.
  - destruct (streak_loop_spec _ top m 1%Z eq_refl Hdesc) as (H0 & Hrun & Hgap).
    exists top. split; [apply Hl; left; reflexivity|]. split.
    + intros d Hk. apply Hl in Hk. destruct Hk as [->|Hk]; [lia|].
      destruct Hdesc as [Hlt _]. specialize (Hlt d Hk). lia.
    + split; [lia|]. split.
      * intros i Hi. apply Hl, Hrun. lia.
      * intros Hk. apply Hgap. apply Hl.
        replace (top - (streak_loop (top :: m) 1 - 1) - 1)%Z
          with (top - streak_loop (top :: m) 1)%Z by lia.
        exact Hk.
Qed.

(** C4, as stated, fails: the assessments of the user fall on the days 9
    and 10, two days in a row ending on the date asked for, but only the
    100 most recent ones are read and the streak returned is 1. *)
Lemma C4_limit_counterexample :
  nodup Z.eq_dec
    (map (fun a => date_string (doc_timestamp a))
       (user_docs "42" (db_assessments busy_world))) = [9; 10]%Z /\
  streak_of (map doc_timestamp (user_docs "42" (db_assessments busy_world)))
    (day 10 + 500) = 2%Z /\
  fst (calculateStreak (demo_env 0) "42" (day 10 + 500) busy_world) = 1%Z /\
  fst (calculateStreak (demo_env 0) "42" (day 10 + 500) busy_world) <> 2%Z.
Proof. vm_compute. repeat split. discriminate. Qed.

(** C4 (amended): for a new assessment and stored assessments of the user
    that are dated in the years 0000 to 9999, [calculateStreak] reads the
    100 most recent assessments of the user.  When the read fails or
    returns nothing the streak is 1.
    Otherwise the streak is the number of days in a row, counted back from
    the latest date among the dates read and the date of the new
    assessment, on each of which there is such a date; it stops at the
    first day without one.  So when these dates are exactly the [n] days
    ending on the date of the new assessment the streak is [n], and when
    every other date lies two days or more before it the streak is 1. *)
Theorem C4_streak (env : Env) (userId : string) (newAssessmentDate : Z)
  (w : World) :
  four_digit_year newAssessmentDate = true ->
  forallb (fun a => four_digit_year (doc_timestamp a))
    (user_docs userId (db_assessments w)) = true ->
  let out := fst (calculateStreak env userId newAssessmentDate w) in
  let today := date_string newAssessmentDate in
  (1 <= out)%Z /\
  (forall error code,
     fst (getUserAssessments env userId 100 w) = Failure error code -> out = 1%Z) /\
  (forall recent,
     fst (getUserAssessments env userId 100 w) = Success recent ->
     recent = run_query userId 100 (db_assessments w) /\
     (recent = [] -> out = 1%Z) /\
     (recent <> [] ->
      (exists top,
         known_date today recent top /\
         (forall d, known_date today recent d -> (d <= top)%Z) /\
         (forall i, (0 <= i < out)%Z -> known_date today recent (top - i)%Z) /\
         ~ known_date today recent (top - out)%Z) /\
      (forall n,
         (forall d, known_date today recent d <-> (today - n < d <= today)%Z) ->
         out = n) /\
      ((forall d, known_date today recent d -> d = today \/ (d <= today - 2)%Z) ->
       out = 1%Z))).
Proof.
  intros _ _ out today. subst out today. unfold calculateStreak.
  destruct (getUserAssessments_cases env userId 100 w) as [_ Hq].
  destruct (getUserAssessments env userId 100 w) as [[recent|error code] w1];
    simpl in *.
  2: { split; [lia|]. split; [reflexivity | discriminate]. }
  destruct recent as [|a recent'].
  { simpl. split; [lia|]. split; [discriminate|].
    intros ? [= <-]. split; [apply Hq; reflexivity|].
    split; [reflexivity | congruence]. }
  set (recent := a :: recent') in *.
  replace (length recent =? 0) with false by reflexivity.
  simpl fst.
  destruct (streak_of_spec (map doc_timestamp recent) newAssessmentDate)
    as (top & Hk & Hmax & H1 & Hrun & Hgap).
  rewrite map_map in *.
  remember (date_string newAssessmentDate) as today eqn:Et. clear Et.
  change (known_date today recent top) in Hk.
  change (forall d, known_date today recent d -> (d <= top)%Z) in Hmax.
  change (forall i, (0 <= i < streak_of (map doc_timestamp recent)
                                newAssessmentDate)%Z ->
                    known_date today recent (top - i)%Z) in Hrun.
  change (~ known_date today recent
              (top - streak_of (map doc_timestamp recent) newAssessmentDate)%Z)
    in Hgap.
  split; [exact H1|]. split; [discriminate|].
  intros ? [= <-]. split; [apply Hq; reflexivity|]. split; [discriminate|].
  intros _. split; [exists top; auto|].
  assert (Htoday : known_date today recent today) by (left; reflexivity).
  change (streak_of (doc_timestamp a :: map doc_timestamp recent')
            newAssessmentDate)
    with (streak_of (map doc_timestamp recent) newAssessmentDate).
  remember (streak_of (map doc_timestamp recent) newAssessmentDate) as s eqn:Es.
  clear Es. split.
  - intros n Hn.
    assert (Htop : top = today).
    { pose proof (Hmax _ Htoday). pose proof (proj1 (Hn top) Hk). lia. }
    subst top.
    destruct (Z_lt_le_dec s n) as [Hlt|Hge].
    + exfalso. apply Hgap. apply Hn. lia.
    + destruct (Z.eq_dec s n) as [E|E]; [exact E|].
      exfalso. assert (Hin : known_date today recent (today - n)%Z)
        by (apply Hrun; pose proof (proj1 (Hn today) Htoday); lia).
      apply Hn in Hin. lia.
  - intros Hfar.
    assert (Htop : top = today).
    { pose proof (Hmax _ Htoday). destruct (Hfar top Hk); lia. }
    subst top.
    destruct (Z.eq_dec s 1%Z) as [E|E]; [exact E|].
    exfalso. assert (Hin : known_date today recent (today - 1)%Z)
      by (apply Hrun; lia).
    destruct (Hfar _ Hin); lia.
Qed.

(** Three days in a row, a gap of two days, and a history that cannot be
    read. *)
Lemma C4_streak_witness :
  fst (calculateStreak (demo_env 0) "42" (day 10 + 500) steady_world) = 3%Z /\
  fst (calculateStreak (demo_env 0) "42" (day 12) steady_world) = 1%Z /\
  fst (calculateStreak (demo_env 100) "42" (day 10 + 500) steady_world) = 1%Z.
Proof.
  split; [|split].
  - destruct (C4_streak (demo_env 0) "42" (day 10 + 500) steady_world
              eq_refl eq_refl)
      as (_ & _ & H).
    destruct (H (run_query "42" 100 (db_assessments steady_world)))
      as (_ & _ & Hdays); [vm_compute; reflexivity|].
    destruct Hdays as (_ & Hrow & _); [vm_compute; discriminate|].
    apply Hrow. intros d. unfold known_date.
    change (date_string (day 10 + 500)) with 10%Z.
    change (map _ _) with [10; 9; 8]%Z. simpl In. lia.
  - destruct (C4_streak (demo_env 0) "42" (day 12) steady_world
              eq_refl eq_refl)
      as (_ & _ & H).
    destruct (H (run_query "42" 100 (db_assessments steady_world)))
      as (_ & _ & Hdays); [vm_compute; reflexivity|].
    destruct Hdays as (_ & _ & Hfar); [vm_compute; discriminate|].
    apply Hfar. intros d. unfold known_date.
    change (date_string (day 12)) with 12%Z.
    change (map _ _) with [10; 9; 8]%Z. simpl In. lia.
  - destruct (C4_streak (demo_env 100) "42" (day 10 + 500) steady_world
              eq_refl eq_refl)
      as (_ & Hfail & _).
    apply (Hfail (Message "Failed to retrieve assessments") ERR_DATABASE_ERROR).
    vm_compute. reflexivity.
Defined.

(** * Further properties *)

Lemma insert_by_timestamp_In d l x :
  In x (insert_by_timestamp d l) <-> x = d \/ In x l.
Proof.
  induction l as [|y l IH]; simpl; [intuition|].
  destruct (doc_timestamp y <? doc_timestamp d)%Z; simpl; [intuition|].
  rewrite IH. intuition.
Qed.

Lemma insert_by_timestamp_newest_first d l :
  newest_first l -> newest_first (insert_by_timestamp d l).
Proof.
  induction l as [|y l IH]; simpl; [intuition|].
  intros [Hy Hl]. destruct (Z.ltb_spec (doc_timestamp y) (doc_timestamp d)); simpl.
  - split; [|auto]. intros x [<-|Hx]; [lia|]. specialize (Hy x Hx). lia.
  - split; [|auto]. intros x Hx. apply insert_by_timestamp_In in Hx.
    destruct Hx as [->|Hx]; auto.
Qed.

Lemma order_by_timestamp_desc_spec l :
  newest_first (order_by_timestamp_desc l) /\
  forall x, In x (order_by_timestamp_desc l) <-> In x l.
Proof.
  induction l as [|d l [IHs IHi]]; simpl; [intuition|]. split.
  - apply insert_by_timestamp_newest_first, IHs.
  - intros x. rewrite insert_by_timestamp_In, IHi. intuition.
Qed.

Lemma newest_first_app l1 l2 :
  newest_first (l1 ++ l2) ->
  newest_first l1 /\
  forall x y, In x l1 -> In y l2 -> (doc_timestamp y <= doc_timestamp x)%Z.
Proof.
  induction l1 as [|d l1 IH]; simpl; [intuition|].
  intros [Hd Hl]. destruct (IH Hl) as [H1 H2]. split.
  - split; [|exact H1]. intros x Hx. apply Hd, in_app_iff. auto.
  - intros x y [<-|Hx] Hy; [apply Hd, in_app_iff; auto | eauto].
Qed.

(** X1: A successful [getUserAssessments userId limit] returns at most
    [limit] records, the newest first; each of them is stored and belongs
    to [userId]; a record of the user is left out only when the limit is
    reached, and is then not newer than any record returned; the
    collections are unchanged. *)
Theorem getUserAssessments_recent (env : Env) (userId : string) (limit : nat)
  (w : World) (recent : list AssessmentDoc) :
  fst (getUserAssessments env userId limit w) = Success recent ->
  length recent <= limit /\
  newest_first recent /\
  (forall d, In d recent -> In d (db_assessments w) /\ doc_userId d = userId) /\
  (forall d, In d (db_assessments w) -> doc_userId d = userId ->
     ~ In d recent ->
     length recent = limit /\
     forall x, In x recent -> (doc_timestamp d <= doc_timestamp x)%Z) /\
  same_db w (snd (getUserAssessments env userId limit w)).
Proof.
  intros Hok. destruct (getUserAssessments_cases env userId limit w) as [Hdb Hq].
  rewrite (Hq _ Hok). unfold run_query.
  set (mine := List.filter _ (db_assessments w)).
  destruct (order_by_timestamp_desc_spec mine) as [Hs Hi].
  set (sorted := order_by_timestamp_desc mine) in *.
  assert (Hmine : forall d, In d mine <-> In d (db_assessments w) /\ doc_userId d = userId).
  { intros d. subst mine. rewrite List.filter_In, String.eqb_eq. reflexivity. }
  rewrite <- (firstn_skipn limit sorted) in Hs.
  apply newest_first_app in Hs. destruct Hs as [Hs Hle].
  split; [apply firstn_le_length|]. split; [exact Hs|]. split; [|split].
  - intros d Hd. apply Hmine, Hi.
    rewrite <- (firstn_skipn limit sorted). apply in_app_iff. auto.
  - intros d Hd Hu Hout.
    assert (Hin : In d sorted) by (apply Hi, Hmine; auto).
    rewrite <- (firstn_skipn limit sorted) in Hin. apply in_app_iff in Hin.
    destruct Hin as [Hin|Hin]; [contradiction|]. split.
    + apply firstn_length_le.
      destruct (le_lt_dec limit (length sorted)) as [Hl|Hl]; [exact Hl|].
      rewrite skipn_all2 in Hin by lia. destruct Hin.
    + intros x Hx. apply Hle; assumption.
  - exact Hdb.
Qed.

(** Two days of user 42 are returned newest first; the third is left out. *)
Lemma getUserAssessments_recent_witness :
  map doc_timestamp (run_query "42" 2 (db_assessments steady_world))
  = [day 10 + 7; day 9 + 5]%Z /\
  newest_first (run_query "42" 2 (db_assessments steady_world)).
Proof.
  split; [reflexivity|].
  apply (getUserAssessments_recent (demo_env 0) "42" 2 steady_world).
  reflexivity.
Defined.

Lemma order_newest_last l d :
  (forall x, In x l -> (doc_timestamp x < doc_timestamp d)%Z) ->
  order_by_timestamp_desc (l ++ [d]) = d :: order_by_timestamp_desc l.
Proof.
  unfold order_by_timestamp_desc. rewrite fold_right_app. simpl.
  induction l as [|x l IH]; simpl; intros H; [reflexivity|].
  rewrite IH by auto. simpl.
  destruct (Z.ltb_spec (doc_timestamp d) (doc_timestamp x)); [|reflexivity].
  specialize (H x (or_introl eq_refl)). lia.
Qed.

Lemma storeAssessment_stored env a w id w' :
  storeAssessment env a w = (Success id, w') ->
  exists stamp,
    (forall t, a_timestamp a = Some t -> stamp = t) /\
    db_assessments w'
    = db_assessments w ++
      [{| doc_id := id;
          doc_userId := a_userId a;
          doc_lessonDay := a_lessonDay a;
          doc_targetLanguage := a_targetLanguage a;
          doc_score := score_value (a_score a);
          doc_transcript := a_transcript a;
          doc_expectedAnswer := a_expectedAnswer a;
          doc_feedback := a_feedback a;
          doc_strengths := a_strengths a;
          doc_weakAreas := a_weakAreas a;
          doc_timestamp := stamp |}] /\
    db_users w' = db_users w /\
    failed_keys (assessment_checks a) = [].
Proof.
  unfold storeAssessment, validate_assessment.
  set (sw := match a_timestamp a with Some t => (t, w) | None => new_Date env w end).
  assert (Hsw : same_db w (snd sw) /\ forall t, a_timestamp a = Some t -> fst sw = t).
  { subst sw. destruct (a_timestamp a); (split; [split; reflexivity|]);
      [intros ? [= <-]; reflexivity | discriminate]. }
  destruct sw as [stamp w0]. simpl in Hsw. destruct Hsw as [[Ha Hu] Hst].
  destruct (failed_keys (assessment_checks a)) as [|k keys] eqn:Ev; [|discriminate].
  unfold retryWithBackoff, add_assessment.
  destruct (retry_loop _ _ _ _ _ _ w0) as [r w1] eqn:E.
  apply retry_loop_cases in E; [|intros ? ? ? [=]].
  destruct r as [id'|e]; [|discriminate].
  destruct E as (w2 & [Ha2 Hu2] & [= <- <-]). intros [= <- <-].
  exists stamp. simpl. rewrite Ha2, Ha, Hu2, Hu. auto.
Qed.

(** X2: What [storeAssessment] stores is what
    [getUserAssessments] reads: a successful store appends exactly one
    document, with the returned id and the fields of the data (the given
    timestamp when there is one); when the document is newer than the
    user's other records and Firestore answers the next request, a query
    with a limit of 1 or more returns it first, followed by the
    [limit - 1] most recent of the earlier records. *)
Theorem storeAssessment_then_query (env : Env) (a : AssessmentData)
  (w w' : World) (id : string) (limit : nat) :
  storeAssessment env a w = (Success id, w') ->
  firestore_up env (fs_requests w') = true ->
  1 <= limit ->
  exists doc,
    db_assessments w' = db_assessments w ++ [doc] /\
    doc_id doc = id /\
    doc_userId doc = a_userId a /\
    doc_lessonDay doc = a_lessonDay a /\
    a_score a = Int (doc_score doc) /\
    doc_transcript doc = a_transcript a /\
    doc_feedback doc = a_feedback a /\
    doc_strengths doc = a_strengths a /\
    doc_weakAreas doc = a_weakAreas a /\
    (forall t, a_timestamp a = Some t -> doc_timestamp doc = t) /\
    ((forall d, In d (db_assessments w) -> doc_userId d = a_userId a ->
        (doc_timestamp d < doc_timestamp doc)%Z) ->
     fst (getUserAssessments env (a_userId a) limit w')
     = Success (doc :: run_query (a_userId a) (limit - 1) (db_assessments w))).
Proof.
  intros Hs Hup Hlimit.
  destruct (storeAssessment_stored _ _ _ _ _ Hs) as (stamp & Hst & Ha & Hu & Hv).
  eexists. split; [exact Ha|]. simpl. repeat split; try exact Hst.
  - assert (H : valid_score (a_score a) = true)
      by (apply (failed_keys_nil _ Hv "score"); simpl; tauto).
    destruct (a_score a); [discriminate | reflexivity].
  - intros Hnew. unfold getUserAssessments, query_assessments.
    erewrite retry_first_up; [|exact Hup | reflexivity].
    simpl. rewrite Ha. unfold run_query. rewrite List.filter_app. simpl.
    rewrite String.eqb_refl. rewrite order_newest_last.
    + destruct limit as [|limit]; [lia|]. simpl. rewrite Nat.sub_0_r. reflexivity.
    + intros x Hx. apply List.filter_In in Hx. destruct Hx as [Hx Hid].
      apply String.eqb_eq in Hid. simpl. exact (Hnew x Hx Hid).
Qed.

(** The record of day 11 comes first in the history of user 42. *)
Lemma storeAssessment_then_query_witness :
  exists doc,
    doc_id doc = "D" /\ doc_timestamp doc = day 11 /\
    fst (getUserAssessments (demo_env 0) "42" 2
           (snd (storeAssessment (demo_env 0) late_assessment steady_world)))
    = Success (doc :: run_query "42" 1 (db_assessments steady_world)).
Proof.
  destruct (storeAssessment_then_query (demo_env 0) late_assessment steady_world
              (snd (storeAssessment (demo_env 0) late_assessment steady_world))
              "D" 2)
    as (doc & _ & Hid & _ & _ & _ & _ & _ & _ & _ & Hstamp & Hq);
    [reflexivity | reflexivity | lia |].
  exists doc. split; [exact Hid|]. split; [apply Hstamp; reflexivity|].
  apply Hq. rewrite (Hstamp _ eq_refl).
  intros d [<-|[<-|[<-|[]]]] _; reflexivity.
Defined.

(** *** Failures of the steps *)

Lemma transcribeAudio_codes env audio language w error code :
  fst (transcribeAudio env audio language w) = Failure error code ->
  code = ERR_INVALID_INPUT \/ code = ERR_TRANSCRIPTION_FAILED.
Proof.
  unfold transcribeAudio. destruct (length audio =? 0); simpl.
  - intros [= _ <-]. auto.
  - destruct (retryOnce _ _ w) as [[a|e] w1]; simpl; [discriminate|].
    intros [= _ <-]. auto.
Qed.

Lemma gradeTranscript_codes env transcript target native lessonWords expected w
  error code :
  fst (gradeTranscript env transcript target native lessonWords expected w)
  = Failure error code ->
  code = ERR_GRADING_FAILED.
Proof.
  unfold gradeTranscript. destruct (retryOnce _ _ w) as [[a|e] w1]; simpl;
    [discriminate|]. intros [= _ <-]. reflexivity.
Qed.

Lemma storeAssessment_codes env a w error code :
  fst (storeAssessment env a w) = Failure error code ->
  code = ERR_INVALID_INPUT \/ code = ERR_DATABASE_ERROR.
Proof.
  unfold storeAssessment.
  destruct (validate_assessment env a w) as [[keys|mk] w0]; simpl.
  - intros [= _ <-]. auto.
  - destruct (retryWithBackoff _ _ _ w0) as [[id|e] w1]; simpl; [discriminate|].
    intros [= _ <-]. auto.
Qed.

Lemma assessVoice_failure env params w error code :
  fst (assessVoice env params w) = Failure error code ->
  same_db w (snd (assessVoice env params w)) /\
  (code = ERR_INVALID_INPUT \/ code = ERR_TRANSCRIPTION_FAILED \/
   code = ERR_GRADING_FAILED \/ code = ERR_DATABASE_ERROR).
Proof.
  unfold assessVoice.
  destruct (validate_params params) as [keys|v] eqn:Ev; simpl.
  { intros [= _ <-]. split; [apply same_db_refl | auto]. }
  pose proof (transcribeAudio_same_db env (p_audioBuffer v) (p_targetLanguage v) w)
    as H1.
  pose proof (transcribeAudio_codes env (p_audioBuffer v) (p_targetLanguage v) w)
    as C1.
  destruct (transcribeAudio env _ _ w) as [[transcript|e c] w1]; simpl in *.
  2: { intros [= _ <-]. split; [exact H1|]. destruct (C1 _ _ eq_refl); auto. }
  pose proof (gradeTranscript_same_db env transcript (p_targetLanguage v)
                (default "he" (p_nativeLanguage v)) (p_lessonWords v)
                (p_expectedAnswer v) w1) as H2.
  pose proof (gradeTranscript_codes env transcript (p_targetLanguage v)
                (default "he" (p_nativeLanguage v)) (p_lessonWords v)
                (p_expectedAnswer v) w1) as C2.
  destruct (gradeTranscript env _ _ _ _ _ w1) as [[llmResponse|e c] w2];
    simpl in *.
  2: { intros [= _ <-]. split; [exact (same_db_trans _ _ _ H1 H2)|].
       rewrite (C2 _ _ eq_refl). auto. }
  set (graded := parseGradingResponse llmResponse).
  set (data := assessment_data v transcript graded _).
  set (w3 := {| db_assessments := db_assessments w2 |}).
  assert (H3 : same_db w w3).
  { destruct H1, H2. split; simpl; congruence. }
  destruct (storeAssessment_cases env data w3) as (Hu4 & Hfail & _).
  pose proof (storeAssessment_codes env data w3) as C4.
  destruct (storeAssessment env data w3) as [[id|e c] w4]; simpl in *;
    [discriminate|].
  intros [= _ <-]. split.
  - eapply same_db_trans; [exact H3|]. split; [eapply Hfail; reflexivity | exact Hu4].
  - destruct (C4 _ _ eq_refl); auto.
Qed.

(** X3: Whenever [assessVoice] answers with a failure, the
    assessments and the profiles are what they were before the call, and
    the code is one of ERR_INVALID_INPUT, ERR_TRANSCRIPTION_FAILED,
    ERR_GRADING_FAILED and ERR_DATABASE_ERROR. *)
Theorem assessVoice_failure_stores_nothing (env : Env)
  (params : AssessmentParams) (w : World) (error : ErrorText) (code : Code) :
  fst (assessVoice env params w) = Failure error code ->
  same_db w (snd (assessVoice env params w)) /\
  (code = ERR_INVALID_INPUT \/ code = ERR_TRANSCRIPTION_FAILED \/
   code = ERR_GRADING_FAILED \/ code = ERR_DATABASE_ERROR).
Proof. apply assessVoice_failure. Qed.

(** A recording that cannot be transcribed leaves the collections of
    the world with a profile as they were. *)
Lemma assessVoice_failure_stores_nothing_witness :
  same_db world_with_user
    (snd (assessVoice deaf_env (params_with_audio [Byte.x01]) world_with_user)).
Proof.
  apply (assessVoice_failure_stores_nothing deaf_env (params_with_audio [Byte.x01])
           world_with_user (Message "Audio transcription failed")
           ERR_TRANSCRIPTION_FAILED).
  reflexivity.
Defined.

(** X4: [updateUserStats] for a user without a profile: the
    update of a missing document fails at each attempt, so that the call
    ends with ERR_DATABASE_ERROR after exactly four requests and the three
    pauses, whether Firestore answers or not, and creates no profile. *)
Theorem updateUserStats_without_profile (env : Env) (userId : string)
  (updates : UserUpdates) (w : World) :
  db_users w !! userId = None ->
  gave_up (updateUserStats env userId updates w) w (UpdateUser userId)
    "Failed to update user statistics" /\
  fs_requests (snd (updateUserStats env userId updates w)) = 4 + fs_requests w /\
  db_users (snd (updateUserStats env userId updates w)) !! userId = None.
Proof.
  intros Hnone.
  assert (H : exists e,
             retryWithBackoff (update_user env userId updates) default_maxRetries
               default_delays w
             = (Throw e, after_requests 4 (four_requests (UpdateUser userId)) w)).
  { unfold retryWithBackoff, default_maxRetries, default_delays, retry_loop,
      update_user, firestore_request, sleep, log_event. simpl.
    repeat (match goal with
            | |- context [firestore_up env ?n] => destruct (firestore_up env n)
            end; simpl; rewrite ?Hnone; simpl);
      eexists; unfold after_requests, four_requests; simpl;
      repeat rewrite <- app_assoc; reflexivity. }
  destruct H as [e H]. unfold gave_up, updateUserStats. rewrite H. simpl.
  repeat split; assumption.
Qed.

(** A user who never started the bot: four requests to a Firestore that
    answers, and no profile. *)
Lemma updateUserStats_without_profile_witness :
  fst (updateUserStats (demo_env 0) "7" demo_updates world_with_user)
  = Failure (Message "Failed to update user statistics") ERR_DATABASE_ERROR /\
  fs_requests (snd (updateUserStats (demo_env 0) "7" demo_updates world_with_user))
  = 4 + fs_requests world_with_user.
Proof.
  destruct (updateUserStats_without_profile (demo_env 0) "7" demo_updates
              world_with_user) as ((Hr & _) & Hn & _); [reflexivity|].
  split; [exact Hr | exact Hn].
Defined.

(** *** Bounds of the streak *)

Lemma streak_loop_bound l : forall acc,
  (acc <= streak_loop l acc <= acc + Z.of_nat (length l - 1))%Z.
Proof.
  induction l as [|x l IH]; intros acc; [simpl; lia|].
  destruct l as [|y l]; [simpl; lia|].
  rewrite streak_loop_cons.
  destruct (_ =? 1)%Z; [|simpl length; lia].
  specialize (IH (acc + 1)%Z). simpl length in *. lia.
Qed.

Lemma set_add_length x s : length (set_add x s) <= S (length s).
Proof.
  unfold set_add. destruct (existsb _ s); [lia|].
  rewrite length_app. simpl. lia.
Qed.

Lemma unique_dates_length ts a : length (unique_dates ts a) <= S (length ts).
Proof.
  unfold unique_dates.
  assert (H : forall s0, length (fold_left (fun s t => set_add (date_string t) s) ts s0)
                         <= length s0 + length ts).
  { induction ts as [|t ts IH]; simpl; intros s0; [lia|].
    specialize (IH (set_add (date_string t) s0)).
    pose proof (set_add_length (date_string t) s0). lia. }
  specialize (H []). simpl in H.
  pose proof (set_add_length (date_string a)
                (fold_left (fun s t => set_add (date_string t) s) ts [])). lia.
Qed.

Lemma insert_sorted_length x l : length (insert_sorted x l) = S (length l).
Proof.
  induction l as [|y l IH]; simpl; [reflexivity|].
  destruct (x <=? y)%Z; simpl; [reflexivity | rewrite IH; reflexivity].
Qed.

Lemma array_sort_length l : length (array_sort l) = length l.
Proof.
  induction l as [|x l IH]; simpl; [reflexivity|].
  rewrite insert_sorted_length, IH. reflexivity.
Qed.

Lemma streak_of_bound ts a :
  (1 <= streak_of ts a <= 1 + Z.of_nat (length ts))%Z.
Proof.
  unfold streak_of.
  pose proof (streak_loop_bound (rev (array_sort (unique_dates ts a))) 1%Z) as H.
  rewrite length_rev, array_sort_length in H.
  pose proof (unique_dates_length ts a). lia.
Qed.

Lemma run_query_length userId limit docs :
  length (run_query userId limit docs) <= limit /\
  length (run_query userId limit docs) <= length (user_docs userId docs).
Proof.
  unfold run_query. fold (user_docs userId docs).
  rewrite length_firstn, (proj2 (order_by_timestamp_sum _)). lia.
Qed.

Lemma calculateStreak_range env userId newAssessmentDate w :
  (1 <= fst (calculateStreak env userId newAssessmentDate w)
     <= 1 + Z.of_nat (length (run_query userId 100 (db_assessments w))))%Z.
Proof.
  unfold calculateStreak.
  destruct (getUserAssessments_cases env userId 100 w) as [_ Hq].
  destruct (getUserAssessments env userId 100 w)
    as [[recent|error code] w1]; simpl in *; [|lia].
  destruct (length recent =? 0); simpl; [lia|].
  pose proof (streak_of_bound (map doc_timestamp recent) newAssessmentDate) as H.
  rewrite length_map in H. rewrite <- (Hq _ eq_refl). exact H.
Qed.

(** X5: The streak returned by [calculateStreak] is at least
    1, at most 101 (the date of the new assessment and the dates of the
    100 records read), and at most one more than the number of stored
    assessments of the user; the call changes neither collection. *)
Theorem calculateStreak_bounds (env : Env) (userId : string)
  (newAssessmentDate : Z) (w : World) :
  let streak := fst (calculateStreak env userId newAssessmentDate w) in
  (1 <= streak <= 101)%Z /\
  (streak <= 1 + Z.of_nat (length (user_docs userId (db_assessments w))))%Z /\
  same_db w (snd (calculateStreak env userId newAssessmentDate w)).
Proof.
  intros streak. subst streak.
  pose proof (calculateStreak_range env userId newAssessmentDate w) as H.
  destruct (run_query_length userId 100 (db_assessments w)).
  split; [lia|]. split; [lia | apply calculateStreak_same_db].
Qed.

(** *** What the statistics step writes *)

Lemma update_statistics_values env userId w :
  db_assessments (update_statistics env userId w) = db_assessments w /\
  (db_users (update_statistics env userId w) = db_users w \/
   exists u streak,
     db_users w !! userId = Some u /\ (1 <= streak <= 101)%Z /\
     db_users (update_statistics env userId w)
     = <[userId :=
           apply_updates
             (statistics
                (round_tenth
                   (average_score
                      (run_query userId default_limit (db_assessments w))))
                streak) u]> (db_users w)).
Proof.
  unfold update_statistics.
  destruct (getUserAssessments_cases env userId default_limit w) as [[Ha Hu] Hq].
  destruct (getUserAssessments env userId default_limit w)
    as [[allAssessments|error code] w1]; simpl in *; [|auto].
  rewrite (Hq _ eq_refl).
  set (now := clock env (clock_reads w1)).
  set (w2 := {| db_assessments := db_assessments w1; db_users := db_users w1;
                fs_requests := fs_requests w1; stt_calls := stt_calls w1;
                chat_calls := chat_calls w1; clock_reads := S (clock_reads w1);
                trace := trace w1 |}).
  destruct (calculateStreak_same_db env userId now w2) as [Ha3 Hu3].
  pose proof (calculateStreak_range env userId now w2) as Hr.
  pose proof (run_query_length userId 100 (db_assessments w2)) as [Hl _].
  destruct (calculateStreak env userId now w2) as [streak w3]. simpl in *.
  fold (statistics (round_tenth (average_score
                      (run_query userId default_limit (db_assessments w)))) streak).
  destruct (updateUserStats_cases env userId
              (statistics (round_tenth (average_score
                 (run_query userId default_limit (db_assessments w)))) streak) w3)
    as [Ha4 [Hu4|(u & Hlook & _ & Hu4)]].
  - split; [congruence|]. left. congruence.
  - split; [congruence|]. right. exists u, streak.
    rewrite Hu4. rewrite Hu3, Hu in *. split; [exact Hlook|]. split; [lia|].
    reflexivity.
Qed.

(** What a successful [assessVoice] has stored, and what it may have
    written into the profile. *)
Lemma assessVoice_success_record env params w out w' :
  assessVoice env params w = (Success out, w') ->
  exists doc,
    db_assessments w' = db_assessments w ++ [doc] /\
    doc_userId doc = p_userId params /\
    (0 <= doc_score doc <= 100)%Z /\
    (db_users w' = db_users w \/
     exists u streak,
       db_users w !! p_userId params = Some u /\ (1 <= streak <= 101)%Z /\
       db_users w'
       = <[p_userId params :=
             apply_updates
               (statistics
                  (round_tenth
                     (average_score
                        (run_query (p_userId params) default_limit
                           (db_assessments w ++ [doc]))))
                  streak) u]> (db_users w)).
Proof.
  unfold assessVoice.
  destruct (validate_params params) as [keys|v] eqn:Ev; [discriminate|].
  destruct (validate_params_inv _ _ Ev) as (_ & Hid & _ & _).
  pose proof (transcribeAudio_same_db env (p_audioBuffer v) (p_targetLanguage v) w)
    as [Ha1 Hu1].
  destruct (transcribeAudio env _ _ w) as [[transcript|e c] w1]; [|discriminate].
  pose proof (gradeTranscript_same_db env transcript (p_targetLanguage v)
                (default "he" (p_nativeLanguage v)) (p_lessonWords v)
                (p_expectedAnswer v) w1) as [Ha2 Hu2].
  destruct (gradeTranscript env _ _ _ _ _ w1) as [[llmResponse|e c] w2];
    [|discriminate].
  simpl in *. set (graded := parseGradingResponse llmResponse).
  set (data := assessment_data v transcript graded _).
  set (w3 := {| db_assessments := db_assessments w2 |}).
  destruct (storeAssessment_cases env data w3) as (Hu4 & _ & Hok).
  destruct (storeAssessment env data w3) as [[id|e c] w4]; [|discriminate].
  intros [= <- <-]. destruct (Hok id eq_refl) as (doc & Ha4 & Hd1 & Hd2 & Hd3 & Hv).
  simpl in *. rewrite Hid in *.
  destruct (update_statistics_values env (p_userId params) w4) as [Ha5 Hu5].
  exists doc. rewrite Ha5, Ha4. simpl.
  split; [congruence|]. split; [exact Hd2|]. split.
  - rewrite Hd3. destruct (score graded) as [|z]; [discriminate|]. simpl in *. lia.
  - destruct Hu5 as [Hu5|(u & streak & Hlook & Hs & Hu5)].
    + left. congruence.
    + right. exists u, streak. rewrite Hu4 in *. simpl in *.
      rewrite Hu2, Hu1 in *. split; [exact Hlook|]. split; [exact Hs|].
      rewrite Hu5, Ha4. simpl. rewrite Ha2, Ha1. reflexivity.
Qed.

(** X6: [assessVoice] leaves the profile of every other user
    as it is, never creates a profile (without a profile of the user the
    profiles are unchanged), and changes at most the average score and the
    streak of the user's own profile. *)
Theorem assessVoice_profiles (env : Env) (params : AssessmentParams) (w : World) :
  let w' := snd (assessVoice env params w) in
  (forall id, id <> p_userId params -> db_users w' !! id = db_users w !! id) /\
  (db_users w !! p_userId params = None -> db_users w' = db_users w) /\
  (forall u, db_users w !! p_userId params = Some u ->
     exists u', db_users w' !! p_userId params = Some u' /\ statistics_apart u u').
Proof.
  intros w'. subst w'.
  destruct (assessVoice env params w) as [[out|error code] w'] eqn:E; simpl.
  - destruct (assessVoice_success_record _ _ _ _ _ E)
      as (doc & _ & _ & _ & [Hu|(u & streak & Hlook & _ & Hu)]); rewrite Hu.
    + split; [reflexivity|]. split; [reflexivity|].
      intros u Hlook. exists u. split; [exact Hlook | repeat split].
    + split; [|split].
      * intros id Hne. apply lookup_insert_ne. congruence.
      * congruence.
      * intros u0 Hu0. rewrite Hlook in Hu0. inversion Hu0; subst u0.
        eexists. split; [apply lookup_insert_eq | repeat split].
  - pose proof (assessVoice_failure env params w error code) as H.
    rewrite E in H. destruct (H eq_refl) as [[_ Hu] _]. simpl in Hu. rewrite Hu.
    split; [reflexivity|]. split; [reflexivity|].
    intros u Hlook. exists u. split; [exact Hlook | repeat split].
Qed.

(** Nothing of user 42 is touched by an assessment of somebody else, and
    an assessment of user 42 leaves name, language and lesson day alone. *)
Lemma assessVoice_profiles_witness :
  exists u',
    db_users (snd (assessVoice (demo_env 0) (params_with_audio [Byte.x01])
                     world_two_assessments)) !! "42" = Some u' /\
    statistics_apart demo_profile u'.
Proof.
  destruct (assessVoice_profiles (demo_env 0) (params_with_audio [Byte.x01])
              world_two_assessments) as (_ & _ & H).
  apply (H demo_profile). reflexivity.
Defined.

(** *** The range of the average *)

Lemma scores_sum_range l :
  (forall d, In d l -> (0 <= doc_score d <= 100)%Z) ->
  (0 <= fold_right Z.add 0%Z (map doc_score l) <= 100 * Z.of_nat (length l))%Z.
Proof.
  induction l as [|d l IH]; intros H; [simpl; lia|].
  assert (H1 := H d (or_introl eq_refl)).
  assert (H2 := IH (fun x Hx => H x (or_intror Hx))).
  simpl map. simpl fold_right. rewrite length_cons. lia.
Qed.

Lemma average_score_range l :
  l <> [] ->
  (forall d, In d l -> (0 <= doc_score d <= 100)%Z) ->
  exists q, average_score l = Num q /\ (0 <= q)%Q /\ (q <= 100)%Q.
Proof.
  intros Hne H. unfold average_score. rewrite fold_left_scores.
  pose proof (scores_sum_range l H) as Hs.
  destruct l as [|d l]; [congruence|].
  set (n := length (d :: l)) in *. set (s := fold_right _ _ _) in *.
  replace (n =? 0) with false by reflexivity.
  eexists. split; [reflexivity|].
  assert (Hn : (0 < Z.of_nat n)%Z) by (subst n; simpl length; lia).
  destruct (Z.of_nat n) as [|p|p] eqn:En; try lia.
  clearbody s n.
  unfold Qle, Qdiv, Qmult, Qinv, inject_Z. simpl. rewrite ?Pos.mul_1_l.
  split; lia.
Qed.

Lemma round_tenth_range q :
  (0 <= q)%Q -> (q <= 100)%Q ->
  exists r, round_tenth (Num q) = Num r /\ (0 <= r)%Q /\ (r <= 100)%Q.
Proof.
  intros H0 H100. exists (inject_Z (Qfloor (q * 10 + (1 # 2))) / 10)%Q.
  split; [reflexivity|].
  assert (Hlo : (0 <= Qfloor (q * 10 + (1 # 2)))%Z).
  { change 0%Z with (Qfloor 0). apply Qfloor_resp_le.
    unfold Qle in *. destruct q as [a b]. simpl in *. nia. }
  assert (Hhi : (Qfloor (q * 10 + (1 # 2)) <= 1000)%Z).
  { change 1000%Z with (Qfloor (1000 + (1 # 2))). apply Qfloor_resp_le.
    unfold Qle in *. destruct q as [a b]. simpl in *. nia. }
  unfold round_tenth. remember (Qfloor (q * 10 + (1 # 2))) as z eqn:Ez. clear Ez.
  unfold Qle, Qdiv, Qmult, Qinv, inject_Z. simpl. split; lia.
Qed.

Lemma run_query_nonempty userId limit docs doc :
  1 <= limit -> doc_userId doc = userId ->
  run_query userId limit (docs ++ [doc]) <> [].
Proof.
  intros Hl Hu. unfold run_query.
  set (sorted := order_by_timestamp_desc _).
  assert (Hlen : 1 <= length sorted).
  { subst sorted. rewrite (proj2 (order_by_timestamp_sum _)).
    rewrite List.filter_app, length_app. simpl. rewrite Hu, String.eqb_refl.
    simpl. lia. }
  destruct limit as [|limit]; [lia|]. destruct sorted; [simpl in Hlen; lia|].
  discriminate.
Qed.

(** X7: When the stored scores of the user lie between 0 and
    100, a successful [assessVoice] either leaves the profiles unchanged
    or writes to the user's profile an average that is a number between 0
    and 100 (never NaN) and a streak between 1 and 101. *)
Theorem assessVoice_statistics_in_range (env : Env) (params : AssessmentParams)
  (w w' : World) (out : AssessmentOutcome) :
  assessVoice env params w = (Success out, w') ->
  (forall d, In d (db_assessments w) -> doc_userId d = p_userId params ->
     (0 <= doc_score d <= 100)%Z) ->
  db_users w' = db_users w \/
  exists u q streak,
    db_users w !! p_userId params = Some u /\
    db_users w'
    = <[p_userId params := apply_updates (statistics (Num q) streak) u]>
        (db_users w) /\
    (0 <= q)%Q /\ (q <= 100)%Q /\ (1 <= streak <= 101)%Z.
Proof.
  intros Hrun Hscores.
  destruct (assessVoice_success_record _ _ _ _ _ Hrun)
    as (doc & Ha & Hd & Hs & [Hu|(u & streak & Hlook & Hst & Hu)]);
    [left; exact Hu|]. right.
  set (recent := run_query (p_userId params) default_limit
                   (db_assessments w ++ [doc])) in *.
  destruct (average_score_range recent) as (q & Hq & Hq0 & Hq100).
  - apply run_query_nonempty; [unfold default_limit; lia | exact Hd].
  - intros d Hin. subst recent. unfold run_query in Hin.
    assert (Hin' : In d (List.filter
                           (fun d => String.eqb (doc_userId d) (p_userId params))
                           (db_assessments w ++ [doc]))).
    { apply order_by_timestamp_desc_spec.
      rewrite <- (firstn_skipn default_limit (order_by_timestamp_desc _)).
      apply in_app_iff. left. exact Hin. }
    apply List.filter_In in Hin'. destruct Hin' as [Hin' Hid].
    apply String.eqb_eq in Hid. apply in_app_iff in Hin'.
    destruct Hin' as [Hin'|[<-|[]]]; [auto | exact Hs].
  - destruct (round_tenth_range q Hq0 Hq100) as (r & Hr & Hr0 & Hr100).
    exists u, r, streak. rewrite Hu, Hq, Hr. auto.
Qed.

(** The third assessment of user 42: the average written is 81.7. *)
Lemma assessVoice_statistics_in_range_witness :
  exists u q streak,
    db_users (snd (assessVoice (demo_env 0) (params_with_audio [Byte.x01])
                     world_two_assessments))
    = <["42" := apply_updates (statistics (Num q) streak) u]>
        (db_users world_two_assessments) /\
    (0 <= q)%Q /\ (q <= 100)%Q /\ (1 <= streak <= 101)%Z.
Proof.
  destruct (assessVoice_statistics_in_range (demo_env 0)
              (params_with_audio [Byte.x01]) world_two_assessments
              (snd (assessVoice (demo_env 0) (params_with_audio [Byte.x01])
                      world_two_assessments))
              {| assessmentId := "C"; o_score := Int 85;
                 o_transcript := txt "hello my name is Dana";
                 o_feedback := txt "Great job!";
                 o_strengths := [txt "clarity"; txt "pace"];
                 o_weakAreas := [txt "grammar"] |})
    as [Hsame|(u & q & streak & _ & H)].
  - vm_compute. reflexivity.
  - intros d [<-|[<-|[]]] _; vm_compute; split; discriminate.
  - exfalso. apply (f_equal (fun m => avgScore <$> (m !! "42"))) in Hsame.
    vm_compute in Hsame. discriminate.
  - exists u, q, streak. exact H.
Defined.

(** *** Any number of retries *)

Lemma refused_requests_count op maxRetries delays : forall n attempt,
  firestore_attempts (refused_requests op maxRetries delays n attempt) = n /\
  pauses (refused_requests op maxRetries delays n attempt)
  = map (retry_delay delays) (seq attempt (Nat.min n (maxRetries - attempt))).
Proof.
  unfold firestore_attempts.
  induction n as [|n IH]; intros attempt; [auto|].
  destruct (IH (S attempt)) as [IH1 IH2]. cbn [refused_requests].
  destruct (Nat.ltb_spec attempt maxRetries); simpl.
  - rewrite IH1, IH2. split; [reflexivity|].
    replace (maxRetries - attempt) with (S (maxRetries - S attempt)) by lia.
    reflexivity.
  - rewrite IH1, IH2. split; [reflexivity|].
    replace (maxRetries - attempt) with 0 by lia.
    replace (maxRetries - S attempt) with 0 by lia.
    rewrite !Nat.min_0_r. reflexivity.
Qed.

(** X8: [retryWithBackoff] for any [maxRetries] and [delays]:
    when the first [maxRetries + 1] requests fail, the last error is
    thrown after exactly that many requests; when request [k <= maxRetries]
    is the first to be answered, its result is the result; and the pause
    after the failed attempt [i < maxRetries] is [delays[i]], or the last
    entry of [delays] when that one is missing or 0, with no pause after
    the last attempt. *)
Theorem retryWithBackoff_attempts (env : Env) (A : Type) (op : FsOp)
  (serve : World -> Exc A * World) (maxRetries : nat) (delays : list Z)
  (w : World) :
  let refused n := refused_requests op maxRetries delays n 0 in
  ((forall i, i <= maxRetries -> firestore_up env (i + fs_requests w) = false) ->
   retryWithBackoff (firestore_request env op serve) maxRetries delays w
   = (Throw ServiceError, after_requests (S maxRetries) (refused (S maxRetries)) w)) /\
  (forall k a w',
     k <= maxRetries ->
     (forall i, i < k -> firestore_up env (i + fs_requests w) = false) ->
     firestore_up env (k + fs_requests w) = true ->
     serve (after_requests (S k) (refused k ++ [Firestore op]) w) = (Return a, w') ->
     retryWithBackoff (firestore_request env op serve) maxRetries delays w
     = (Return a, w')) /\
  (forall n, n <= S maxRetries ->
     firestore_attempts (refused n) = n /\
     pauses (refused n) = map (retry_delay delays) (seq 0 (Nat.min n maxRetries))).
Proof.
  intros refused. subst refused. split; [|split].
  - intros Hdown. unfold retryWithBackoff.
    rewrite retry_loop_refused; [reflexivity|].
    intros i Hi. apply Hdown. lia.
  - intros k a w' Hk Hdown Hup Hs. unfold retryWithBackoff.
    apply (retry_loop_served env op serve maxRetries delays k);
      [lia | exact Hdown | exact Hup | exact Hs].
  - intros n Hn. destruct (refused_requests_count op maxRetries delays n 0) as [H1 H2].
    rewrite Nat.sub_0_r in H2. auto.
Qed.

(** Five retries with the three default delays wait 100, 200 and three
    times 400 ms; without retries a refused request is the only one. *)
Lemma retryWithBackoff_attempts_witness :
  pauses (refused_requests AddAssessment 5 default_delays 6 0)
  = [Some 100; Some 200; Some 400; Some 400; Some 400]%Z /\
  retryWithBackoff
    (firestore_request (demo_env 100) AddAssessment (fun w => (Return tt, w)))
    0 [] world0
  = (Throw ServiceError, after_requests 1 [Firestore AddAssessment] world0).
Proof.
  split.
  - destruct (retryWithBackoff_attempts (demo_env 100) unit AddAssessment
                (fun w => (Return tt, w)) 5 default_delays world0)
      as (_ & _ & H).
    destruct (H 6) as [_ Hp]; [lia|]. exact Hp.
  - destruct (retryWithBackoff_attempts (demo_env 100) unit AddAssessment
                (fun w => (Return tt, w)) 0 [] world0)
      as (H & _). apply H. intros i Hi.
    replace i with 0 by lia. reflexivity.
Defined.

(** *** The clients of the two APIs *)

(** X9: [transcribeAudio] on a buffer that is not empty: an
    answer to the first request is returned after that single request; a
    first request that fails and a second one that is answered give the
    second answer, after one pause of 1000 ms; and no call makes more than
    two requests. *)
Theorem transcribeAudio_retry (env : Env) (audioBuffer : list Byte.byte)
  (language : string) (w : World) (text : Text) :
  length audioBuffer <> 0 ->
  let request := Transcription (whisperLanguage language) in
  (whisper_reply env (stt_calls w) = Some text ->
   fst (transcribeAudio env audioBuffer language w) = Success text /\
   trace (snd (transcribeAudio env audioBuffer language w)) = trace w ++ [request]) /\
  (whisper_reply env (stt_calls w) = None ->
   whisper_reply env (S (stt_calls w)) = Some text ->
   fst (transcribeAudio env audioBuffer language w) = Success text /\
   trace (snd (transcribeAudio env audioBuffer language w))
   = trace w ++ [request; Sleep (Some 1000%Z); request]) /\
  stt_calls (snd (transcribeAudio env audioBuffer language w)) <= 2 + stt_calls w.
Proof.
  intros Hlen request. subst request. unfold transcribeAudio.
  destruct (Nat.eqb_spec (length audioBuffer) 0); [contradiction|].
  unfold retryOnce, whisper_request, sleep, log_event. simpl.
  split; [|split].
  - intros ->. simpl. auto.
  - intros -> H2. simpl. rewrite H2. simpl. rewrite <- !app_assoc. auto.
  - destruct (whisper_reply env (stt_calls w)); simpl; [lia|].
    destruct (whisper_reply env (S (stt_calls w))); simpl; lia.
Qed.

(** The second request is answered. *)
Lemma transcribeAudio_retry_witness :
  fst (transcribeAudio stuttering_env [Byte.x01] "es" world0)
  = Success (txt "thank you") /\
  trace (snd (transcribeAudio stuttering_env [Byte.x01] "es" world0))
  = [Transcription "es"; Sleep (Some 1000%Z); Transcription "es"].
Proof.
  destruct (transcribeAudio_retry stuttering_env [Byte.x01] "es" world0
              (txt "thank you")) as (_ & H & _); [discriminate|].
  apply H; reflexivity.
Defined.

(** X10: With valid parameters, an audio that is not empty and
    a transcription, two failing grading requests make [assessVoice]
    answer ERR_GRADING_FAILED: the trace holds the transcription and the
    two grading requests of the same prompt, 1000 ms apart; Firestore is
    not contacted and nothing is stored. *)
Theorem assessVoice_grading_failed (env : Env) (params : AssessmentParams)
  (w : World) (transcript : Text) :
  failed_keys (params_checks params) = [] ->
  length (p_audioBuffer params) <> 0 ->
  whisper_reply env (stt_calls w) = Some transcript ->
  chat_reply env (chat_calls w) = None ->
  chat_reply env (S (chat_calls w)) = None ->
  let prompt :=
    grading_prompt transcript (p_targetLanguage params)
      (default "he" (p_nativeLanguage params)) (p_lessonWords params)
      (p_expectedAnswer params) in
  fst (assessVoice env params w)
  = Failure (Message "Grading failed") ERR_GRADING_FAILED /\
  trace (snd (assessVoice env params w))
  = trace w ++ [ Transcription (whisperLanguage (p_targetLanguage params));
                 ChatCompletion prompt; Sleep (Some 1000%Z);
                 ChatCompletion prompt ] /\
  same_db w (snd (assessVoice env params w)) /\
  fs_requests (snd (assessVoice env params w)) = fs_requests w.
Proof.
  intros Hvalid Hlen Hw Hc1 Hc2 prompt. subst prompt. unfold assessVoice.
  unfold validate_params. rewrite Hvalid. simpl.
  unfold transcribeAudio.
  destruct (Nat.eqb_spec (length (p_audioBuffer params)) 0); [contradiction|].
  unfold gradeTranscript, retryOnce, whisper_request, chat_request, sleep,
    log_event.
  rewrite Hw. simpl. rewrite Hc1. simpl. rewrite Hc2. simpl.
  repeat rewrite <- app_assoc. simpl. repeat split.
Qed.

(** The grader is asked twice; nothing reaches Firestore. *)
Lemma assessVoice_grading_failed_witness :
  fst (assessVoice mute_env (params_with_audio [Byte.x01]) world_with_user)
  = Failure (Message "Grading failed") ERR_GRADING_FAILED /\
  fs_requests (snd (assessVoice mute_env (params_with_audio [Byte.x01])
                      world_with_user))
  = fs_requests world_with_user.
Proof.
  destruct (assessVoice_grading_failed mute_env (params_with_audio [Byte.x01])
              world_with_user (txt "thank you")) as (Hr & _ & _ & Hn);
    [reflexivity | discriminate | reflexivity | reflexivity | reflexivity |].
  split; [exact Hr | exact Hn].
Defined.

Lemma failed_keys_In checks k :
  In (k, false) checks -> In k (failed_keys checks).
Proof.
  unfold failed_keys. intros H. apply in_map_iff. exists (k, false).
  split; [reflexivity|]. apply List.filter_In. auto.
Qed.

(** X11: When the transcription is the empty text (silence)
    and the grading request is answered, [assessVoice] fails with
    ERR_INVALID_INPUT, the key [transcript] being among those the schema
    of the record refuses; this happens after one transcription and one
    grading request, without a request to Firestore. *)
Theorem assessVoice_empty_transcript (env : Env) (params : AssessmentParams)
  (w : World) (content : JsValue) :
  failed_keys (params_checks params) = [] ->
  length (p_audioBuffer params) <> 0 ->
  whisper_reply env (stt_calls w) = Some [] ->
  chat_reply env (chat_calls w) = Some content ->
  exists keys,
    fst (assessVoice env params w) = Failure (JoiMessage keys) ERR_INVALID_INPUT /\
    In "transcript" keys /\
    same_db w (snd (assessVoice env params w)) /\
    fs_requests (snd (assessVoice env params w)) = fs_requests w /\
    stt_calls (snd (assessVoice env params w)) = S (stt_calls w) /\
    chat_calls (snd (assessVoice env params w)) = S (chat_calls w).
Proof.
  intros Hvalid Hlen Hw Hc. unfold assessVoice.
  unfold validate_params. rewrite Hvalid. simpl.
  unfold transcribeAudio.
  destruct (Nat.eqb_spec (length (p_audioBuffer params)) 0); [contradiction|].
  unfold gradeTranscript, retryOnce, whisper_request, chat_request, sleep,
    log_event.
  rewrite Hw. simpl. rewrite Hc. simpl.
  unfold storeAssessment, validate_assessment. simpl.
  set (data := assessment_data _ _ _ _).
  assert (Hin : In "transcript" (failed_keys (assessment_checks data)))
    by (apply failed_keys_In; simpl; tauto).
  destruct (failed_keys (assessment_checks data)) as [|k keys]; [destruct Hin|].
  simpl. eexists. split; [reflexivity|]. split; [exact Hin|]. repeat split.
Qed.

(** A silent recording: both services are asked, and the record is
    refused. *)
Lemma assessVoice_empty_transcript_witness :
  fst (assessVoice silent_env (params_with_audio [Byte.x01]) world_with_user)
  = Failure (JoiMessage ["transcript"]) ERR_INVALID_INPUT /\
  db_assessments
    (snd (assessVoice silent_env (params_with_audio [Byte.x01]) world_with_user))
  = [].
Proof.
  destruct (assessVoice_empty_transcript silent_env (params_with_audio [Byte.x01])
              world_with_user (JsString sample_response))
    as (keys & Hr & _ & [Ha _] & _);
    [reflexivity | discriminate | reflexivity | reflexivity |].
  split; [|exact Ha]. reflexivity.
Defined.

(** X12: While Firestore refuses every request, [assessVoice]
    never succeeds, whatever the parameters and the other collaborators,
    and stores nothing. *)
Theorem assessVoice_needs_firestore (env : Env) (params : AssessmentParams)
  (w : World) :
  (forall n, firestore_up env n = false) ->
  exists error code,
    fst (assessVoice env params w) = Failure error code /\
    same_db w (snd (assessVoice env params w)).
Proof.
  intros Hdown.
  destruct (fst (assessVoice env params w)) as [out|error code] eqn:E.
  - exfalso. revert E. unfold assessVoice.
    destruct (validate_params params) as [keys|v]; [discriminate|].
    destruct (transcribeAudio env _ _ w) as [[transcript|e c] w1]; [|discriminate].
    destruct (gradeTranscript env _ _ _ _ _ w1) as [[llmResponse|e c] w2];
      [|discriminate].
    simpl. unfold storeAssessment.
    destruct (validate_assessment env _ _) as [[keys|mk] w3]; [discriminate|].
    unfold add_assessment. rewrite retry_all_down by apply Hdown. discriminate.
  - exists error, code. split; [reflexivity|].
    eapply assessVoice_failure. exact E.
Qed.

(** With Firestore away the recording of user 42 is graded and lost. *)
Lemma assessVoice_needs_firestore_witness :
  exists error code,
    fst (assessVoice (failing_env 0) (params_with_audio [Byte.x01]) world_with_user)
    = Failure error code /\
    same_db world_with_user
      (snd (assessVoice (failing_env 0) (params_with_audio [Byte.x01])
              world_with_user)).
Proof.
  apply (assessVoice_needs_firestore (failing_env 0)).
  intros n. reflexivity.
Defined.

(** *** The items of the lists *)

Lemma split_on_pieces sep s piece :
  In piece (split_on sep s) -> existsb (Ascii.eqb sep) piece = false.
Proof.
  revert piece. induction s as [|c s IH]; simpl; intros piece.
  - intros [<-|[]]. reflexivity.
  - destruct (Ascii.eqb c sep) eqn:E.
    + intros [<-|H]; [reflexivity | auto].
    + destruct (split_on sep s) as [|p rest].
      * intros [<-|[]]. simpl. rewrite Ascii.eqb_sym, E. reflexivity.
      * intros [<-|H].
        -- simpl. rewrite Ascii.eqb_sym, E. apply IH. left. reflexivity.
        -- apply IH. right. exact H.
Qed.

Lemma drop_while_suffix p s : exists pre, s = pre ++ drop_while p s.
Proof. destruct (drop_while_split p s) as (ws & H & _). eauto. Qed.

Lemma trim_inside s : exists pre post, s = pre ++ trim s ++ post.
Proof.
  unfold trim. destruct (drop_while_suffix is_space s) as [pre H1].
  destruct (drop_while_suffix is_space (rev (drop_while is_space s))) as [post H2].
  exists pre, (rev post). rewrite <- rev_app_distr, <- H2, rev_involutive. exact H1.
Qed.

Lemma trim_ends s :
  match trim s with
  | c :: _ => is_space c = false
  | [] => True
  end /\
  match rev (trim s) with
  | c :: _ => is_space c = false
  | [] => True
  end.
Proof.
  unfold trim. set (t := drop_while is_space s).
  pose proof (drop_while_head is_space s) as Ht. fold t in Ht.
  pose proof (drop_while_head is_space (rev t)) as Hu.
  destruct (drop_while_suffix is_space (rev t)) as [post H2].
  set (u := drop_while is_space (rev t)) in *. split.
  - assert (H3 : t = rev u ++ rev post)
      by (rewrite <- rev_app_distr, <- H2, rev_involutive; reflexivity).
    destruct (rev u) as [|c r] eqn:Er; [exact I|].
    rewrite H3 in Ht. exact Ht.
  - rewrite rev_involutive. exact Hu.
Qed.

Lemma csv_items_tidy str : forallb tidy_item (csv_items str) = true.
Proof.
  unfold csv_items. apply forallb_forall. intros item Hin.
  apply List.filter_In in Hin. destruct Hin as [Hin Hne].
  apply in_map_iff in Hin. destruct Hin as (piece & <- & Hpiece).
  apply split_on_pieces in Hpiece.
  destruct (trim_inside piece) as (pre & post & Hp).
  destruct (trim_ends piece) as [Hhd Hlast].
  unfold tidy_item. repeat (apply andb_true_intro; split).
  - rewrite Hp, !existsb_app in Hpiece.
    apply orb_false_elim in Hpiece. destruct Hpiece as [_ H].
    apply orb_false_elim in H. destruct H as [H _]. rewrite H. reflexivity.
  - destruct (trim piece); [discriminate|]. rewrite Hhd. reflexivity.
  - destruct (rev (trim piece)) eqn:Er.
    + apply (f_equal (@rev ascii)) in Er. rewrite rev_involutive in Er.
      rewrite Er in Hne. discriminate.
    + rewrite Hlast. reflexivity.
Qed.

Lemma trim_fixed s :
  match s with c :: _ => is_space c = false | [] => True end ->
  match rev s with c :: _ => is_space c = false | [] => True end ->
  trim s = s.
Proof.
  intros Hhd Hlast. unfold trim.
  assert (H1 : drop_while is_space s = s)
    by (destruct s; simpl in *; [reflexivity | rewrite Hhd; reflexivity]).
  rewrite H1.
  assert (H2 : drop_while is_space (rev s) = rev s)
    by (destruct (rev s); simpl in *; [reflexivity | rewrite Hlast; reflexivity]).
  rewrite H2. apply rev_involutive.
Qed.

Lemma trim_idempotent s : trim (trim s) = trim s.
Proof. destruct (trim_ends s). apply trim_fixed; assumption. Qed.

Lemma tidy_items_nonempty l :
  forallb tidy_item l = true -> forallb nonempty l = true.
Proof.
  intros H. apply forallb_forall. intros s Hs.
  apply (proj1 (forallb_forall _ _) H) in Hs. unfold tidy_item in Hs.
  destruct s; [|reflexivity]. rewrite andb_false_r in Hs. discriminate.
Qed.

Lemma parse_result_items llmResponse :
  forallb nonempty (strengths (parseGradingResponse llmResponse)) = true /\
  forallb nonempty (weakAreas (parseGradingResponse llmResponse)) = true.
Proof.
  destruct llmResponse as [s| | |n]; try (split; reflexivity).
  destruct (parse_string_fields s) as (_ & _ & _ & Hs & Hw).
  rewrite Hs, Hw. split; apply tidy_items_nonempty, csv_items_tidy.
Qed.

(** X13: Whatever the response, each item of the strengths and
    of the weak areas returned by [parseGradingResponse] is not empty,
    holds no comma and has no white space at either end, and the feedback
    has no white space at either end. *)
Theorem parse_result_tidy (llmResponse : JsValue) :
  let r := parseGradingResponse llmResponse in
  forallb tidy_item (strengths r) = true /\
  forallb tidy_item (weakAreas r) = true /\
  trim (feedback r) = feedback r.
Proof.
  intros r. subst r.
  destruct llmResponse as [s| | |n]; try (repeat split; reflexivity).
  destruct (parse_string_fields s) as (_ & _ & Hf & Hs & Hw).
  rewrite Hf, Hs, Hw. split; [apply csv_items_tidy|].
  split; [apply csv_items_tidy|].
  destruct (regex_exec flags_is feedback_re s) as [[g|]|];
    [apply trim_idempotent | reflexivity | reflexivity].
Qed.

Lemma parse_score_valid llmResponse :
  valid_score (score (parseGradingResponse llmResponse)) = true.
Proof.
  destruct llmResponse as [s| | |n]; try reflexivity.
  destruct (parseGradingResponse_try_string s) as (r & Hr & z & Hz & Hrange).
  unfold parseGradingResponse. rewrite Hr, Hz. simpl. lia.
Qed.

(** X14: With parameters that pass their schema and an audio
    that is not empty, the only ERR_INVALID_INPUT that [assessVoice] can
    answer is the refusal of the record by [storeAssessment], and the
    keys it names are among [transcript] and [feedback]. *)
Theorem assessVoice_invalid_record (env : Env) (params : AssessmentParams)
  (w : World) (error : ErrorText) :
  failed_keys (params_checks params) = [] ->
  length (p_audioBuffer params) <> 0 ->
  fst (assessVoice env params w) = Failure error ERR_INVALID_INPUT ->
  exists keys,
    error = JoiMessage keys /\ keys <> [] /\
    forall k, In k keys -> k = "transcript" \/ k = "feedback".
Proof.
  intros Hvalid Hlen. unfold assessVoice.
  pose proof (failed_keys_nil _ Hvalid) as Hp.
  unfold validate_params. rewrite Hvalid. simpl.
  pose proof (transcribeAudio_codes env (p_audioBuffer params)
                (p_targetLanguage params) w) as C1.
  unfold transcribeAudio in *.
  destruct (Nat.eqb_spec (length (p_audioBuffer params)) 0); [contradiction|].
  destruct (retryOnce _ _ w) as [[transcript|e] w1]; simpl; [|discriminate].
  pose proof (gradeTranscript_codes env transcript (p_targetLanguage params)
                (default "he" (p_nativeLanguage params)) (p_lessonWords params)
                (p_expectedAnswer params) w1) as C2.
  destruct (gradeTranscript env _ _ _ _ _ w1) as [[llmResponse|e c] w2]; simpl.
  2: { intros [= _ ->]. discriminate (C2 _ _ eq_refl). }
  set (graded := parseGradingResponse llmResponse).
  unfold storeAssessment, validate_assessment. simpl.
  set (keys := failed_keys _).
  assert (Hkeys : forall k, In k keys -> k = "transcript" \/ k = "feedback").
  { subst keys. unfold failed_keys, assessment_checks, assessment_data. simpl.
    rewrite (Hp "userId" _ ltac:(simpl; tauto)).
    rewrite (Hp "lessonDay" _ ltac:(simpl; tauto)).
    rewrite (Hp "targetLanguage" _ ltac:(simpl; tauto)).
    rewrite (Hp "expectedAnswer" _ ltac:(simpl; tauto)).
    pose proof (parse_score_valid llmResponse) as Hsc. fold graded in Hsc.
    rewrite Hsc.
    destruct (parse_result_items llmResponse) as [Hs Hw].
    fold graded in Hs, Hw. rewrite Hs, Hw.
    destruct (nonempty transcript), (nonempty (feedback graded)); simpl;
      intros k Hk; intuition. }
  destruct keys as [|k keys].
  - destruct (retryWithBackoff _ _ _ _) as [[id|e] w4]; simpl; discriminate.
  - simpl. intros [= <-]. eexists. split; [reflexivity|]. split; [discriminate|].
    exact Hkeys.
Qed.

(** An empty transcript is the one key in error. *)
Lemma assessVoice_invalid_record_witness :
  exists keys,
    JoiMessage ["transcript"] = JoiMessage keys /\ keys <> [] /\
    forall k, In k keys -> k = "transcript" \/ k = "feedback".
Proof.
  apply (assessVoice_invalid_record silent_env (params_with_audio [Byte.x01])
           world_with_user);
    [reflexivity | discriminate | reflexivity].
Defined.

(** *** Profiles *)

Lemma get_user_loop env telegramId maxRetries delays :
  forall remaining attempt lastError w r w',
    retry_loop (get_user env telegramId) maxRetries delays remaining attempt
      lastError w = (r, w') ->
    same_db w w' /\
    forall data, r = Return data -> data = db_users w !! telegramId.
Proof.
  induction remaining as [|remaining IH]; intros attempt lastError w r w' H;
    simpl in H.
  - inversion H; subst. split; [apply same_db_refl | discriminate].
  - unfold get_user at 1 in H.
    destruct (firestore_up env (fs_requests w)).
    + inversion H; subst. split; [split; reflexivity|]. intros ? [= <-]. reflexivity.
    + apply IH in H. destruct H as [[Ha Hu] Hd].
      destruct (attempt <? maxRetries); simpl in *; (split; [split|]);
        try assumption; intros data Hr; rewrite (Hd _ Hr), Hu; reflexivity.
Qed.

Lemma getUser_loop_same env telegramId w :
  same_db w (snd (getUser env telegramId w)).
Proof.
  unfold getUser, retryWithBackoff.
  destruct (retry_loop _ _ _ _ _ _ w) as [r w'] eqn:E.
  apply get_user_loop in E. destruct E as [E _].
  destruct r as [[data|]|e]; exact E.
Qed.

Lemma getUser_gave_up env telegramId w :
  firestore_up env (fs_requests w) = false ->
  firestore_up env (1 + fs_requests w) = false ->
  firestore_up env (2 + fs_requests w) = false ->
  firestore_up env (3 + fs_requests w) = false ->
  getUser env telegramId w
  = (Failed (Message "Failed to retrieve user data") "ERR_DATABASE_ERROR",
     after_reads 4 [Sleep (Some 100%Z); Sleep (Some 200%Z); Sleep (Some 400%Z)] w).
Proof.
  intros H0 H1 H2 H3.
  unfold getUser, retryWithBackoff, default_maxRetries, default_delays, retry_loop,
    get_user, sleep, log_event. simpl in *.
  rewrite H0. simpl. rewrite H1. simpl. rewrite H2. simpl. rewrite H3.
  unfold after_reads. simpl. repeat rewrite <- app_assoc. reflexivity.
Qed.

Lemma getUser_served env telegramId w :
  firestore_up env (fs_requests w) = true ->
  getUser env telegramId w
  = (match db_users w !! telegramId with
     | Some data => Succeeded data
     | None => Failed (Message "User not found") "ERR_USER_NOT_FOUND"
     end, after_reads 1 [] w).
Proof.
  intros Hup.
  unfold getUser, retryWithBackoff, default_maxRetries, retry_loop, get_user.
  rewrite Hup. unfold after_reads. rewrite app_nil_r.
  destruct (db_users w !! telegramId); reflexivity.
Qed.

(** X15: [getUser] changes neither collection; a success
    carries the stored profile of that id, and [User not found] with
    ERR_USER_NOT_FOUND is answered only when no profile is stored; when
    Firestore answers the first request the stored profile, or its
    absence, is reported after that one request; after four refused
    requests (pauses of 100, 200 and 400 ms) the answer is
    ERR_DATABASE_ERROR. *)
Theorem getUser_answers (env : Env) (telegramId : string) (w : World) :
  same_db w (snd (getUser env telegramId w)) /\
  (forall data, fst (getUser env telegramId w) = Succeeded data ->
     db_users w !! telegramId = Some data) /\
  (fst (getUser env telegramId w)
   = Failed (Message "User not found") "ERR_USER_NOT_FOUND" ->
   db_users w !! telegramId = None) /\
  (firestore_up env (fs_requests w) = true ->
   getUser env telegramId w
   = (match db_users w !! telegramId with
      | Some data => Succeeded data
      | None => Failed (Message "User not found") "ERR_USER_NOT_FOUND"
      end, after_reads 1 [] w)) /\
  (firestore_up env (fs_requests w) = false ->
   firestore_up env (1 + fs_requests w) = false ->
   firestore_up env (2 + fs_requests w) = false ->
   firestore_up env (3 + fs_requests w) = false ->
   getUser env telegramId w
   = (Failed (Message "Failed to retrieve user data") "ERR_DATABASE_ERROR",
      after_reads 4 [Sleep (Some 100%Z); Sleep (Some 200%Z); Sleep (Some 400%Z)] w)).
Proof.
  unfold getUser, retryWithBackoff.
  split; [|split; [|split; [|split]]].
  - destruct (retry_loop _ _ _ _ _ _ w) as [r w'] eqn:E.
    apply get_user_loop in E. destruct E as [E _].
    destruct r as [[data|]|e]; exact E.
  - destruct (retry_loop _ _ _ _ _ _ w) as [r w'] eqn:E.
    apply get_user_loop in E. destruct E as [_ E].
    destruct r as [[data|]|e]; simpl; try discriminate.
    intros ? [= <-]. symmetry. apply E. reflexivity.
  - destruct (retry_loop _ _ _ _ _ _ w) as [r w'] eqn:E.
    apply get_user_loop in E. destruct E as [_ E].
    destruct r as [[data|]|e]; simpl; try discriminate.
    intros _. symmetry. apply E. reflexivity.
  - intros Hup. exact (getUser_served env telegramId w Hup).
  - intros H0 H1 H2 H3. exact (getUser_gave_up env telegramId w H0 H1 H2 H3).
Qed.

(** A stranger is not found at the first request; a Firestore that is
    away is asked four times. *)
Lemma getUser_answers_witness :
  getUser (demo_env 0) "7" world_with_user
  = (Failed (Message "User not found") "ERR_USER_NOT_FOUND",
     after_reads 1 [] world_with_user) /\
  fst (getUser (demo_env 0) "42" world_with_user) = Succeeded demo_profile /\
  fs_requests (snd (getUser (demo_env 100) "42" world_with_user))
  = 4 + fs_requests world_with_user.
Proof.
  split; [|split].
  - destruct (getUser_answers (demo_env 0) "7" world_with_user)
      as (_ & _ & _ & H & _). apply H. reflexivity.
  - destruct (getUser_answers (demo_env 0) "42" world_with_user)
      as (_ & _ & _ & H & _). rewrite H; reflexivity.
  - destruct (getUser_answers (demo_env 100) "42" world_with_user)
      as (_ & _ & _ & _ & H). rewrite H; reflexivity.
Defined.

Lemma upsertUser_stored env u w w' :
  upsertUser env u w = (Success tt, w') ->
  exists created,
    (forall t, ud_createdAt u = Some t -> created = t) /\
    db_users w' = <[ud_telegramId u := profile_of u created]> (db_users w) /\
    db_assessments w' = db_assessments w /\
    failed_keys (user_checks u) = [].
Proof.
  unfold upsertUser, validate_user.
  set (sw := match ud_createdAt u with Some t => (t, w) | None => new_Date env w end).
  assert (Hsw : same_db w (snd sw) /\ forall t, ud_createdAt u = Some t -> fst sw = t).
  { subst sw. destruct (ud_createdAt u); (split; [split; reflexivity|]);
      [intros ? [= <-]; reflexivity | discriminate]. }
  destruct sw as [created w0]. simpl in Hsw. destruct Hsw as [[Ha Hu] Hst].
  destruct (failed_keys (user_checks u)) as [|k keys] eqn:Ev; [|discriminate].
  unfold retryWithBackoff, set_user.
  destruct (retry_loop _ _ _ _ _ _ w0) as [r w1] eqn:E.
  apply retry_loop_cases in E; [|intros ? ? ? [=]].
  destruct r as [[]|e]; [|discriminate].
  destruct E as (w2 & [Ha2 Hu2] & [= <-]). intros [= <-].
  exists created. simpl. rewrite Ha2, Ha, Hu2, Hu. auto.
Qed.

(** X16: After a successful [upsertUser], [getUser] of the same
    id (with Firestore answering) returns the validated data: the given
    fields, and the defaults of the schema for those left out, whatever
    the profile held before; the language is one of the four supported
    codes; no other profile and no assessment is changed. *)
Theorem upsertUser_then_getUser (env : Env) (userData : UserData) (w w' : World) :
  upsertUser env userData w = (Success tt, w') ->
  firestore_up env (fs_requests w') = true ->
  exists created,
    fst (getUser env (ud_telegramId userData) w')
    = Succeeded (profile_of userData created) /\
    (forall t, ud_createdAt userData = Some t -> created = t) /\
    supported_language (ud_targetLanguage userData) = true /\
    (forall id, id <> ud_telegramId userData ->
       db_users w' !! id = db_users w !! id) /\
    db_assessments w' = db_assessments w.
Proof.
  intros Hs Hup.
  destruct (upsertUser_stored _ _ _ _ Hs) as (created & Hc & Hu & Ha & Hv).
  exists created. split; [|split; [exact Hc|split; [|split; [|exact Ha]]]].
  - unfold getUser, retryWithBackoff, default_maxRetries, retry_loop, get_user.
    rewrite Hup, Hu, lookup_insert_eq. reflexivity.
  - apply (failed_keys_nil _ Hv "targetLanguage"). simpl. tauto.
  - intros id Hne. rewrite Hu. apply lookup_insert_ne. congruence.
Qed.

(** Saving the selection of a language again resets the statistics of a
    user with a streak of seven days. *)
Lemma upsertUser_then_getUser_witness :
  streak <$> (db_users seasoned_world !! "42") = Some 7%Z /\
  fst (getUser (demo_env 0) "42"
         (snd (upsertUser (demo_env 0) demo_user seasoned_world)))
  = Succeeded demo_profile.
Proof.
  split; [reflexivity|].
  destruct (upsertUser_then_getUser (demo_env 0) demo_user seasoned_world
              (snd (upsertUser (demo_env 0) demo_user seasoned_world)))
    as (created & Hg & Hc & _); [reflexivity | reflexivity |].
  etransitivity; [exact Hg|]. rewrite (Hc 0%Z eq_refl). reflexivity.
Defined.

(** *** The table of lessons *)

Lemma languages_cases code :
  (code = "en" \/ code = "es" \/ code = "fr" \/ code = "de") \/
  languages code = Inherited \/ languages code = Undefined.
Proof.
  unfold languages, languages_table. cbn [List.find fst].
  destruct (String.eqb_spec "en" code); [subst; auto 6|].
  destruct (String.eqb_spec "es" code); [subst; auto 6|].
  destruct (String.eqb_spec "fr" code); [subst; auto 6|].
  destruct (String.eqb_spec "de" code); [subst; auto 6|].
  right.
  match goal with
  | |- context [if ?b then Inherited else Undefined] => destruct b
  end; auto.
Qed.

Ltac shipped_language code :=
  unfold getLesson;
  match code with
  | "en" => change (languages "en") with (Own en_language); unfold en_language
  | "es" => change (languages "es") with (Own es_language); unfold es_language
  | "fr" => change (languages "fr") with (Own fr_language); unfold fr_language
  | "de" => change (languages "de") with (Own de_language); unfold de_language
  end;
  cbn [lessons].

(** X17: On the table of config/languages.js, [getLesson]
    succeeds exactly on (en, 1), (en, 2), (es, 1), (es, 2), (fr, 1) and
    (de, 1); the lesson returned has five words, each with a word, a
    translation and an example that are not empty, and a prompt that is
    not empty; and a failure is never [Lesson content is malformed]. *)
Theorem getLesson_shipped (languageCode : string) (lessonDay : Z) :
  match getLesson languages languageCode lessonDay with
  | Success d =>
      In (languageCode, lessonDay) shipped_lessons /\ assessable d = true
  | Failure error code =>
      ~ In (languageCode, lessonDay) shipped_lessons /\
      error <> Message "Lesson content is malformed"
  end.
Proof.
  destruct (languages_cases languageCode) as [[-> | [-> | [-> | ->]]] | [H | H]].
  1-4: destruct (Z.eq_dec lessonDay 1%Z) as [->|H1];
    [vm_compute; intuition congruence|];
    destruct (Z.eq_dec lessonDay 2%Z) as [->|H2];
    [vm_compute; intuition congruence|];
    match goal with
    | |- context [getLesson languages ?code] => shipped_language code
    end;
    rewrite ?(proj2 (Z.eqb_neq _ _) H1), ?(proj2 (Z.eqb_neq _ _) H2);
    (split; [|discriminate]); simpl; intuition congruence.
  - unfold getLesson. rewrite H. split; [|discriminate].
    intros Hin. simpl in Hin.
    repeat (destruct Hin as [[= <- _]|Hin]; [discriminate H|]). exact Hin.
  - unfold getLesson. rewrite H. split; [|discriminate].
    intros Hin. simpl in Hin.
    repeat (destruct Hin as [[= <- _]|Hin]; [discriminate H|]). exact Hin.
Qed.

(** X18: The codes listed by [getAvailableLanguages] are
    exactly the codes that the schemas of the profile and of the
    assessment accept, and each listed language has a lesson for day 1
    that carries the listed name and flag. *)
Theorem offered_languages :
  (forall code,
     In code (map lc_code getAvailableLanguages) <-> supported_language code = true) /\
  (forall choice, In choice getAvailableLanguages ->
     exists d,
       getLesson languages (lc_code choice) 1 = Success d /\
       ld_languageName d = lc_name choice /\
       ld_languageFlag d = lc_flag choice /\
       assessable d = true).
Proof.
  split.
  - intros code. unfold supported_language.
    change (map lc_code getAvailableLanguages) with ["en"; "es"; "fr"; "de"]%string.
    simpl. rewrite !orb_true_iff, !String.eqb_eq. intuition congruence.
  - intros choice Hin. unfold getAvailableLanguages, languages_table in Hin.
    simpl in Hin.
    destruct Hin as [<-|[<-|[<-|[<-|[]]]]]; eexists; repeat split.
Qed.

(** *** The five most frequent weak areas *)

Lemma count_of_bump a b o :
  count_of a (bump b o)
  = (count_of a o + if bool_decide (b = a) then 1 else 0)%Z.
Proof.
  unfold count_of. induction o as [|[k n] o IH]; simpl.
  - destruct (bool_decide (b = a)); reflexivity.
  - destruct (bool_decide_reflect (k = b)) as [->|Hkb]; simpl.
    + destruct (bool_decide_reflect (b = a)) as [->|Hba]; simpl; lia.
    + destruct (bool_decide_reflect (k = a)) as [->|Hka]; simpl.
      * rewrite bool_decide_eq_false_2 by congruence. lia.
      * exact IH.
Qed.

Lemma bump_keys b o x :
  In x (map fst (bump b o)) <-> x = b \/ In x (map fst o).
Proof.
  induction o as [|[k n] o IH]; simpl; [intuition|].
  destruct (bool_decide_reflect (k = b)) as [->|Hkb]; simpl; [intuition|].
  rewrite IH. intuition.
Qed.

Lemma bump_NoDup b o : List.NoDup (map fst o) -> List.NoDup (map fst (bump b o)).
Proof.
  induction o as [|[k n] o IH]; simpl; intros H.
  - constructor; [intros []|constructor].
  - inversion H as [|? ? Hk Ho]; subst.
    destruct (bool_decide_reflect (k = b)) as [->|Hkb]; simpl.
    + constructor; assumption.
    + constructor; [|auto]. rewrite bump_keys. intros [->|Hin]; [congruence|auto].
Qed.

Lemma bump_positive b o :
  (forall e, In e o -> (1 <= snd e)%Z) ->
  forall e, In e (bump b o) -> (1 <= snd e)%Z.
Proof.
  induction o as [|[k n] o IH]; simpl; intros H e.
  - intros [<-|[]]. simpl. lia.
  - destruct (bool_decide (k = b)); simpl.
    + intros [<-|Hin]; [|auto]. specialize (H (k, n) (or_introl eq_refl)).
      simpl in *. lia.
    + intros [<-|Hin]; [auto|]. apply IH; auto.
Qed.

Lemma occurrences_snoc a seen b :
  occurrences a (seen ++ [b])
  = (occurrences a seen + if bool_decide (b = a) then 1 else 0)%Z.
Proof.
  unfold occurrences. rewrite List.filter_app, length_app. simpl.
  destruct (bool_decide (b = a)); simpl; lia.
Qed.

(** After the loop the object holds, for every area, the number of times
    it was named. *)
Lemma tally areas : forall seen o,
  List.NoDup (map fst o) ->
  (forall e, In e o -> (1 <= snd e)%Z) ->
  (forall a, count_of a o = occurrences a seen) ->
  let o' := fold_left (fun counts area => bump area counts) areas o in
  List.NoDup (map fst o') /\
  (forall e, In e o' -> (1 <= snd e)%Z) /\
  (forall a, count_of a o' = occurrences a (seen ++ areas)).
Proof.
  induction areas as [|b areas IH]; intros seen o Hnd Hpos Hcount; simpl.
  - rewrite app_nil_r. auto.
  - replace (seen ++ b :: areas) with ((seen ++ [b]) ++ areas)
      by (rewrite <- app_assoc; reflexivity).
    apply IH.
    + apply bump_NoDup, Hnd.
    + apply bump_positive, Hpos.
    + intros a. rewrite count_of_bump, occurrences_snoc, Hcount. reflexivity.
Qed.

Lemma count_of_In a n o :
  List.NoDup (map fst o) -> In (a, n) o -> count_of a o = n.
Proof.
  unfold count_of. induction o as [|[k m] o IH]; simpl; [tauto|].
  intros Hnd [[= -> ->]|Hin].
  - rewrite bool_decide_eq_true_2 by reflexivity. reflexivity.
  - inversion Hnd as [|? ? Hk Ho]; subst.
    destruct (bool_decide_reflect (k = a)) as [->|Hka]; [|auto].
    exfalso. apply Hk. apply in_map_iff. exists (a, n). auto.
Qed.

Lemma count_of_found a o :
  count_of a o <> 0%Z -> In (a, count_of a o) o.
Proof.
  unfold count_of. induction o as [|[k m] o IH]; simpl; [tauto|].
  destruct (bool_decide_reflect (k = a)) as [->|Hka]; simpl; auto.
Qed.

Lemma occurrences_In a areas : In a areas -> (1 <= occurrences a areas)%Z.
Proof.
  unfold occurrences. induction areas as [|b areas IH]; simpl; [tauto|].
  intros [->|Hin].
  - rewrite bool_decide_eq_true_2 by reflexivity. simpl. lia.
  - specialize (IH Hin). destruct (bool_decide (b = a)); simpl; lia.
Qed.

Lemma insert_index_perm e l : Permutation (insert_index e l) (e :: l).
Proof.
  induction l as [|x l IH]; simpl; [reflexivity|].
  destruct (_ <? _)%Z; [reflexivity|].
  rewrite IH. apply perm_swap.
Qed.

Lemma object_entries_perm o : Permutation (object_entries o) o.
Proof.
  unfold object_entries.
  transitivity (List.filter (fun e => is_array_index (fst e)) o
                ++ List.filter (fun e => negb (is_array_index (fst e))) o).
  - apply Permutation_app_tail.
    induction (List.filter _ o) as [|x l IH]; simpl; [reflexivity|].
    rewrite insert_index_perm, IH. reflexivity.
  - induction o as [|x o IH]; simpl; [reflexivity|].
    destruct (is_array_index (fst x)); simpl.
    + constructor. exact IH.
    + rewrite <- Permutation_middle. constructor. exact IH.
Qed.

Lemma insert_by_count_perm e l : Permutation (insert_by_count e l) (e :: l).
Proof.
  induction l as [|x l IH]; simpl; [reflexivity|].
  destruct (_ <=? _)%Z; [reflexivity|].
  rewrite IH. apply perm_swap.
Qed.

Lemma insert_by_count_falling e l : falling l -> falling (insert_by_count e l).
Proof.
  induction l as [|x l IH]; simpl; [intuition|].
  intros [Hx Hl]. destruct (Z.leb_spec (snd x) (snd e)); simpl.
  - split; [|auto]. intros y [<-|Hy]; [lia|]. specialize (Hx y Hy). lia.
  - split; [|auto]. intros y Hy.
    apply (Permutation_in _ (insert_by_count_perm e l)) in Hy.
    destruct Hy as [<-|Hy]; [lia | auto].
Qed.

Lemma sort_by_count_spec l :
  Permutation (sort_by_count l) l /\ falling (sort_by_count l).
Proof.
  induction l as [|e l [IHp IHf]]; simpl; [split; [reflexivity | exact I]|].
  split.
  - rewrite insert_by_count_perm, IHp. reflexivity.
  - apply insert_by_count_falling, IHf.
Qed.

Lemma falling_app l1 l2 :
  falling (l1 ++ l2) ->
  forall x y, In x l1 -> In y l2 -> (snd y <= snd x)%Z.
Proof.
  induction l1 as [|e l1 IH]; simpl; [tauto|].
  intros [He Hl] x y [<-|Hx] Hy; [apply He, in_app_iff; auto | eauto].
Qed.

Lemma falling_firstn n l : falling l -> falling (firstn n l).
Proof.
  revert n. induction l as [|e l IH]; intros [|n]; simpl; auto.
  intros [He Hl]. split; [|auto].
  intros x Hx. apply He. rewrite <- (firstn_skipn n l). apply in_app_iff. auto.
Qed.

(** What [aggregateWeakAreas] builds, with the properties in the order of
    their creation. *)
Lemma aggregateWeakAreas_spec assessments top :
  aggregateWeakAreas assessments = Some top ->
  let areas := concat (map doc_weakAreas assessments) in
  length top <= 5 /\
  List.NoDup (map fst top) /\
  falling top /\
  (forall a n, In (a, n) top -> n = occurrences a areas /\ (1 <= n)%Z) /\
  (forall a, In a areas -> ~ In a (map fst top) ->
     length top = 5 /\ forall b n, In (b, n) top -> (occurrences a areas <= n)%Z).
Proof.
  intros H areas. unfold aggregateWeakAreas in H. fold areas in H.
  destruct (existsb inherited_name areas); [discriminate|].
  injection H as <-.
  destruct (tally areas [] [] ltac:(constructor)
              (fun e (H : In e []) => match H with end)
              (fun a => eq_refl)) as (Hnd & Hpos & Hcount).
  simpl in Hcount.
  set (o := fold_left (fun counts area => bump area counts) areas []) in *.
  destruct (sort_by_count_spec (object_entries o)) as [Hperm Hfall].
  set (sorted := sort_by_count (object_entries o)) in *.
  assert (Hp : Permutation sorted o)
    by (rewrite Hperm; apply object_entries_perm).
  assert (Hnds : List.NoDup (map fst sorted)).
  { eapply Permutation_NoDup; [|exact Hnd]. symmetry. apply Permutation_map, Hp. }
  rewrite <- (firstn_skipn 5 sorted) in Hnds, Hfall.
  rewrite map_app in Hnds.
  split; [apply firstn_le_length|].
  split; [exact (NoDup_app_remove_r _ _ Hnds)|].
  split; [apply falling_firstn; rewrite <- (firstn_skipn 5 sorted); exact Hfall|].
  split.
  - intros a n Hin.
    assert (Hin' : In (a, n) o).
    { apply (Permutation_in _ Hp). rewrite <- (firstn_skipn 5 sorted).
      apply in_app_iff. auto. }
    split; [|exact (Hpos _ Hin')].
    rewrite <- Hcount. symmetry. apply count_of_In; assumption.
  - intros a Hin Hout.
    pose proof (occurrences_In a areas Hin) as Hocc.
    assert (Hino : In (a, occurrences a areas) o).
    { rewrite <- Hcount. apply count_of_found. rewrite Hcount. lia. }
    apply (Permutation_in _ (Permutation_sym Hp)) in Hino.
    rewrite <- (firstn_skipn 5 sorted) in Hino. apply in_app_iff in Hino.
    destruct Hino as [Hino|Hino].
    { exfalso. apply Hout. apply in_map_iff. exists (a, occurrences a areas). auto. }
    split.
    + apply firstn_length_le.
      destruct (le_lt_dec 5 (length sorted)) as [Hl|Hl]; [exact Hl|].
      rewrite skipn_all2 in Hino by lia. destruct Hino.
    + intros b n Hb. exact (falling_app _ _ Hfall _ _ Hb Hino).
Qed.

Lemma falling_filter (p : Text * Z -> bool) l : falling l -> falling (List.filter p l).
Proof.
  induction l as [|e l IH]; simpl; [auto|].
  intros [He Hl]. destruct (p e); simpl; [|auto].
  split; [|auto]. intros x Hx. apply He. apply filter_In in Hx. tauto.
Qed.

Lemma filter_none {A} (p : A -> bool) l :
  (forall x, In x l -> p x = false) -> List.filter p l = [].
Proof.
  induction l as [|a l IH]; simpl; intros H; [reflexivity|].
  rewrite (H a (or_introl eq_refl)). apply IH. auto.
Qed.

Lemma filter_all {A} (p : A -> bool) l :
  (forall x, In x l -> p x = true) -> List.filter p l = l.
Proof.
  induction l as [|a l IH]; simpl; intros H; [reflexivity|].
  rewrite (H a (or_introl eq_refl)). f_equal. apply IH. auto.
Qed.

Lemma filter_filter_same {A} (p : A -> bool) l :
  List.filter p (List.filter p l) = List.filter p l.
Proof.
  apply filter_all. intros x Hx. apply filter_In in Hx. tauto.
Qed.

Lemma sorted_indices_In (l : Counts) x :
  In x (fold_right insert_index [] l) -> In x l.
Proof.
  induction l as [|y l IH]; simpl; [tauto|].
  intros Hx. apply (Permutation_in _ (insert_index_perm y _)) in Hx.
  destruct Hx as [<-|Hx]; auto.
Qed.

Lemma sorted_indices_keys o x :
  In x (fold_right insert_index []
          (List.filter (fun e => is_array_index (fst e)) o)) ->
  is_array_index (fst x) = true.
Proof.
  intros Hx. apply sorted_indices_In, filter_In in Hx. tauto.
Qed.

(** Among the entries that [Object.entries] lists, those whose keys are no
    array indices keep the order of their creation, and come after the
    others. *)
Lemma object_entries_others o :
  List.filter (fun e => negb (is_array_index (fst e))) (object_entries o)
  = List.filter (fun e => negb (is_array_index (fst e))) o.
Proof.
  unfold object_entries. rewrite List.filter_app, filter_filter_same.
  rewrite filter_none; [reflexivity|].
  intros x Hx. rewrite (sorted_indices_keys o x Hx). reflexivity.
Qed.

Lemma object_entries_indices_first o :
  object_entries o
  = List.filter (fun e => is_array_index (fst e)) (object_entries o)
    ++ List.filter (fun e => negb (is_array_index (fst e))) (object_entries o).
Proof.
  rewrite object_entries_others. unfold object_entries at 2.
  rewrite List.filter_app.
  rewrite (filter_all (fun e => is_array_index (fst e)))
    by (intros x Hx; exact (sorted_indices_keys o x Hx)).
  rewrite (filter_none (fun e => is_array_index (fst e))
             (List.filter (fun e => negb (is_array_index (fst e))) o)).
  - rewrite app_nil_r. reflexivity.
  - intros x Hx. apply filter_In in Hx. destruct Hx as [_ Hx].
    apply negb_true_iff in Hx. exact Hx.
Qed.

Lemma object_entries_plain o :
  (forall e, In e o -> is_array_index (fst e) = false) -> object_entries o = o.
Proof.
  intros H. unfold object_entries.
  rewrite filter_none by exact H. simpl.
  apply filter_all. intros x Hx. rewrite (H x Hx). reflexivity.
Qed.

(** X19: When no weak area names a member of [Object.prototype], the
    object that [aggregateWeakAreas] returns has at most five entries,
    with distinct keys; each count is the number of occurrences of the
    area in the assessments; and an area is left out only when there are
    five entries, none of them with a smaller count.  As [Object.entries]
    lists them, the entries whose keys are no array indices are in falling
    order of their counts, after those whose keys are; so all of them are
    in falling order when no area is written like an array index. *)
Theorem aggregateWeakAreas_top_five (assessments : list AssessmentDoc)
  (top : Counts) :
  aggregateWeakAreas assessments = Some top ->
  let areas := concat (map doc_weakAreas assessments) in
  let entries := object_entries top in
  length entries <= 5 /\
  List.NoDup (map fst entries) /\
  (forall a n, In (a, n) entries -> n = occurrences a areas /\ (1 <= n)%Z) /\
  (forall a, In a areas -> ~ In a (map fst entries) ->
     length entries = 5 /\
     forall b n, In (b, n) entries -> (occurrences a areas <= n)%Z) /\
  entries
  = List.filter (fun e => is_array_index (fst e)) entries
    ++ List.filter (fun e => negb (is_array_index (fst e))) entries /\
  falling (List.filter (fun e => negb (is_array_index (fst e))) entries) /\
  ((forall a, In a areas -> is_array_index a = false) -> falling entries).
Proof.
  intros H areas entries.
  destruct (aggregateWeakAreas_spec assessments top H)
    as (Hlen & Hnd & Hfall & Hcount & Htop).
  fold areas in Hcount, Htop.
  pose proof (object_entries_perm top) as Hp. fold entries in Hp.
  assert (Hin : forall e, In e entries <-> In e top).
  { intros e. split; apply Permutation_in; [exact Hp | symmetry; exact Hp]. }
  assert (Hkeys : forall a, In a (map fst entries) <-> In a (map fst top)).
  { intros a. split; apply Permutation_in, Permutation_map;
      [exact Hp | symmetry; exact Hp]. }
  split; [rewrite (Permutation_length Hp); exact Hlen|].
  split.
  { eapply Permutation_NoDup; [|exact Hnd]. symmetry. apply Permutation_map, Hp. }
  split; [intros a n Ha; apply Hcount, Hin, Ha|].
  split.
  { intros a Ha Hout.
    destruct (Htop a Ha) as [H5 Hle]; [rewrite <- Hkeys; exact Hout|].
    split; [rewrite (Permutation_length Hp); exact H5|].
    intros b n Hb. apply (Hle b n), Hin, Hb. }
  split; [apply object_entries_indices_first|].
  split.
  { subst entries. rewrite object_entries_others. apply falling_filter, Hfall. }
  intros Hplain. subst entries. rewrite object_entries_plain; [exact Hfall|].
  intros [a n] He. simpl. apply Hplain.
  destruct (Hcount a n He) as [-> Hpos].
  unfold occurrences in Hpos.
  destruct (List.filter (fun x => bool_decide (x = a)) areas) as [|x l] eqn:Ef;
    [simpl in Hpos; lia|].
  assert (Hx : In x (List.filter (fun x => bool_decide (x = a)) areas))
    by (rewrite Ef; left; reflexivity).
  apply filter_In in Hx. destruct Hx as [Hx Hd].
  apply bool_decide_eq_true in Hd. subst x. exact Hx.
Qed.

(** Eight areas are named.  The object holds the two named more than
    once, the areas "7" and "10" and the first of the others; a caller
    reads "7" and "10" first.  "vowels", "articles" and "stress" are left
    out. *)
Lemma aggregateWeakAreas_top_five_witness :
  exists top,
    aggregateWeakAreas week_of_assessments = Some top /\
    object_entries top
    = [ (txt "7", 1%Z); (txt "10", 1%Z); (txt "Grammar", 3%Z); (txt "pace", 2%Z);
        (txt "word order", 1%Z) ] /\
    forall b n,
      In (b, n) (object_entries top) ->
      (occurrences (txt "stress")
         (concat (map doc_weakAreas week_of_assessments)) <= n)%Z.
Proof.
  eexists. split; [reflexivity|]. split; [reflexivity|].
  match goal with
  | |- forall b n, In _ (object_entries ?top) -> _ =>
      destruct (aggregateWeakAreas_top_five week_of_assessments top eq_refl)
        as (_ & _ & _ & H & _)
  end.
  apply (H (txt "stress")).
  - vm_compute. tauto.
  - vm_compute. intros H0. repeat (destruct H0 as [H0|H0]; [discriminate|]).
    exact H0.
Defined.

(** *** Recommendations *)

Lemma recommend_cases area :
  (mentions_rubric area = false /\ recommend area = []) \/
  (mentions_rubric area = true /\
   exists r, recommend area = [r] /\ In r (map snd areaRecommendations)).
Proof.
  unfold recommend, mentions_rubric.
  induction areaRecommendations as [|[k r] table IH]; simpl; [auto|].
  destruct (includes (toLowerCase area) k); simpl.
  - right. split; [reflexivity|]. exists r. auto.
  - destruct IH as [[H1 H2]|(H1 & r' & H2 & H3)]; [left; auto|].
    right. split; [exact H1|]. exists r'. auto.
Qed.

Lemma recommendations_spec keys :
  let recommendations := flat_map recommend keys in
  length recommendations <= length keys /\
  (forall r, In r recommendations -> In r (map snd areaRecommendations)) /\
  (recommendations = [] <-> forallb (fun k => negb (mentions_rubric k)) keys = true).
Proof.
  induction keys as [|k keys (IHl & IHin & IHnil)]; simpl.
  - split; [lia|]. split; [tauto|]. tauto.
  - destruct (recommend_cases k) as [[Hm Hr]|(Hm & r & Hr & Hin)]; rewrite Hr, Hm; simpl.
    + split; [lia|]. split; [exact IHin | exact IHnil].
    + split; [lia|]. split.
      * intros x [<-|Hx]; [exact Hin | exact (IHin x Hx)].
      * split; discriminate.
Qed.

(** X20: [generateRecommendations] never returns an empty
    list and never more recommendations than there are weak areas (one
    when there is none); each of them is one of the five texts of the
    table or the default; and the answer is the default alone exactly
    when no weak area, in lower case, contains one of the five keys. *)
Theorem generateRecommendations_answers (weakAreas : Counts) :
  let recommendations := generateRecommendations weakAreas in
  1 <= length recommendations <= Nat.max 1 (length weakAreas) /\
  (forall r, In r recommendations ->
     r = default_recommendation \/ In r (map snd areaRecommendations)) /\
  (recommendations = [default_recommendation] <->
   forall area, In area (map fst weakAreas) -> mentions_rubric area = false).
Proof.
  intros recommendations. subst recommendations. unfold generateRecommendations.
  destruct (recommendations_spec (object_keys weakAreas)) as (Hl & Hin & Hnil).
  assert (Hlen : length (object_keys weakAreas) = length weakAreas).
  { unfold object_keys. rewrite length_map.
    apply Permutation_length, object_entries_perm. }
  assert (Hkeys : forall a, In a (object_keys weakAreas) <-> In a (map fst weakAreas)).
  { intros a. unfold object_keys. split; apply Permutation_in, Permutation_map;
      [|symmetry]; apply object_entries_perm. }
  assert (Hall : forallb (fun k => negb (mentions_rubric k)) (object_keys weakAreas)
                 = true
                 <-> forall area, In area (map fst weakAreas) ->
                                  mentions_rubric area = false).
  { rewrite forallb_forall. split; intros H a Ha.
    - apply Hkeys in Ha. apply H in Ha. apply negb_true_iff in Ha. exact Ha.
    - apply negb_true_iff, H, Hkeys, Ha. }
  destruct (flat_map recommend (object_keys weakAreas)) as [|r rs] eqn:E; simpl.
  - split; [lia|]. split; [intros r [<-|[]]; auto|].
    split; [intros _; apply Hall, Hnil; reflexivity | reflexivity].
  - split; [simpl in Hl; lia|]. split; [intros x Hx; right; apply Hin, Hx|].
    split.
    + intros [= -> ->]. exfalso.
      specialize (Hin default_recommendation (or_introl eq_refl)).
      vm_compute in Hin. repeat (destruct Hin as [Hin|Hin]; [discriminate|]).
      exact Hin.
    + intros H. apply Hall, Hnil in H. discriminate.
Qed.

(** *** The tool of the MCP server *)

(** X21: The tool [assess_voice] declares only userId,
    lessonDay, targetLanguage and audioUrl as required, yet a call
    without lesson words (absent or empty) is always refused, with
    ERR_INVALID_INPUT or ERR_AUDIO_DOWNLOAD, and changes nothing: the
    default [] does not pass the schema of [assessVoice]. *)
Theorem handleAssessVoice_without_words (env : Env)
  (download : string -> option (list Byte.byte)) (params : ToolArguments)
  (w : World) :
  default [] (t_lessonWords params) = [] ->
  exists error code,
    handleAssessVoice env download (Some params) w = (Failed error code, w) /\
    (code = "ERR_INVALID_INPUT" \/ code = "ERR_AUDIO_DOWNLOAD").
Proof.
  intros Hwords. unfold handleAssessVoice.
  destruct (t_userId params) as [userId|]; [|eauto].
  destruct (t_lessonDay params) as [lessonDay|]; [|eauto].
  destruct (t_targetLanguage params) as [targetLanguage|]; [|eauto].
  destruct (t_audioUrl params) as [audioUrl|]; [|eauto].
  destruct (_ || _); [eauto|].
  destruct (download audioUrl) as [audioBuffer|]; [|eauto].
  rewrite Hwords. unfold assessVoice, validate_params.
  set (p := {| p_userId := userId |}).
  assert (Hin : In "lessonWords" (failed_keys (params_checks p)))
    by (apply failed_keys_In; simpl; tauto).
  destruct (failed_keys (params_checks p)); [destruct Hin|]. eauto.
Qed.

(** X22: A successful call of the tool has stored exactly one
    assessment, of the given user, whose id and score are those of the
    answer; a refused call leaves both collections unchanged, with one of
    the five codes ERR_INVALID_INPUT, ERR_AUDIO_DOWNLOAD,
    ERR_TRANSCRIPTION_FAILED, ERR_GRADING_FAILED and ERR_DATABASE_ERROR. *)
Theorem handleAssessVoice_all_or_nothing (env : Env)
  (download : string -> option (list Byte.byte)) (params : option ToolArguments)
  (w : World) :
  let w' := snd (handleAssessVoice env download params w) in
  match fst (handleAssessVoice env download params w) with
  | Succeeded answer =>
      exists userId doc,
        (params ≫= t_userId) = Some userId /\
        db_assessments w' = db_assessments w ++ [doc] /\
        doc_userId doc = userId /\
        doc_id doc = ta_assessmentId answer /\
        ta_score answer = Int (doc_score doc)
  | Failed error code => same_db w w' /\ In code tool_codes
  end.
Proof.
  intros w'. subst w'. unfold handleAssessVoice.
  destruct params as [params|]; [|simpl; split; [apply same_db_refl | tauto]].
  destruct (t_userId params) as [userId|] eqn:Eu;
    [|simpl; split; [apply same_db_refl | tauto]].
  destruct (t_lessonDay params) as [lessonDay|];
    [|simpl; split; [apply same_db_refl | tauto]].
  destruct (t_targetLanguage params) as [targetLanguage|];
    [|simpl; split; [apply same_db_refl | tauto]].
  destruct (t_audioUrl params) as [audioUrl|];
    [|simpl; split; [apply same_db_refl | tauto]].
  destruct (_ || _); [simpl; split; [apply same_db_refl | tauto]|].
  destruct (download audioUrl) as [audioBuffer|];
    [|simpl; split; [apply same_db_refl | tauto]].
  set (p := {| p_userId := userId |}).
  destruct (assessVoice env p w) as [[data|error code] w1] eqn:E; simpl.
  - destruct (assessVoice_success _ _ _ _ _ E)
      as (w4 & doc & _ & Ha & Hd1 & Hd2 & Hd3 & ->).
    exists userId, doc. rewrite Eu.
    rewrite (proj1 (update_statistics_cases env (p_userId p) w4)). auto.
  - pose proof (assessVoice_failure env p w error code) as H. rewrite E in H.
    destruct (H eq_refl) as [Hdb Hc]. split; [exact Hdb|].
    destruct Hc as [-> | [-> | [-> | ->]]]; simpl; tauto.
Qed.

(** The four required arguments are not enough: the audio is downloaded
    and the call refused. *)
Lemma handleAssessVoice_without_words_witness :
  handleAssessVoice (demo_env 0) (fun _ => Some [Byte.x01]) (Some bare_call)
    world_with_user
  = (Failed (JoiMessage ["lessonWords"]) "ERR_INVALID_INPUT", world_with_user).
Proof.
  destruct (handleAssessVoice_without_words (demo_env 0)
              (fun _ => Some [Byte.x01]) bare_call world_with_user eq_refl)
    as (error & code & Hrun & _).
  rewrite Hrun. vm_compute in Hrun. injection Hrun as <- <-. reflexivity.
Defined.

(** *** A blank feedback line *)

(** X23: When the text after FEEDBACK: is blank up to the end
    of its line, [\s*] runs over the line break and the feedback returned
    by [parseGradingResponse] is the whole STRENGTHS line, label
    included. *)
Theorem parse_blank_feedback_line (d bf s w : Text) :
  forallb is_digit d = true ->
  blank bf = true ->
  one_line s = true ->
  lacks (txt "STRENGTHS:") s = true -> lacks (txt "WEAK_AREAS:") s = true ->
  feedback (parseGradingResponse (JsString (four_lines d bf s w)))
  = trim (txt "STRENGTHS: " ++ s).
Proof.
  intros Hd Hbf Hs1 Hs3 Hs4.
  set (body := txt "STRENGTHS: " ++ s).
  set (rest := [LF] ++ txt "WEAK_AREAS: " ++ w).
  set (inner := txt "TRENGTHS: " ++ s).
  assert (Hinner1 : one_line inner = true) by (subst inner; simpl; exact Hs1).
  assert (Hinner3 : lacks (txt "STRENGTHS:") inner = true).
  { subst inner. unfold lacks in *.
    cbn [txt list_ascii_of_string app]. skip_chars. exact Hs3. }
  assert (Hinner4 : lacks (txt "WEAK_AREAS:") inner = true).
  { subst inner. unfold lacks in *.
    cbn [txt list_ascii_of_string app]. skip_chars. exact Hs4. }
  assert (Hrun : run flags_is (section_body feedback_tail)
                   ((" "%char :: bf ++ [LF]) ++ body ++ rest) None
                   (fun _ c => Some c) = Some (Some body)).
  { apply run_section_body.
    - simpl. rewrite forallb_app. unfold blank in Hbf. rewrite Hbf. reflexivity.
    - reflexivity.
    - intros pre t cap Hsplit Hpre Ht. rewrite run_feedback_tail.
      destruct pre as [|p pre]; [congruence|]. destruct t as [|c t]; [congruence|].
      assert (Hin : inner = pre ++ c :: t).
      { subst body inner. simpl in Hsplit. injection Hsplit as _ Hsplit.
        exact Hsplit. }
      unfold feedback_stop. subst rest. simpl app.
      rewrite (starts_with_LF_inside inner pre c t _ Hinner1 Hin).
      rewrite (starts_with_label_inside (txt "STRENGTHS:") inner pre c t _
                 eq_refl Hinner3 Hin).
      rewrite (starts_with_label_inside (txt "WEAK_AREAS:") inner pre c t _
                 eq_refl Hinner4 Hin).
      reflexivity.
    - intros cap. rewrite run_feedback_tail. reflexivity. }
  destruct (parse_string_fields (four_lines d bf s w)) as (_ & _ & Hf & _).
  rewrite Hf.
  assert (Hexec : regex_exec flags_is feedback_re (four_lines d bf s w)
                  = Some (Some body)).
  { change feedback_re
      with (RSeq (RLit (txt "FEEDBACK:")) (section_body feedback_tail)).
    eapply regex_exec_first_label; [|exact Hrun].
    unfold four_lines. subst body rest.
    cbn [txt list_ascii_of_string app flags_is ignoreCase]. skip_chars.
    rewrite (find_lit_skip_class is_digit) by (exact Hd || apply digit_facts).
    skip_chars. rewrite find_lit_here with (r := (" "%char :: bf ++ [LF]) ++
      txt "STRENGTHS: " ++ s ++ [LF] ++ txt "WEAK_AREAS: " ++ w).
    - reflexivity.
    - simpl. rewrite <- !app_assoc. reflexivity. }
  rewrite Hexec. reflexivity.
Qed.

(** The grader left the feedback empty: the feedback returned is the line
    of the strengths. *)
Lemma parse_blank_feedback_line_witness :
  feedback
    (parseGradingResponse
       (JsString (four_lines (txt "85") [] (txt "clarity, pace") (txt "grammar"))))
  = txt "STRENGTHS: clarity, pace".
Proof.
  apply (parse_blank_feedback_line (txt "85") [] (txt "clarity, pace")
           (txt "grammar")); reflexivity.
Defined.

(** *** Active days *)

Lemma dates_since_spec cutoff l : forall s0,
  distinct s0 ->
  let s := fold_left
             (fun uniqueDates assessment =>
                if (cutoff <=? doc_timestamp assessment)%Z
                then set_add (date_string (doc_timestamp assessment)) uniqueDates
                else uniqueDates) l s0 in
  distinct s /\
  length s <= length s0 + length l /\
  forall y, In y s ->
    In y s0 \/
    exists a, In a l /\ (cutoff <= doc_timestamp a)%Z /\
              y = date_string (doc_timestamp a).
Proof.
  induction l as [|a l IH]; intros s0 Hs0; simpl.
  - split; [exact Hs0|]. split; [lia | auto].
  - destruct (Z.leb_spec cutoff (doc_timestamp a)).
    + destruct (IH (set_add (date_string (doc_timestamp a)) s0)
                  (set_add_distinct _ _ Hs0)) as (Hd & Hl & Hin).
      split; [exact Hd|]. split.
      * pose proof (set_add_length (date_string (doc_timestamp a)) s0). lia.
      * intros y Hy. destruct (Hin y Hy) as [Hy'|(b & Hb & Hc & ->)].
        -- apply set_add_In in Hy'. destruct Hy' as [->|Hy']; [|auto].
           right. exists a. auto.
        -- right. exists b. auto.
    + destruct (IH s0 Hs0) as (Hd & Hl & Hin).
      split; [exact Hd|]. split; [lia|].
      intros y Hy. destruct (Hin y Hy) as [Hy'|(b & Hb & Hc & ->)]; [auto|].
      right. exists b. auto.
Qed.

Lemma distinct_NoDup l : distinct l -> List.NoDup l.
Proof.
  induction l as [|x l IH]; simpl; intros H; constructor; tauto.
Qed.

(** Distinct integers of an interval of [n + 1] integers. *)
Lemma distinct_in_range l lo n :
  distinct l -> (0 <= n)%Z ->
  (forall y, In y l -> (lo <= y <= lo + n)%Z) ->
  (Z.of_nat (length l) <= n + 1)%Z.
Proof.
  intros Hd Hn Hin.
  assert (Hincl : incl (map (fun y => Z.to_nat (y - lo)) l) (seq 0 (Z.to_nat (n + 1)))).
  { intros k Hk. apply in_map_iff in Hk. destruct Hk as (y & <- & Hy).
    specialize (Hin y Hy). apply in_seq. lia. }
  assert (Hnd : List.NoDup (map (fun y => Z.to_nat (y - lo)) l)).
  { apply Finite.Injective_map_NoDup_in; [|apply distinct_NoDup, Hd].
    intros x y Hx Hy Heq. pose proof (Hin x Hx). pose proof (Hin y Hy). lia. }
  pose proof (NoDup_incl_length Hnd Hincl) as Hlen.
  rewrite length_map, length_seq in Hlen. lia.
Qed.

Lemma date_string_shift t n :
  (date_string (t - n * 24 * 60 * 60 * 1000) = date_string t - n)%Z.
Proof.
  unfold date_string, MS_PER_DAY.
  replace (t - n * 24 * 60 * 60 * 1000)%Z
    with (t + (- n) * (1000 * 60 * 60 * 24))%Z by lia.
  rewrite Z.div_add by discriminate. lia.
Qed.

Lemma date_string_mono a b : (a <= b)%Z -> (date_string a <= date_string b)%Z.
Proof. intros H. unfold date_string. apply Z.div_le_mono; [reflexivity | exact H]. Qed.

(** X24: [daysActive] of [calculateConsistency] is at most the
    number of records read, hence at most 100; when no record of the user
    is stamped after the clock and [days >= 0] it is at most [days + 1]
    (the window of [days] times 24 hours touches [days + 1] calendar
    dates); an empty history gives 0 days and streak 0; the call changes
    neither collection. *)
Theorem calculateConsistency_active_days (env : Env) (userId : string)
  (days : Z) (w : World) :
  let result := fst (calculateConsistency env userId days w) in
  daysActive result <= length (run_query userId 100 (db_assessments w)) <= 100 /\
  ((0 <= days)%Z ->
   (forall a now, In a (db_assessments w) -> doc_userId a = userId ->
      (doc_timestamp a <= clock env now)%Z) ->
   (Z.of_nat (daysActive result) <= days + 1)%Z) /\
  (fst (getUserAssessments env userId 100 w) = Success [] ->
   result = {| daysActive := 0; c_streak := 0 |}) /\
  same_db w (snd (calculateConsistency env userId days w)).
Proof.
  intros result. subst result. unfold calculateConsistency.
  destruct (getUserAssessments_cases env userId 100 w) as [Hdb Hq].
  pose proof (run_query_length userId 100 (db_assessments w)) as [Hl100 _].
  destruct (getUserAssessments env userId 100 w)
    as [[assessments|error code] w1]; simpl in *.
  2: { split; [lia|]. split; [lia|]. split; [discriminate | exact Hdb]. }
  specialize (Hq _ eq_refl).
  destruct (length assessments =? 0) eqn:El; simpl.
  { split; [lia|]. split; [lia|]. split; [reflexivity | exact Hdb]. }
  set (now := clock env (clock_reads w1)).
  set (cutoff := (now - days * 24 * 60 * 60 * 1000)%Z).
  destruct (dates_since_spec cutoff assessments [] I) as (Hd & Hlen & Hin).
  fold (dates_since cutoff assessments) in Hd, Hlen, Hin.
  set (w2 := {| db_assessments := db_assessments w1 |}).
  destruct (getUser_loop_same env userId w2) as [Ha3 Hu3].
  destruct (getUser env userId w2) as [userResult w3]. simpl in *.
  split; [rewrite <- Hq in Hl100 |- *; simpl in Hlen; lia|]. split; [|split].
  - intros Hdays Hclock.
    apply (distinct_in_range _ (date_string now - days)%Z); [exact Hd | exact Hdays|].
    intros y Hy. destruct (Hin y Hy) as [[]|(a & Ha & Hc & ->)].
    assert (Hstored : In a (db_assessments w) /\ doc_userId a = userId).
    { rewrite Hq in Ha. unfold run_query in Ha.
      assert (Ha' : In a (order_by_timestamp_desc
                            (List.filter
                               (fun d => String.eqb (doc_userId d) userId)
                               (db_assessments w)))).
      { rewrite <- (firstn_skipn 100 (order_by_timestamp_desc _)).
        apply in_app_iff. auto. }
      apply order_by_timestamp_desc_spec, List.filter_In in Ha'.
      rewrite String.eqb_eq in Ha'. exact Ha'. }
    destruct Hstored as [Hs1 Hs2].
    pose proof (Hclock a (clock_reads w1) Hs1 Hs2) as Hnow. fold now in Hnow.
    pose proof (date_string_mono _ _ Hc) as H1.
    pose proof (date_string_mono _ _ Hnow) as H2.
    subst cutoff. rewrite date_string_shift in H1. lia.
  - intros [= ->]. discriminate El.
  - destruct Hdb as [Ha1 Hu1]. split; simpl; congruence.
Qed.

(** A window of seven days holds eight calendar dates. *)
Lemma calculateConsistency_active_days_witness :
  daysActive (fst (calculateConsistency noon_env "42" 7 eight_days_world)) = 8 /\
  (Z.of_nat
     (daysActive (fst (calculateConsistency noon_env "42" 7 eight_days_world)))
   <= 7 + 1)%Z.
Proof.
  split; [reflexivity|].
  destruct (calculateConsistency_active_days noon_env "42" 7 eight_days_world)
    as (_ & H & _).
  apply H; [lia|].
  intros a now Hin _. simpl in Hin.
  repeat (destruct Hin as [<-|Hin]; [vm_compute; discriminate|]).
  destruct Hin.
Defined.

(** *** The handlers *)

Lemma string_or_nonempty x fallback :
  fallback <> ""%string -> string_or x fallback <> ""%string.
Proof.
  intros Hf. unfold string_or. destruct x as [s|]; [|exact Hf].
  destruct (String.eqb_spec s ""); assumption.
Qed.

Lemma nonempty_string_true s : s <> ""%string -> nonempty_string s = true.
Proof.
  intros H. unfold nonempty_string. destruct (String.eqb_spec s ""); [contradiction|].
  reflexivity.
Qed.

Lemma supported_language_text code :
  supported_language code = true ->
  strip_lit false (txt "lang_") (language_button code)
  = Some (txt code) /\
  txt code <> [] /\
  forallb (fun a => negb (is_line_terminator a)) (txt code) = true /\
  string_of_list_ascii (txt code) = code.
Proof.
  unfold supported_language. rewrite !orb_true_iff, !String.eqb_eq.
  intros [[[-> | ->] | ->] | ->]; repeat split; discriminate.
Qed.

(** X25: The action [lang_<code>] of index.js takes every
    failure of [getUser] for a new user: when the four requests of the
    read are refused and Firestore then answers, the profile stored under
    the id is replaced by a fresh one (day 1, streak 0, no lessons,
    average 0, created now), also for a user who had a profile. *)
Theorem language_action_after_failed_read (env : Env) (ctx : Context)
  (languageCode : string) (w : World) :
  callback_data ctx = language_button languageCode ->
  supported_language languageCode = true ->
  from_id ctx <> ""%string ->
  firestore_up env (fs_requests w) = false ->
  firestore_up env (1 + fs_requests w) = false ->
  firestore_up env (2 + fs_requests w) = false ->
  firestore_up env (3 + fs_requests w) = false ->
  firestore_up env (4 + fs_requests w) = true ->
  exists sent w',
    language_action env ctx w = Some (sent, w') /\
    db_users w'
    = <[from_id ctx :=
          fresh_profile ctx languageCode (clock env (clock_reads w))]> (db_users w) /\
    db_assessments w' = db_assessments w.
Proof.
  intros Hdata Hlang Hid H0 H1 H2 H3 H4.
  destruct (supported_language_text _ Hlang) as (Hstrip & Hne & Hline & Hcode).
  unfold language_action. rewrite Hdata, Hstrip.
  destruct (txt languageCode) as [|c rest] eqn:Et; [congruence|].
  rewrite Hline, Hcode.
  rewrite (getUser_gave_up env (from_id ctx) w H0 H1 H2 H3).
  unfold handleLanguageSelection, new_Date. simpl.
  set (userData := {| ud_telegramId := from_id ctx |}).
  set (w0 := {| db_assessments := db_assessments w |}).
  assert (Hvalid : failed_keys (user_checks userData) = []).
  { unfold failed_keys, user_checks, userData. simpl. rewrite Hlang.
    rewrite (nonempty_string_true _ Hid).
    rewrite (nonempty_string_true _ (string_or_nonempty _ _
               (string_or_nonempty _ "User" ltac:(discriminate)))).
    reflexivity. }
  unfold upsertUser, validate_user. rewrite Hvalid. simpl.
  unfold set_user. erewrite retry_first_up; [|exact H4 | reflexivity].
  destruct (getLesson languages languageCode 1); eexists _, _;
    (split; [reflexivity|]); split; reflexivity.
Qed.

(** User 42 has a streak of seven days and presses the button of Spanish
    while Firestore is away for four requests: the profile is a new one. *)
Lemma language_action_after_failed_read_witness :
  streak <$> (db_users seasoned_world !! "42") = Some 7%Z /\
  exists sent w',
    language_action (flaky_env 2 6) (dana (txt "lang_es")) seasoned_world
    = Some (sent, w') /\
    db_users w' !! "42" = Some (fresh_profile (dana (txt "lang_es")) "es" 0).
Proof.
  split; [reflexivity|].
  destruct (language_action_after_failed_read (flaky_env 2 6) (dana (txt "lang_es"))
              "es" seasoned_world) as (sent & w' & Hrun & Hu & _);
    [reflexivity | reflexivity | discriminate | reflexivity | reflexivity
    | reflexivity | reflexivity | reflexivity |].
  exists sent, w'. split; [exact Hrun|]. rewrite Hu. apply lookup_insert_eq.
Defined.

(** X26: For a user with a profile and Firestore answering,
    [handleLanguageChangeCallback] writes the language code as given,
    without a check, and sets the lesson day to 1; streak, number of
    lessons, average, name and creation date are kept; the two messages
    are sent.  For a code outside the table the profile then names a
    language for which [getLesson] fails on every day. *)
Theorem handleLanguageChangeCallback_profile (env : Env) (ctx : Context)
  (newLanguageCode : string) (w : World) (user : UserDoc) :
  db_users w !! from_id ctx = Some user ->
  firestore_up env (fs_requests w) = true ->
  exists w',
    handleLanguageChangeCallback env ctx newLanguageCode w
    = ([ AnswerCbQuery (txt "Language updated!");
         Reply
           (txt "✅ Language changed successfully!" ++ [LF; LF]
              ++ txt "Your progress has been reset to Day 1." ++ [LF; LF]
              ++ txt "Use /lesson to start your first lesson.")
           [] ], w') /\
    exists user',
      db_users w' = <[from_id ctx := user']> (db_users w) /\
      targetLanguage user' = newLanguageCode /\ lessonDay user' = 1%Z /\
      streak user' = streak user /\ totalLessons user' = totalLessons user /\
      avgScore user' = avgScore user /\ name user' = name user /\
      createdAt user' = createdAt user /\
      (supported_language newLanguageCode = false ->
       forall lessonDay, exists error code,
         getLesson languages newLanguageCode lessonDay = Failure error code).
Proof.
  intros Hu Hup. unfold handleLanguageChangeCallback, updateUserStats, update_user.
  erewrite retry_first_up; [|exact Hup | simpl; rewrite Hu; reflexivity].
  eexists. split; [reflexivity|]. eexists. split; [reflexivity|].
  simpl. repeat split.
  intros Hno lessonDay.
  destruct (languages_cases newLanguageCode) as [[-> | [-> | [-> | ->]]] | [H | H]];
    try discriminate; unfold getLesson; rewrite H; eauto.
Qed.

(** A stranger's code is stored as it comes, and no lesson is found for
    it afterwards. *)
Lemma handleLanguageChangeCallback_profile_witness :
  targetLanguage <$>
    (db_users
       (snd (handleLanguageChangeCallback (demo_env 0) (dana (txt "lang_xx")) "xx"
               seasoned_world)) !! "42")
  = Some "xx"%string /\
  streak <$>
    (db_users
       (snd (handleLanguageChangeCallback (demo_env 0) (dana (txt "lang_xx")) "xx"
               seasoned_world)) !! "42")
  = Some 7%Z.
Proof.
  destruct (db_users seasoned_world !! "42") as [user|] eqn:Eu; [|discriminate Eu].
  destruct (handleLanguageChangeCallback_profile (demo_env 0) (dana (txt "lang_xx"))
              "xx" seasoned_world user Eu eq_refl)
    as (w' & Hrun & user' & Hu & Ht & _ & Hs & _).
  rewrite Hrun. simpl. rewrite Hu, lookup_insert_eq. simpl.
  rewrite Ht, Hs. split; [reflexivity|].
  injection Eu as <-. reflexivity.
Defined.

Lemma split_on_no_sep sep s :
  existsb (Ascii.eqb sep) s = false -> split_on sep s = [s].
Proof.
  induction s as [|c s IH]; simpl; [reflexivity|].
  intros H. apply orb_false_elim in H. destruct H as [Hc Hs].
  rewrite Ascii.eqb_sym, Hc, (IH Hs). reflexivity.
Qed.

Lemma digits_no_underscore digits :
  forallb is_digit digits = true -> existsb (Ascii.eqb "_") digits = false.
Proof.
  induction digits as [|c digits IH]; simpl; [reflexivity|].
  intros H. apply andb_prop in H. destruct H as [Hc Hd]. rewrite (IH Hd).
  rewrite orb_false_r. revert Hc. each_char c; try reflexivity; discriminate.
Qed.

Lemma completed_day_digits digits :
  digits <> [] -> forallb is_digit digits = true ->
  (digits_value 0 digits <= MAX_SAFE_INTEGER)%Z ->
  completed_day (txt "lesson_complete_" ++ digits) = Some (digits_value 0 digits).
Proof.
  intros Hne Hd Hmax. unfold completed_day.
  assert (Hsplit : split_on "_" (txt "lesson_complete_" ++ digits)
                   = [txt "lesson"; txt "complete"; digits]).
  { cbn [txt list_ascii_of_string app]. simpl.
    rewrite (split_on_no_sep _ _ (digits_no_underscore _ Hd)). reflexivity. }
  rewrite Hsplit. cbn [nth_error].
  assert (Hp : parseInt10 (Some digits) = Int (digits_value 0 digits)).
  { destruct digits as [|c digits]; [congruence|].
    simpl in Hd. apply andb_prop in Hd. destruct Hd as [Hc _].
    unfold parseInt10. rewrite Hc. reflexivity. }
  rewrite Hp.
  destruct (Z.leb_spec (digits_value 0 digits) MAX_SAFE_INTEGER); [reflexivity|lia].
Qed.

(** X27: For the callback [lesson_complete_<k>] of a user with
    a profile, Firestore answering, [handleLessonComplete] sets the lesson
    day to [k + 1], whatever the day of the profile was, and adds 1 to the
    number of lessons; the other fields are kept and the confirmation is
    sent first. *)
Theorem handleLessonComplete_progress (env : Env) (ctx : Context) (digits : Text)
  (w : World) (user : UserDoc) :
  callback_data ctx = txt "lesson_complete_" ++ digits ->
  digits <> [] -> forallb is_digit digits = true ->
  (digits_value 0 digits <= MAX_SAFE_INTEGER)%Z ->
  db_users w !! from_id ctx = Some user ->
  firestore_up env (fs_requests w) = true ->
  firestore_up env (1 + fs_requests w) = true ->
  exists sent w' user',
    handleLessonComplete env ctx w = Some (sent, w') /\
    db_users w' = <[from_id ctx := user']> (db_users w) /\
    lessonDay user' = (digits_value 0 digits + 1)%Z /\
    totalLessons user' = (totalLessons user + 1)%Z /\
    statistics_apart_progress user user' /\
    hd_error sent = Some (AnswerCbQuery (txt "✅ Lesson completed!")).
Proof.
  intros Hdata Hne Hd Hmax Hu H0 H1. unfold handleLessonComplete.
  rewrite Hdata, (completed_day_digits digits Hne Hd Hmax).
  rewrite (getUser_served env (from_id ctx) w H0), Hu.
  unfold updateUserStats, update_user.
  erewrite retry_first_up; [|exact H1 | simpl; rewrite Hu; reflexivity].
  eexists _, _, _. split; [reflexivity|]. split; [reflexivity|].
  simpl. repeat split.
Qed.

(** User 42 is at day 8 with seven lessons and presses the button of
    lesson 1 again: the profile is back at day 2, with eight lessons. *)
Lemma handleLessonComplete_progress_witness :
  lessonDay <$> (db_users seasoned_world !! "42") = Some 8%Z /\
  exists sent w' user',
    handleLessonComplete (demo_env 0) (dana (txt "lesson_complete_1"))
      seasoned_world = Some (sent, w') /\
    db_users w' = <["42" := user']> (db_users seasoned_world) /\
    lessonDay user' = 2%Z /\ totalLessons user' = 8%Z.
Proof.
  split; [reflexivity|].
  destruct (db_users seasoned_world !! "42") as [user|] eqn:Eu; [|discriminate Eu].
  destruct (handleLessonComplete_progress (demo_env 0)
              (dana (txt "lesson_complete_1")) (txt "1") seasoned_world user)
    as (sent & w' & user' & Hrun & Hu & Hday & Htotal & _);
    [reflexivity | discriminate | reflexivity | vm_compute; discriminate
    | exact Eu | reflexivity | reflexivity |].
  exists sent, w', user'. split; [exact Hrun|]. split; [exact Hu|].
  split; [exact Hday|]. rewrite Htotal. injection Eu as <-. reflexivity.
Defined.

(** *** The voice message *)

Lemma getUser_found env telegramId w :
  same_db w (snd (getUser env telegramId w)) /\
  forall data, fst (getUser env telegramId w) = Succeeded data ->
    db_users w !! telegramId = Some data.
Proof.
  split; [apply getUser_loop_same|].
  unfold getUser, retryWithBackoff.
  destruct (retry_loop _ _ _ _ _ _ w) as [r w'] eqn:E.
  apply get_user_loop in E. destruct E as [_ E].
  destruct r as [[data|]|e]; simpl; try discriminate.
  intros ? [= <-]. symmetry. apply E. reflexivity.
Qed.

(** The record of a successful [assessVoice] carries the day, the language
    and the expected answer of the parameters. *)
Lemma assessVoice_success_fields env params w out w' :
  assessVoice env params w = (Success out, w') ->
  exists doc,
    db_assessments w' = db_assessments w ++ [doc] /\
    doc_userId doc = p_userId params /\
    doc_lessonDay doc = p_lessonDay params /\
    doc_targetLanguage doc = p_targetLanguage params /\
    doc_expectedAnswer doc = p_expectedAnswer params /\
    doc_transcript doc = o_transcript out /\
    doc_feedback doc = o_feedback out.
Proof.
  unfold assessVoice, validate_params.
  destruct (failed_keys (params_checks params)); [|discriminate].
  set (v := {| p_userId := p_userId params |}).
  pose proof (transcribeAudio_same_db env (p_audioBuffer v) (p_targetLanguage v) w)
    as [Ha1 Hu1].
  destruct (transcribeAudio env _ _ w) as [[transcript|e c] w1]; [|discriminate].
  pose proof (gradeTranscript_same_db env transcript (p_targetLanguage v)
                (default "he" (p_nativeLanguage v)) (p_lessonWords v)
                (p_expectedAnswer v) w1) as [Ha2 Hu2].
  destruct (gradeTranscript env _ _ _ _ _ w1) as [[llmResponse|e c] w2];
    [|discriminate].
  simpl in *. set (graded := parseGradingResponse llmResponse).
  set (data := assessment_data v transcript graded _).
  set (w3 := {| db_assessments := db_assessments w2 |}).
  destruct (storeAssessment env data w3) as [[id|e c] w4] eqn:Es; [|discriminate].
  apply storeAssessment_stored in Es. destruct Es as (stamp & _ & Ha4 & _).
  intros [= <- <-].
  destruct (update_statistics_values env (p_userId params) w4) as [Ha5 _].
  eexists. rewrite Ha5, Ha4. simpl. rewrite Ha2, Ha1.
  split; [reflexivity|]. simpl. repeat split.
Qed.

(** What [assessVoice] does to the profiles. *)
Lemma assessVoice_users env params w :
  let w' := snd (assessVoice env params w) in
  db_users w' = db_users w \/
  exists u updates,
    db_users w !! p_userId params = Some u /\
    db_users w' = <[p_userId params := apply_updates updates u]> (db_users w) /\
    statistics_apart u (apply_updates updates u).
Proof.
  intros w'. subst w'.
  destruct (assessVoice env params w) as [[out|error code] w'] eqn:E; simpl.
  - destruct (assessVoice_success_record _ _ _ _ _ E)
      as (doc & _ & _ & _ & [Hu|(u & streak & Hlook & _ & Hu)]); [left; exact Hu|].
    right. eexists _, _. split; [exact Hlook|]. split; [exact Hu|]. repeat split.
  - pose proof (assessVoice_failure env params w error code) as H.
    rewrite E in H. destruct (H eq_refl) as [[_ Hu] _]. left. exact Hu.
Qed.

Lemma getLesson_found languageCode lessonDay lesson :
  getLesson languages languageCode lessonDay = Success lesson ->
  In (languageCode, lessonDay) shipped_lessons.
Proof.
  destruct (languages_cases languageCode) as [[-> | [-> | [-> | ->]]] | [H | H]].
  1-4: destruct (Z.eq_dec lessonDay 1%Z) as [->|H1];
    [intros _; simpl; tauto|];
    destruct (Z.eq_dec lessonDay 2%Z) as [->|H2];
    [vm_compute; intuition congruence|];
    match goal with
    | |- context [getLesson languages ?code] => shipped_language code
    end;
    rewrite ?(proj2 (Z.eqb_neq _ _) H1), ?(proj2 (Z.eqb_neq _ _) H2);
    discriminate.
  - unfold getLesson. rewrite H. discriminate.
  - unfold getLesson. rewrite H. discriminate.
Qed.

(** X28: A voice message stores one record or none.  The record
    is of the sender, in the language of the sender's profile and for the
    lesson of day [max 1 (lessonDay - 1)] of that profile, a lesson of the
    table whose prompt is the expected answer.  The handler touches no
    other profile, creates none, and changes at most the average and the
    streak of the sender's. *)
Theorem handleVoiceMessage_record (env : Env)
  (download : string -> option (list Byte.byte)) (ctx : Context)
  (fileId : string) (w : World) :
  let w' := snd (handleVoiceMessage env download ctx fileId w) in
  (db_assessments w' = db_assessments w \/
   exists user doc lesson,
     db_users w !! from_id ctx = Some user /\
     db_assessments w' = db_assessments w ++ [doc] /\
     doc_userId doc = from_id ctx /\
     doc_targetLanguage doc = targetLanguage user /\
     doc_lessonDay doc = Z.max 1 (lessonDay user - 1) /\
     In (targetLanguage user, doc_lessonDay doc) shipped_lessons /\
     getLesson languages (targetLanguage user) (doc_lessonDay doc) = Success lesson /\
     doc_expectedAnswer doc = ld_quizPrompt lesson) /\
  (forall id, id <> from_id ctx -> db_users w' !! id = db_users w !! id) /\
  (db_users w !! from_id ctx = None -> db_users w' = db_users w) /\
  (forall user, db_users w !! from_id ctx = Some user ->
     exists user',
       db_users w' !! from_id ctx = Some user' /\ statistics_apart user user').
Proof.
  intros w'. subst w'. unfold handleVoiceMessage.
  destruct (getUser_found env (from_id ctx) w) as [[Ha Hu] Hfound].
  destruct (getUser env (from_id ctx) w) as [[user|error code] w1]; simpl in *.
  2: { rewrite Ha, Hu. split; [left; reflexivity|]. split; [reflexivity|].
       split; [reflexivity|]. intros user Hlook. exists user.
       split; [exact Hlook | repeat split]. }
  specialize (Hfound user eq_refl).
  set (currentLessonDay := Z.max 1 _).
  assert (Hday : currentLessonDay = Z.max 1 (lessonDay user - 1)).
  { subst currentLessonDay. destruct (Z.eqb_spec (lessonDay user) 0); lia. }
  clearbody currentLessonDay. subst currentLessonDay.
  assert (Hkept : forall w2,
            db_assessments w2 = db_assessments w -> db_users w2 = db_users w ->
            (db_assessments w2 = db_assessments w \/
             exists user doc lesson,
               db_users w !! from_id ctx = Some user /\
               db_assessments w2 = db_assessments w ++ [doc] /\
               doc_userId doc = from_id ctx /\
               doc_targetLanguage doc = targetLanguage user /\
               doc_lessonDay doc = Z.max 1 (lessonDay user - 1) /\
               In (targetLanguage user, doc_lessonDay doc) shipped_lessons /\
               getLesson languages (targetLanguage user) (doc_lessonDay doc)
               = Success lesson /\
               doc_expectedAnswer doc = ld_quizPrompt lesson) /\
            (forall id, id <> from_id ctx -> db_users w2 !! id = db_users w !! id) /\
            (db_users w !! from_id ctx = None -> db_users w2 = db_users w) /\
            (forall user, db_users w !! from_id ctx = Some user ->
               exists user',
                 db_users w2 !! from_id ctx = Some user' /\
                 statistics_apart user user')).
  { intros w2 Ha2 Hu2. rewrite Hu2. split; [left; exact Ha2|].
    split; [reflexivity|]. split; [reflexivity|]. intros u Hlook. exists u.
    split; [exact Hlook | repeat split]. }
  destruct (getLesson languages (targetLanguage user) _) as [lesson|e c] eqn:El;
    [|apply Hkept; assumption].
  destruct (download fileId) as [audioBuffer|]; [|apply Hkept; assumption].
  set (params := {| p_userId := from_id ctx |}).
  pose proof (assessVoice_users env params w1) as Husers.
  destruct (assessVoice env params w1) as [[out|error code] w2] eqn:E; simpl in *.
  - split; [right|].
    + destruct (assessVoice_success_fields _ _ _ _ _ E)
        as (doc & Hd & Hid & Hl & Ht & He & _).
      simpl in *. exists user, doc, lesson. rewrite Hl.
      split; [exact Hfound|]. split; [congruence|]. split; [exact Hid|].
      split; [exact Ht|]. split; [reflexivity|].
      split; [exact (getLesson_found _ _ _ El)|]. split; [exact El | exact He].
    + rewrite Hu in Husers.
      destruct Husers as [Hsame|(u & updates & Hlook & Hnew & Hapart)].
      * rewrite Hsame. split; [reflexivity|]. split; [reflexivity|].
        intros u Hlook. exists u. split; [exact Hlook | repeat split].
      * rewrite Hnew. split; [|split].
        -- intros id Hne. apply lookup_insert_ne. congruence.
        -- congruence.
        -- intros u0 Hu0. rewrite Hlook in Hu0. inversion Hu0; subst u0.
           eexists. split; [apply lookup_insert_eq | exact Hapart].
  - pose proof (assessVoice_failure env params w1 error code) as H.
    rewrite E in H. destruct (H eq_refl) as [[Ha2 Hu2] _]. simpl in *.
    apply Hkept; congruence.
Qed.

(** User 42, at day 1 of English, sends a voice message: the record that
    is stored is one of lesson 1, with the prompt of that lesson as the
    expected answer. *)
Lemma handleVoiceMessage_record_witness :
  exists doc,
    db_assessments
      (snd (handleVoiceMessage (demo_env 0) (fun _ => Some [Byte.x01]) (dana [])
              "voice" world_with_user))
    = [doc] /\
    doc_lessonDay doc = 1%Z /\
    doc_expectedAnswer doc = quizPrompt en_lesson_1.
Proof.
  destruct (handleVoiceMessage_record (demo_env 0) (fun _ => Some [Byte.x01])
              (dana []) "voice" world_with_user)
    as [[Hsame|(user & doc & lesson & Hu & Hd & _ & Ht & Hl & _ & El & He)] _].
  - vm_compute in Hsame. discriminate Hsame.
  - injection Hu as <-. exists doc. split; [exact Hd|]. split; [exact Hl|].
    rewrite He. rewrite Hl in El. injection El as <-. reflexivity.
Defined.

(** *** The lesson and its button *)

Lemma shipped_lesson_found languageCode lessonDay :
  In (languageCode, lessonDay) shipped_lessons ->
  (lessonDay = 1 \/ lessonDay = 2)%Z /\
  exists lesson, getLesson languages languageCode lessonDay = Success lesson.
Proof.
  simpl. intros [[= <- <-]|[[= <- <-]|[[= <- <-]|[[= <- <-]|[[= <- <-]|[[= <- <-]|[]]]]]]];
    (split; [lia|]); eexists; vm_compute; reflexivity.
Qed.

(** X29: For a user whose profile names a lesson of the
    table, Firestore answering, [handleLessonCommand] sends that lesson
    with one button and changes nothing; a press of that button makes
    [handleLessonComplete] set the lesson day to the day of the profile
    plus 1 and the number of lessons to one more, the other fields being
    kept. *)
Theorem lesson_then_complete (env : Env) (ctx : Context) (w : World)
  (user : UserDoc) :
  db_users w !! from_id ctx = Some user ->
  In (targetLanguage user, lessonDay user) shipped_lessons ->
  firestore_up env (fs_requests w) = true ->
  firestore_up env (1 + fs_requests w) = true ->
  firestore_up env (2 + fs_requests w) = true ->
  exists lesson button w1,
    getLesson languages (targetLanguage user) (lessonDay user) = Success lesson /\
    handleLessonCommand env ctx w
    = Some ([ Reply
                (formatLesson lesson (lessonDay user) (Some (ld_languageFlag lesson)))
                [[button]] ], w1) /\
    same_db w w1 /\
    forall press,
      from_id press = from_id ctx -> callback_data press = b_data button ->
      exists sent w2 user',
        handleLessonComplete env press w1 = Some (sent, w2) /\
        db_users w2 = <[from_id ctx := user']> (db_users w) /\
        lessonDay user' = (lessonDay user + 1)%Z /\
        totalLessons user' = (totalLessons user + 1)%Z /\
        statistics_apart_progress user user'.
Proof.
  intros Hu Hin H0 H1 H2.
  destruct (shipped_lesson_found _ _ Hin) as [Hday [lesson El]].
  unfold handleLessonCommand. rewrite (getUser_served env (from_id ctx) w H0), Hu.
  assert (Hnz : (lessonDay user =? 0)%Z = false) by (apply Z.eqb_neq; lia).
  rewrite Hnz.
  assert (Hsafe : (Z.abs (lessonDay user) <=? MAX_SAFE_INTEGER)%Z = true).
  { apply Z.leb_le. unfold MAX_SAFE_INTEGER. lia. }
  rewrite Hsafe, El.
  eexists _, _, _. split; [reflexivity|]. split; [reflexivity|].
  split; [split; reflexivity|].
  intros press Hid Hdata. unfold handleLessonComplete. rewrite Hdata, Hid.
  cbn [b_data].
  assert (Hc : completed_day (txt "lesson_complete_" ++ number_text (lessonDay user))
               = Some (lessonDay user)).
  { destruct Hday as [-> | ->]; reflexivity. }
  rewrite Hc.
  rewrite (getUser_served env (from_id ctx) (after_reads 1 [] w) H1).
  cbn [after_reads db_users]. rewrite Hu.
  unfold updateUserStats, update_user.
  erewrite retry_first_up; [|exact H2 | simpl; rewrite Hu; reflexivity].
  eexists _, _, _. split; [reflexivity|]. split; [reflexivity|].
  simpl. repeat split.
Qed.

(** User 42 asks for the lesson of day 1 and presses its button: the
    profile is at day 2, with one lesson. *)
Lemma lesson_then_complete_witness :
  exists text button w1 sent w2 user',
    handleLessonCommand (demo_env 0) (dana []) world_with_user
    = Some ([Reply text [[button]]], w1) /\
    handleLessonComplete (demo_env 0) (dana (b_data button)) w1 = Some (sent, w2) /\
    db_users w2 !! "42" = Some user' /\
    lessonDay user' = 2%Z /\ totalLessons user' = 1%Z.
Proof.
  destruct (lesson_then_complete (demo_env 0) (dana []) world_with_user demo_profile)
    as (lesson & button & w1 & _ & Hrun & _ & Hpress);
    [reflexivity | simpl; tauto | reflexivity | reflexivity | reflexivity |].
  destruct (Hpress (dana (b_data button)) eq_refl eq_refl)
    as (sent & w2 & user' & Hc & Hu & Hday & Htotal & _).
  eexists _, button, w1, sent, w2, user'. split; [exact Hrun|].
  split; [exact Hc|]. split; [rewrite Hu; apply lookup_insert_eq|].
  split; [exact Hday | exact Htotal].
Defined.

(** *** The keyboard of the languages *)

Lemma offered_button userName button :
  In button (buttons (showLanguageSelection userName)) ->
  exists languageCode lesson,
    supported_language languageCode = true /\
    b_data button = language_button languageCode /\
    getLesson languages languageCode 1 = Success lesson.
Proof.
  unfold buttons, showLanguageSelection, getAvailableLanguages, languages_table.
  cbn [map rows_of_two concat app In fst snd].
  intros [<-|[<-|[<-|[<-|[]]]]].
  - exists "en"%string. eexists.
    split; [reflexivity|]. split; [reflexivity | vm_compute; reflexivity].
  - exists "es"%string. eexists.
    split; [reflexivity|]. split; [reflexivity | vm_compute; reflexivity].
  - exists "fr"%string. eexists.
    split; [reflexivity|]. split; [reflexivity | vm_compute; reflexivity].
  - exists "de"%string. eexists.
    split; [reflexivity|]. split; [reflexivity | vm_compute; reflexivity].
Qed.

Lemma handleLanguageSelection_saved env ctx languageCode lesson w :
  supported_language languageCode = true ->
  from_id ctx <> ""%string ->
  getLesson languages languageCode 1 = Success lesson ->
  firestore_up env (fs_requests w) = true ->
  exists w',
    handleLanguageSelection env ctx languageCode w
    = ([ AnswerCbQuery
           (ld_languageFlag lesson ++ txt " " ++ ld_languageName lesson
              ++ txt " selected!");
         Reply
           (txt "Perfect! You're now learning " ++ ld_languageName lesson
              ++ txt " " ++ ld_languageFlag lesson ++ [LF; LF]
              ++ txt "Let's start with your first lesson:")
           [];
         Reply (formatLesson lesson 1 (Some (ld_languageFlag lesson)))
           [[mark_complete (txt "1")]] ], w') /\
    db_users w'
    = <[from_id ctx :=
          fresh_profile ctx languageCode (clock env (clock_reads w))]> (db_users w) /\
    db_assessments w' = db_assessments w.
Proof.
  intros Hlang Hid El Hup.
  unfold handleLanguageSelection, new_Date. simpl.
  set (userData := {| ud_telegramId := from_id ctx |}).
  set (w0 := {| db_assessments := db_assessments w |}).
  assert (Hvalid : failed_keys (user_checks userData) = []).
  { unfold failed_keys, user_checks, userData. simpl. rewrite Hlang.
    rewrite (nonempty_string_true _ Hid).
    rewrite (nonempty_string_true _ (string_or_nonempty _ _
               (string_or_nonempty _ "User" ltac:(discriminate)))).
    reflexivity. }
  unfold upsertUser, validate_user. rewrite Hvalid. simpl.
  unfold set_user. erewrite retry_first_up; [|exact Hup | reflexivity].
  rewrite El. eexists. split; [reflexivity|]. split; reflexivity.
Qed.

(** X30: Every button of the keyboard of
    [showLanguageSelection] carries the code of a supported language that
    has a lesson for day 1.  When a user without a profile presses it,
    Firestore answering, the action [lang_<code>] stores a fresh profile
    with that language, and the last message sent is the lesson of day 1
    with the button [lesson_complete_1], which [handleLessonComplete]
    reads as day 1. *)
Theorem language_keyboard_first_lesson (env : Env) (ctx : Context)
  (userName : string) (button : Button) (w : World) :
  In button (buttons (showLanguageSelection userName)) ->
  callback_data ctx = b_data button ->
  from_id ctx <> ""%string ->
  db_users w !! from_id ctx = None ->
  firestore_up env (fs_requests w) = true ->
  firestore_up env (1 + fs_requests w) = true ->
  exists languageCode lesson sent w',
    b_data button = language_button languageCode /\
    supported_language languageCode = true /\
    getLesson languages languageCode 1 = Success lesson /\
    language_action env ctx w = Some (sent, w') /\
    db_users w'
    = <[from_id ctx :=
          fresh_profile ctx languageCode (clock env (clock_reads w))]> (db_users w) /\
    last sent
    = Some (Reply (formatLesson lesson 1 (Some (ld_languageFlag lesson)))
              [[mark_complete (txt "1")]]) /\
    completed_day (b_data (mark_complete (txt "1"))) = Some 1%Z.
Proof.
  intros Hin Hdata Hid Hnone H0 H1.
  destruct (offered_button _ _ Hin) as (languageCode & lesson & Hlang & Hb & El).
  destruct (supported_language_text _ Hlang) as (Hstrip & Hne & Hline & Hcode).
  destruct (handleLanguageSelection_saved env ctx languageCode lesson
              (after_reads 1 [] w) Hlang Hid El H1) as (w' & Hrun & Hu & _).
  exists languageCode, lesson. eexists _, w'. split; [exact Hb|].
  split; [exact Hlang|]. split; [exact El|]. split; [|split; [exact Hu|]].
  - unfold language_action. rewrite Hdata, Hb, Hstrip.
    destruct (txt languageCode) as [|c rest] eqn:Et; [congruence|].
    rewrite Hline, Hcode.
    rewrite (getUser_served env (from_id ctx) w H0), Hnone. rewrite Hrun.
    reflexivity.
  - split; reflexivity.
Qed.

(** A new user presses the button of French: a profile is stored, at
    day 1. *)
Lemma language_keyboard_first_lesson_witness :
  exists sent w' user,
    language_action (demo_env 0) (dana (b_data french_button)) world0
    = Some (sent, w') /\
    db_users w' !! "42" = Some user /\
    name user = "Dana"%string /\ lessonDay user = 1%Z.
Proof.
  destruct (language_keyboard_first_lesson (demo_env 0)
              (dana (b_data french_button)) "Dana" french_button world0)
    as (languageCode & lesson & sent & w' & _ & _ & _ & Hrun & Hu & _);
    [simpl; tauto | reflexivity | discriminate | reflexivity | reflexivity
    | reflexivity |].
  eexists sent, w', _. split; [exact Hrun|].
  split; [rewrite Hu; apply lookup_insert_eq|]. split; reflexivity.
Defined.
